(** * Product energy-level validator: record resolution and verdict pipeline

    A shallow embedding of the Python sources
    [model_extractor.py], [anti_crawler.py] (the record extraction part),
    [result_comparator.py], [relevance_checker.py], [fast_batch_processor.py]
    and [main_fast.py] (the relevance pass), with the properties of the
    resolution pipeline proved over it.

    Conventions.
    - A Python [str] is a list of Unicode code points ([pystr := list Z]).
      Literals are written as UTF-8 text and decoded by [u].
    - The tables of the Python runtime that the sources rely on but do not
      contain (the regular-expression classes [\w] and [\d], the
      case-insensitive literal match of [re.IGNORECASE], [str.lower] and
      the block matcher of [difflib.SequenceMatcher]) are the fields of the
      class [PyLib]; every definition and theorem is generic in it, and
      [ascii_lib] is the instance used to run the definitions on text made
      of ASCII characters and CJK ideographs.
    - Scores are Python floats in the source; they are exact rationals
      ([Q]) here. *)

From Stdlib Require Import String Ascii ZArith QArith Bool List Lia Permutation Sorted.
Import ListNotations.

Set Implicit Arguments.
Local Open Scope Z_scope.

(* ===================================================================== *)
(** ** Python strings *)
(* ===================================================================== *)

Definition pystr := list Z.

Fixpoint utf8_decode (bs : list Z) : pystr :=
  match bs with
  | [] => []
  | b0 :: r0 =>
    if b0 <? 128 then b0 :: utf8_decode r0
    else
      match r0 with
      | [] => [b0]
      | b1 :: r1 =>
        if b0 <? 224 then ((b0 - 192) * 64 + (b1 - 128)) :: utf8_decode r1
        else
          match r1 with
          | [] => [b0]
          | b2 :: r2 =>
            if b0 <? 240
            then ((b0 - 224) * 4096 + (b1 - 128) * 64 + (b2 - 128)) :: utf8_decode r2
            else
              match r2 with
              | [] => [b0]
              | b3 :: r3 =>
                ((b0 - 240) * 262144 + (b1 - 128) * 4096
                 + (b2 - 128) * 64 + (b3 - 128)) :: utf8_decode r3
              end
          end
      end
  end.

(** [u "text"] is the Python string with the code points of the literal. *)
Definition u (s : string) : pystr :=
  utf8_decode (map (fun a => Z.of_nat (nat_of_ascii a)) (list_ascii_of_string s)).

Definition str_eq_dec : forall a b : pystr, {a = b} + {a <> b} := list_eq_dec Z.eq_dec.

(** [a == b] on strings. *)
Fixpoint str_eqb (a b : pystr) : bool :=
  match a, b with
  | [], [] => true
  | x :: a', y :: b' => (x =? y) && str_eqb a' b'
  | _, _ => false
  end.

(** [a < b] on strings: lexicographic on code points. *)
Fixpoint str_ltb (a b : pystr) : bool :=
  match a, b with
  | _, [] => false
  | [], _ :: _ => true
  | x :: a', y :: b' => (x <? y) || ((x =? y) && str_ltb a' b')
  end.

(** [s.startswith(p)] *)
Fixpoint startswith (s p : pystr) : bool :=
  match p, s with
  | [], _ => true
  | _ :: _, [] => false
  | y :: p', x :: s' => (x =? y) && startswith s' p'
  end.

(** [p in s] (substring test). *)
Fixpoint str_in (p s : pystr) : bool :=
  startswith s p ||
  match s with
  | [] => false
  | _ :: s' => str_in p s'
  end.

(** Membership of a string in a list of strings: [x in [..]]. *)
Definition str_mem (x : pystr) (l : list pystr) : bool := existsb (str_eqb x) l.

(** Truth value of a string: [bool(s)]. *)
Definition truthy (s : pystr) : bool :=
  match s with [] => false | _ :: _ => true end.

(** [str.isspace] on one character (the white-space table of CPython). *)
Definition is_space (c : Z) : bool :=
  ((9 <=? c) && (c <=? 13)) || ((28 <=? c) && (c <=? 32))
  || (c =? 133) || (c =? 160) || (c =? 5760)
  || ((8192 <=? c) && (c <=? 8202))
  || (c =? 8232) || (c =? 8233) || (c =? 8239) || (c =? 8287) || (c =? 12288).

Fixpoint lstrip (s : pystr) : pystr :=
  match s with
  | [] => []
  | c :: s' => if is_space c then lstrip s' else s
  end.

Definition rstrip (s : pystr) : pystr := rev (lstrip (rev s)).

(** [s.strip()] *)
Definition strip (s : pystr) : pystr := rstrip (lstrip s).

(** The character class [[一-鿿]]. *)
Definition is_cjk (c : Z) : bool := (19968 <=? c) && (c <=? 40959).

(** Length of the leading run of characters of class [cls]. *)
Fixpoint run_len (cls : Z -> bool) (s : pystr) : nat :=
  match s with
  | [] => O
  | c :: s' => if cls c then S (run_len cls s') else O
  end.

(** [s[i:j]] for [0 <= i], [0 <= j]. *)
Definition slice (s : pystr) (i j : nat) : pystr := firstn (j - i) (skipn i s).

(** [str(n)] for an integer. *)
Fixpoint digits_of (fuel : nat) (n : Z) (acc : pystr) : pystr :=
  match fuel with
  | O => acc
  | S f =>
    let acc' := (48 + n mod 10) :: acc in
    if n <? 10 then acc' else digits_of f (n / 10) acc'
  end.

Definition str_of_int (n : Z) : pystr :=
  if n <? 0 then 45 :: digits_of (S (Z.to_nat (Z.log2 (- n)))) (- n) []
  else digits_of (S (Z.to_nat (Z.log2 n))) n [].

Definition ascii_lower (c : Z) : Z :=
  if (65 <=? c) && (c <=? 90) then c + 32 else c.

Definition is_ascii_upper (c : Z) : bool := (65 <=? c) && (c <=? 90).
Definition is_ascii_lower (c : Z) : bool := (97 <=? c) && (c <=? 122).
Definition is_ascii_alpha (c : Z) : bool := is_ascii_upper c || is_ascii_lower c.
Definition is_ascii_digit (c : Z) : bool := (48 <=? c) && (c <=? 57).

(** Characters on which the runtime tables are pinned down below: ASCII
    and the CJK block. *)
Definition plain_char (c : Z) : bool := ((0 <=? c) && (c <? 128)) || is_cjk c.

(** [dict.get(key)] on a table kept in insertion order. *)
Fixpoint dict_get {V : Type} (key : pystr) (d : list (pystr * V)) : option V :=
  match d with
  | [] => None
  | (k, v) :: d' => if str_eqb key k then Some v else dict_get key d'
  end.

(* ===================================================================== *)
(** ** The Python runtime tables the sources rely on *)
(* ===================================================================== *)

Class PyLib : Type := {
  (** [\w] of [re] on a [str] pattern. *)
  re_word : Z -> bool;
  (** [\d] of [re] on a [str] pattern. *)
  re_digit : Z -> bool;
  (** [re_ci p c]: under [re.IGNORECASE], the literal [p] of a pattern
      matches the character [c] of the text. *)
  re_ci : Z -> Z -> bool;
  (** [str.lower] *)
  str_lower : pystr -> pystr;
  (** [sm_matches a b]: the total size of the matching blocks that
      [difflib.SequenceMatcher(None, a, b)] finds. *)
  sm_matches : pystr -> pystr -> nat;
  (** [str.lower] on ASCII and CJK text lowers the ASCII capitals only. *)
  str_lower_plain :
    forall s, forallb plain_char s = true -> str_lower s = map ascii_lower s
}.

(* ===================================================================== *)
(** ** result_comparator.py: grade normalisation and the verdict *)
(* ===================================================================== *)

(** A value reaching [normalize_energy_level]: [None], a string, or a
    number read from a spreadsheet cell or a JSON field.  A float is
    given by the text [str] renders it as (['1.0'] for the cell 1 of a
    numeric column that pandas reads as float64); NaN, the empty cell,
    is [PyNone]. *)
Inductive pyval : Type :=
| PyNone
| PyStr (s : pystr)
| PyInt (n : Z)
| PyFloat (repr : pystr).

(** The four values of [validation_result]. *)
Inductive verdict : Type :=
| Correct          (* '正确' *)
| Incorrect        (* '错误' *)
| NotFound         (* '搜不到' *)
| DeclaredMissing. (* 'Excel缺失' *)

Definition verdict_text (v : verdict) : pystr :=
  match v with
  | Correct => u "正确"
  | Incorrect => u "错误"
  | NotFound => u "搜不到"
  | DeclaredMissing => u "Excel缺失"
  end.

Definition verdict_eqb (a b : verdict) : bool :=
  match a, b with
  | Correct, Correct | Incorrect, Incorrect
  | NotFound, NotFound | DeclaredMissing, DeclaredMissing => true
  | _, _ => false
  end.

(** [self.level_mapping] *)
Definition level_mapping : list (pystr * option pystr) :=
  [ (u "1", Some (u "一级")); (u "2", Some (u "二级")); (u "3", Some (u "三级"));
    (u "4", Some (u "四级")); (u "5", Some (u "五级"));
    (u "一级", Some (u "一级")); (u "二级", Some (u "二级"));
    (u "三级", Some (u "三级")); (u "四级", Some (u "四级"));
    (u "五级", Some (u "五级"));
    (u "1级", Some (u "一级")); (u "2级", Some (u "二级"));
    (u "3级", Some (u "三级")); (u "4级", Some (u "四级"));
    (u "5级", Some (u "五级"));
    (u "I", Some (u "一级")); (u "II", Some (u "二级")); (u "III", Some (u "三级"));
    (u "IV", Some (u "四级")); (u "V", Some (u "五级"));
    (u "未知", None); (u "N/A", None); (u "null", None); (u "", None) ].

(** The five canonical grade tokens. *)
Definition canonical_grades : list pystr :=
  [ u "一级"; u "二级"; u "三级"; u "四级"; u "五级" ].

Section Comparator.
Context {L : PyLib}.

(** [re.sub(r'[^\w一-鿿]', '', level)] *)
Definition remove_extra_chars (level : pystr) : pystr :=
  filter (fun c => re_word c || is_cjk c) level.

Definition normalize_energy_level (level : pyval) : option pystr :=
  match level with
  | PyStr s =>
    if negb (truthy s) then None
    else
      let level := strip s in
      let level := remove_extra_chars level in
      match dict_get level level_mapping with
      | Some v => v
      | None => None
      end
  | PyNone | PyInt _ | PyFloat _ => None
  end.

(** [not x] for an [Optional[str]]. *)
Definition not_opt (x : option pystr) : bool :=
  match x with
  | None => true
  | Some s => negb (truthy s)
  end.

(** [a == b] for two [Optional[str]]. *)
Definition opt_str_eqb (a b : option pystr) : bool :=
  match a, b with
  | None, None => true
  | Some x, Some y => str_eqb x y
  | _, _ => false
  end.

Definition compare_energy_levels (excel_level search_level : pyval) : verdict :=
  let normalized_excel := normalize_energy_level excel_level in
  let normalized_search := normalize_energy_level search_level in
  if not_opt normalized_search then NotFound
  else if not_opt normalized_excel then DeclaredMissing
  else if opt_str_eqb normalized_excel normalized_search then Correct
  else Incorrect.

End Comparator.

(* ===================================================================== *)
(** ** model_extractor.py *)
(* ===================================================================== *)

Section ModelExtractor.
Context {L : PyLib}.

Definition is_chinese (c : Z) : bool := is_cjk c.

(** Index of the first character that is not Chinese, counted from [i]. *)
Fixpoint first_non_chinese (s : pystr) (i : nat) : option nat :=
  match s with
  | [] => None
  | c :: s' => if negb (is_chinese c) then Some i else first_non_chinese s' (S i)
  end.

Definition _extract_generic (model : pystr) : pystr :=
  (* for i, char in enumerate(model): ... break / else: return model *)
  match first_non_chinese model 0 with
  | None => model
  | Some start_pos =>
    (* for i in range(len(model) - 1, -1, -1): ... end_pos = i + 1 *)
    match first_non_chinese (rev model) 0 with
    | None => model
    | Some k =>
      let end_pos := (length model - k)%nat in
      let extracted := slice model start_pos end_pos in
      if truthy extracted then strip extracted else model
    end
  end.

(** The literal [lit], matched case-insensitively, followed by [$]: the
    end of the text, or a newline that ends it. *)
Fixpoint lit_then_end (lit s : pystr) : bool :=
  match lit, s with
  | [], [] => true
  | [], [c] => c =? 10
  | [], _ :: _ :: _ => false
  | _ :: _, [] => false
  | p :: lit', c :: s' => re_ci p c && lit_then_end lit' s'
  end.

(** [re.match(r'.*LIT$', s, re.IGNORECASE)]: [.] matches any character
    but a newline. *)
Fixpoint match_suffix_pattern (lit s : pystr) : bool :=
  lit_then_end lit s ||
  match s with
  | [] => false
  | c :: s' => negb (c =? 10) && match_suffix_pattern lit s'
  end.

Definition version_patterns : list pystr :=
  [ u "版"; u "pro"; u "Pro"; u "plus"; u "Plus"; u "max"; u "Max";
    u "mini"; u "Mini"; u "lite"; u "Lite" ].

Definition _has_version_suffix (model : pystr) : bool :=
  existsb (fun lit => match_suffix_pattern lit model) version_patterns.

(** [for brand in brands: if model.startswith(brand): return
    model[len(brand):].strip()] *)
Fixpoint strip_listed_brand (brands : list pystr) (model : pystr) : option pystr :=
  match brands with
  | [] => None
  | brand :: rest =>
    if startswith model brand then Some (strip (skipn (length brand) model))
    else strip_listed_brand rest model
  end.

Definition _extract_with_version_suffix (model : pystr) : pystr :=
  if startswith model (u "格力") then strip (skipn 2 model)
  else if startswith model (u "美的空调") then strip (skipn 4 model)
  else
    let common_brands :=
      [ u "美的"; u "海尔"; u "奥克斯"; u "志高"; u "TCL"; u "小米"; u "米家" ] in
    match strip_listed_brand common_brands model with
    | Some extracted => extracted
    | None => model
    end.

Definition extract_model (original_model : pystr) : pystr :=
  if negb (truthy original_model) then []
  else
    let model := strip original_model in
    if negb (truthy model) then []
    else if _has_version_suffix model then _extract_with_version_suffix model
    else if startswith model (u "格力") then strip (skipn 2 model)
    else if startswith model (u "美的空调") then strip (skipn 4 model)
    else
      let common_brands := [ u "美的"; u "海尔"; u "奥克斯"; u "志高"; u "TCL" ] in
      match strip_listed_brand common_brands model with
      | Some extracted => extracted
      | None =>
        if startswith model (u "RF") then model
        else _extract_generic model
      end.

(** The brand tokens [extract_model] knows, over both of its paths. *)
Definition known_brands : list pystr :=
  [ u "格力"; u "美的空调"; u "美的"; u "海尔"; u "奥克斯"; u "志高"; u "TCL";
    u "小米"; u "米家" ].

(** [model] begins with a brand that [extract_model] strips from it: the
    version-suffix path knows two brands more than the plain path. *)
Definition recognized_brand_prefix (model : pystr) : bool :=
  startswith model (u "格力") || startswith model (u "美的空调")
  || existsb (startswith model)
       (if _has_version_suffix model
        then [ u "美的"; u "海尔"; u "奥克斯"; u "志高"; u "TCL"; u "小米"; u "米家" ]
        else [ u "美的"; u "海尔"; u "奥克斯"; u "志高"; u "TCL" ]).

(** The text between the leading and the trailing run of Chinese
    characters: [model[start_pos:end_pos]] of the generic rule. *)
Definition generic_middle (model : pystr) : pystr :=
  slice model (run_len is_chinese model)
        (length model - run_len is_chinese (rev model)).

End ModelExtractor.

(* ===================================================================== *)
(** ** anti_crawler.py: candidate records and deduplication *)
(* ===================================================================== *)

(** A field value of a JSON record. *)
Inductive json : Type :=
| JNull
| JStr (s : pystr)
| JInt (n : Z).

Definition json_truthy (j : json) : bool :=
  match j with
  | JNull => false
  | JStr s => truthy s
  | JInt n => negb (n =? 0)
  end.

(** [str(x)] for the field values that pass the truth test. *)
Definition json_str (j : json) : pystr :=
  match j with
  | JNull => u "None"
  | JStr s => s
  | JInt n => str_of_int n
  end.

(** One element of [search_result['list']]; an absent text field reads
    as ['']. *)
Record raw_record : Type := {
  productModel : pystr;
  nxLever : json;
  producerName : pystr;
  registrationNumber : pystr;
  productType : pystr;
  announcementTime : pystr
}.

(** A candidate, as built by [extract_energy_levels]. *)
Record candidate : Type := {
  c_model : pystr;
  c_energy_level : pystr;
  c_producer : pystr;
  c_record_number : pystr;
  c_product_type : pystr;
  c_announcement_time : pystr
}.

(** The dictionary returned by [search_product]; ['list'] may be absent. *)
Record search_data : Type := {
  sd_list : option (list raw_record)
}.

Definition level_map : list (pystr * pystr) :=
  [ (u "1", u "一级"); (u "2", u "二级"); (u "3", u "三级");
    (u "4", u "四级"); (u "5", u "五级") ].

Definition _compare_time_strings (time1 time2 : pystr) : Z :=
  if negb (truthy time1) && negb (truthy time2) then 0
  else if negb (truthy time1) then -1
  else if negb (truthy time2) then 1
  else if str_ltb time2 time1 then 1
  else if str_ltb time1 time2 then -1
  else 0.

(** [_get_latest_record] on the group [first :: rest]. *)
Definition _get_latest_record (first : candidate) (rest : list candidate) : candidate :=
  fold_left
    (fun latest_record record =>
       if 0 <? _compare_time_strings (c_announcement_time record)
                                     (c_announcement_time latest_record)
       then record else latest_record)
    rest first.

(** [model_groups]: a dictionary in insertion order; a group is created
    with its first record, so it is kept as that record and the later
    ones. *)
Definition model_groups_t := list (pystr * (candidate * list candidate)).

Fixpoint group_append (record : candidate) (groups : model_groups_t) : model_groups_t :=
  match groups with
  | [] => [ (c_model record, (record, [])) ]
  | (model, (first, rest)) :: groups' =>
    if str_eqb (c_model record) model
    then (model, (first, rest ++ [record])) :: groups'
    else (model, (first, rest)) :: group_append record groups'
  end.

Definition group_by_model (records : list candidate) : model_groups_t :=
  fold_left (fun groups record => group_append record groups) records [].

Definition _filter_latest_records (records : list candidate) : list candidate :=
  match records with
  | [] => []
  | _ :: _ =>
    map (fun '(model, (first, rest)) =>
           match rest with
           | [] => first
           | _ :: _ => _get_latest_record first rest
           end)
        (group_by_model records)
  end.

Definition to_candidate (record : raw_record) : candidate :=
  let energy_level := nxLever record in
  let chinese_level :=
    match dict_get (json_str energy_level) level_map with
    | Some l => l
    | None => json_str energy_level
    end in
  {| c_model := productModel record;
     c_energy_level := chinese_level;
     c_producer := producerName record;
     c_record_number := registrationNumber record;
     c_product_type := productType record;
     c_announcement_time := announcementTime record |}.

(** [extract_energy_levels(search_result)]; [None] is a falsy result. *)
Definition extract_energy_levels (search_result : option search_data) : list candidate :=
  match search_result with
  | None => []
  | Some d =>
    match sd_list d with
    | None => []
    | Some l =>
      let all_records :=
        map to_candidate (filter (fun record => json_truthy (nxLever record)) l) in
      _filter_latest_records all_records
    end
  end.

(* ===================================================================== *)
(** ** Backtracking matchers for the regular expressions of the sources *)
(* ===================================================================== *)

(** A greedy repetition that has [n] characters available: it tries
    [n], [n-1], ..., [lo] of them and hands the matched text and the rest
    to the continuation [k]; the first success wins. *)
Fixpoint greedy_down {A : Type} (n lo : nat) (s : pystr)
         (k : pystr -> pystr -> option A) : option A :=
  match n with
  | O => if (lo =? 0)%nat then k [] s else None
  | S n' =>
    if (S n' <? lo)%nat then None
    else
      match k (firstn (S n') s) (skipn (S n') s) with
      | Some r => Some r
      | None => greedy_down n' lo s k
      end
  end.

(** [cls{lo,}] followed by [k]. *)
Definition re_plus {A : Type} (cls : Z -> bool) (lo : nat) (s : pystr)
           (k : pystr -> pystr -> option A) : option A :=
  greedy_down (run_len cls s) lo s k.

(** [cls{lo,hi}] followed by [k]. *)
Definition re_between {A : Type} (cls : Z -> bool) (lo hi : nat) (s : pystr)
           (k : pystr -> pystr -> option A) : option A :=
  greedy_down (Nat.min (run_len cls s) hi) lo s k.

(** [re.search]: the first position of the text, from the left, at which
    the matcher [m] succeeds. *)
Fixpoint re_search {A : Type} (m : pystr -> option A) (s : pystr) : option A :=
  match m s with
  | Some r => Some r
  | None =>
    match s with
    | [] => None
    | _ :: s' => re_search m s'
    end
  end.

(** A literal matched exactly; the result is the rest of the text. *)
Definition re_lit (lit s : pystr) : option pystr :=
  if startswith s lit then Some (skipn (length lit) s) else None.

Section Scoring.
Context {L : PyLib}.

(** A literal matched under [re.IGNORECASE]. *)
Fixpoint re_lit_ci (lit s : pystr) : option pystr :=
  match lit, s with
  | [], _ => Some s
  | _ :: _, [] => None
  | p :: lit', c :: s' => if re_ci p c then re_lit_ci lit' s' else None
  end.

(** [SequenceMatcher(None, a, b).ratio()]: [2.0 * matches / length], and
    [1.0] when both sequences are empty. *)
Definition sm_ratio (a b : pystr) : Q :=
  let total := (length a + length b)%nat in
  match total with
  | O => 1%Q
  | S _ => Qmake (2 * Z.of_nat (sm_matches a b)) (Pos.of_nat total)
  end.

Definition calculate_similarity_score (model1 model2 : pystr) : Q :=
  if negb (truthy model1) || negb (truthy model2) then 0%Q
  else sm_ratio (str_lower model1) (str_lower model2).

Definition priority_brands : list pystr :=
  [ u "格力"; u "奥克斯"; u "美的"; u "TCL";
    u "海尔"; u "志高"; u "海信"; u "长虹"; u "科龙"; u "容声";
    u "春兰"; u "新科"; u "华凌"; u "小天鹅"; u "统帅"; u "卡萨帝"; u "美菱";
    u "创维"; u "康佳"; u "夏普"; u "松下"; u "三菱"; u "大金"; u "日立"; u "东芝";
    u "LG"; u "SAMSUNG"; u "三星"; u "SONY"; u "索尼"; u "PHILIPS"; u "飞利浦";
    u "SIEMENS"; u "西门子"; u "BOSCH"; u "博世"; u "WHIRLPOOL"; u "惠而浦";
    u "约克"; u "YORK"; u "开利"; u "CARRIER"; u "特灵"; u "TRANE"; u "麦克维尔";
    u "顿汉布什"; u "克莱门特"; u "盾安"; u "申菱"; u "欧科"; u "天加" ].

(** [for brand in brands: if brand in model or brand.lower() in
    model_lower: return brand] *)
Fixpoint first_brand_in (brands : list pystr) (model model_lower : pystr) : option pystr :=
  match brands with
  | [] => None
  | brand :: rest =>
    if str_in brand model || str_in (str_lower brand) model_lower then Some brand
    else first_brand_in rest model model_lower
  end.

(** [([一-鿿]+)(?:电器|空调|制冷|科技|实业|集团|有限公司|股份|公司)] at one position. *)
Definition company_pattern_cn (s : pystr) : option pystr :=
  let suffixes :=
    [ u "电器"; u "空调"; u "制冷"; u "科技"; u "实业"; u "集团";
      u "有限公司"; u "股份"; u "公司" ] in
  re_plus is_cjk 1 s
    (fun g rest => if existsb (startswith rest) suffixes then Some g else None).

(** [([A-Z][a-z]+)(?:\s+(?:Electric|Electronics|Technology|Corp|Ltd|Inc))]
    at one position. *)
Definition company_pattern_en (s : pystr) : option pystr :=
  let words :=
    [ u "Electric"; u "Electronics"; u "Technology"; u "Corp"; u "Ltd"; u "Inc" ] in
  match s with
  | c :: s1 =>
    if is_ascii_upper c then
      re_plus is_ascii_lower 1 s1
        (fun g rest =>
           re_plus is_space 1 rest
             (fun _ rest' =>
                if existsb (startswith rest') words then Some (c :: g) else None))
    else None
  | [] => None
  end.

(** [([一-鿿]{2,4})(?:[一-鿿]*电器)] at one position. *)
Definition company_pattern_short (s : pystr) : option pystr :=
  re_between is_cjk 2 4 s
    (fun g rest =>
       re_plus is_cjk 0 rest
         (fun _ rest' => if startswith rest' (u "电器") then Some g else None)).

Definition company_patterns : list (pystr -> option pystr) :=
  [ company_pattern_cn; company_pattern_en; company_pattern_short ].

Definition generic_words : list pystr :=
  [ u "有限"; u "股份"; u "电器"; u "空调"; u "制冷"; u "科技" ].

(** The loop over [company_patterns]. *)
Fixpoint first_company_brand (patterns : list (pystr -> option pystr))
         (model_clean : pystr) : option pystr :=
  match patterns with
  | [] => None
  | pattern :: rest =>
    match re_search pattern model_clean with
    | Some extracted_brand =>
      if negb (str_mem extracted_brand generic_words) then Some extracted_brand
      else first_company_brand rest model_clean
    | None => first_company_brand rest model_clean
    end
  end.

Definition model_prefixes : list pystr :=
  [ u "KFR"; u "KF"; u "RF"; u "GR"; u "BCD"; u "XQG" ].

Definition extract_brand_from_model (model : pystr) : pystr :=
  if negb (truthy model) then []
  else
    let brands := priority_brands in
    let model_clean := strip model in
    let model_lower := str_lower model_clean in
    match first_brand_in brands model_clean model_lower with
    | Some brand => brand
    | None =>
      match first_company_brand company_patterns model_clean with
      | Some extracted_brand => extracted_brand
      | None =>
        (* re.match(r'^([一-鿿]+)', model_clean) *)
        let prefix := firstn (run_len is_cjk model_clean) model_clean in
        if truthy prefix && (2 <=? length prefix)%nat && (length prefix <=? 4)%nat
        then prefix
        else
          (* re.match(r'^([A-Z][A-Za-z]+)', model_clean) *)
          match model_clean with
          | c :: s1 =>
            let n := run_len is_ascii_alpha s1 in
            if is_ascii_upper c && (1 <=? n)%nat then
              let prefix := c :: firstn n s1 in
              if negb (str_mem prefix model_prefixes) then prefix else []
            else []
          | [] => []
          end
      end
    end.

End Scoring.

Definition Qlt_bool (a b : Q) : bool := negb (Qle_bool b a).

(** Python's [max(a, b)] and [min(a, b)] on numbers. *)
Definition py_max (a b : Q) : Q := if Qlt_bool a b then b else a.
Definition py_min (a b : Q) : Q := if Qlt_bool b a then b else a.

(** [x or y] on strings. *)
Definition str_or (x y : pystr) : pystr := if truthy x then x else y.

Section Scoring2.
Context {L : PyLib}.

Definition brand_aliases : list (pystr * list pystr) :=
  [ (u "格力", [ u "GREE"; u "gree"; u "珠海格力"; u "格力电器" ]);
    (u "美的", [ u "MIDEA"; u "midea"; u "美的集团"; u "美的电器" ]);
    (u "海尔", [ u "HAIER"; u "haier"; u "海尔集团"; u "青岛海尔" ]);
    (u "奥克斯", [ u "AUX"; u "aux"; u "奥克斯集团" ]);
    (u "志高", [ u "CHIGO"; u "chigo"; u "志高空调" ]);
    (u "TCL", [ u "tcl"; u "TCL集团"; u "TCL电器" ]);
    (u "海信", [ u "HISENSE"; u "hisense"; u "海信集团" ]);
    (u "长虹", [ u "CHANGHONG"; u "changhong"; u "四川长虹" ]);
    (u "科龙", [ u "KELON"; u "kelon"; u "海信科龙" ]);
    (u "容声", [ u "RONSHEN"; u "ronshen" ]);
    (u "华凌", [ u "WAHIN"; u "wahin" ]);
    (u "卡萨帝", [ u "CASARTE"; u "casarte" ]);
    (u "统帅", [ u "LEADER"; u "leader" ]);
    (u "小天鹅", [ u "LITTLESWAN"; u "littleswan" ]);
    (u "三星", [ u "SAMSUNG"; u "samsung" ]);
    (u "松下", [ u "PANASONIC"; u "panasonic" ]);
    (u "三菱", [ u "MITSUBISHI"; u "mitsubishi" ]);
    (u "大金", [ u "DAIKIN"; u "daikin" ]);
    (u "西门子", [ u "SIEMENS"; u "siemens" ]);
    (u "博世", [ u "BOSCH"; u "bosch" ]);
    (u "惠而浦", [ u "WHIRLPOOL"; u "whirlpool" ]) ].

(** The body of the loop over [brand_aliases]: both lowered brands belong
    to the family of [main_brand]. *)
Definition in_family (brand_lower : pystr) (family : pystr * list pystr) : bool :=
  let '(main_brand, aliases) := family in
  let main_brand_lower := str_lower main_brand in
  let aliases_lower := map str_lower aliases in
  str_eqb brand_lower main_brand_lower || str_mem brand_lower aliases_lower.

(** The part of [brands_similar] decided by the alias table: equal up to
    case, or two names of one family of [brand_aliases]. *)
Definition alias_equivalent (brand1 brand2 : pystr) : bool :=
  let brand1_lower := str_lower brand1 in
  let brand2_lower := str_lower brand2 in
  str_eqb brand1_lower brand2_lower
  || existsb (fun family => in_family brand1_lower family && in_family brand2_lower family)
             brand_aliases.

Definition brands_similar (brand1 brand2 : pystr) : bool :=
  if negb (truthy brand1) || negb (truthy brand2) then false
  else
    let brand1_lower := str_lower brand1 in
    let brand2_lower := str_lower brand2 in
    if alias_equivalent brand1 brand2 then true
    else if str_in brand1_lower brand2_lower || str_in brand2_lower brand1_lower then true
    else Qlt_bool (8 # 10) (calculate_similarity_score brand1 brand2).

(** An optional literal character under [re.IGNORECASE], greedy. *)
Definition re_opt_ci {A : Type} (p : Z) (s : pystr) (k : pystr -> option A) : option A :=
  match s with
  | c :: s' =>
    if re_ci p c then
      match k s' with
      | Some r => Some r
      | None => k s
      end
    else k s
  | [] => k s
  end.

(** [KFR?-(\d+)GW] at one position. *)
Definition power_pattern_kfr_gw (s : pystr) : option pystr :=
  match re_lit_ci (u "KF") s with
  | Some s1 =>
    re_opt_ci 82 s1
      (fun s2 =>
         match re_lit_ci (u "-") s2 with
         | Some s3 =>
           re_plus re_digit 1 s3
             (fun g rest => match re_lit_ci (u "GW") rest with
                            | Some _ => Some g
                            | None => None
                            end)
         | None => None
         end)
  | None => None
  end.

(** [(\d+)GW] at one position. *)
Definition power_pattern_gw (s : pystr) : option pystr :=
  re_plus re_digit 1 s
    (fun g rest => match re_lit_ci (u "GW") rest with
                   | Some _ => Some g
                   | None => None
                   end).

(** [KFR?-(\d+)] at one position. *)
Definition power_pattern_kfr (s : pystr) : option pystr :=
  match re_lit_ci (u "KF") s with
  | Some s1 =>
    re_opt_ci 82 s1
      (fun s2 =>
         match re_lit_ci (u "-") s2 with
         | Some s3 => re_plus re_digit 1 s3 (fun g _ => Some g)
         | None => None
         end)
  | None => None
  end.

Fixpoint first_power_match (patterns : list (pystr -> option pystr)) (model : pystr) : pystr :=
  match patterns with
  | [] => []
  | pattern :: rest =>
    match re_search pattern model with
    | Some g => g
    | None => first_power_match rest model
    end
  end.

Definition extract_power_spec (model : pystr) : pystr :=
  first_power_match [ power_pattern_kfr_gw; power_pattern_gw; power_pattern_kfr ] model.

(** The brand bonus of [score_match]. *)
Definition brand_bonus (original_brand candidate_brand : pystr) : Q :=
  if truthy original_brand && truthy candidate_brand then
    if str_eqb original_brand (u "格力") && brands_similar original_brand candidate_brand
    then 20
    else if str_mem original_brand [ u "奥克斯"; u "美的"; u "TCL" ]
            && brands_similar original_brand candidate_brand
    then 18
    else if str_eqb original_brand candidate_brand then 15
    else if brands_similar original_brand candidate_brand then 12
    else 0
  else if negb (truthy original_brand) && truthy candidate_brand then 3
  else 0.

(** [score_match].  The score is the exact rational value of the sum
    the code computes in binary64 floating point: the two agree up to
    rounding, so bounds on the score carry over, while two candidates
    whose exact scores are equal may be ordered either way by the code. *)
Definition score_match (original_model extracted_model : pystr) (candidate : candidate) : Q :=
  let candidate_model := c_model candidate in
  let candidate_producer := c_producer candidate in
  let score := 0%Q in
  if str_eqb candidate_model original_model then 100
  else if str_eqb candidate_model extracted_model then 95
  else
    let similarity_original := calculate_similarity_score original_model candidate_model in
    let similarity_extracted := calculate_similarity_score extracted_model candidate_model in
    let max_similarity := py_max similarity_original similarity_extracted in
    let score := (score + max_similarity * 90)%Q in
    let score :=
      if str_in candidate_model original_model || str_in original_model candidate_model
      then (score + 10)%Q else score in
    let score :=
      if str_in candidate_model extracted_model || str_in extracted_model candidate_model
      then (score + 8)%Q else score in
    let original_brand := extract_brand_from_model original_model in
    let candidate_brand_from_producer := extract_brand_from_model candidate_producer in
    let candidate_brand_from_model := extract_brand_from_model candidate_model in
    let candidate_brand := str_or candidate_brand_from_producer candidate_brand_from_model in
    let score := (score + brand_bonus original_brand candidate_brand)%Q in
    let score :=
      if str_in (u "KFR") original_model && str_in (u "KFR") candidate_model
      then (score + 8)%Q else score in
    let original_power := extract_power_spec original_model in
    let candidate_power := extract_power_spec candidate_model in
    let score :=
      if truthy original_power && truthy candidate_power
         && str_eqb original_power candidate_power
      then (score + 12)%Q else score in
    let score := if truthy (c_energy_level candidate) then (score + 2)%Q else score in
    let score := if truthy (c_producer candidate) then (score + 2)%Q else score in
    let score := if truthy (c_record_number candidate) then (score + 1)%Q else score in
    py_min score 100.

End Scoring2.

(** The dictionary handed to [find_best_match]. *)
Record search_result : Type := {
  sr_search_success : bool;
  sr_energy_levels : list candidate;
  sr_extracted_model : option pystr   (* the key may be absent *)
}.

(** What [find_best_match] computes and prints on its way, in order. *)
Inductive match_event : Type :=
| ScoreComputed (c : candidate) (score : Q)   (* a call of score_match *)
| LowScoreWarning (score : Q)                 (* best_score < 30 *)
| BestMatchReport (model : pystr) (score : Q).

Section BestMatch.
Context {L : PyLib}.

(** One step of the stable sort by score, highest first: [x] goes in
    front of the first element with a strictly lower score. *)
Fixpoint insert_by_score (x : Q * candidate) (l : list (Q * candidate))
  : list (Q * candidate) :=
  match l with
  | [] => [x]
  | y :: l' => if Qlt_bool (fst y) (fst x) then x :: l else y :: insert_by_score x l'
  end.

(** [scored_candidates.sort(key=lambda x: x[0], reverse=True)] *)
Definition sort_by_score (l : list (Q * candidate)) : list (Q * candidate) :=
  fold_left (fun sorted x => insert_by_score x sorted) l [].

Definition find_best_match (search_result : search_result) (original_model : pystr)
  : option candidate * list match_event :=
  if negb (sr_search_success search_result)
     || match sr_energy_levels search_result with [] => true | _ :: _ => false end
  then (None, [])
  else
    let energy_levels := sr_energy_levels search_result in
    let extracted_model :=
      match sr_extracted_model search_result with
      | Some m => m
      | None => original_model
      end in
    match energy_levels with
    | [only] => (Some only, [])
    | _ =>
      let scored_candidates :=
        map (fun candidate => (score_match original_model extracted_model candidate, candidate))
            energy_levels in
      let computed := map (fun sc => ScoreComputed (snd sc) (fst sc)) scored_candidates in
      match sort_by_score scored_candidates with
      | (best_score, best_match) :: _ =>
        let warning :=
          if Qlt_bool best_score 30 then [ LowScoreWarning best_score ] else [] in
        (Some best_match,
         computed ++ warning ++ [ BestMatchReport (c_model best_match) best_score ])
      | [] => (None, computed)
      end
    end.

End BestMatch.

(* ===================================================================== *)
(** ** relevance_checker.py *)
(* ===================================================================== *)

Definition product_categories : list (pystr * list pystr) :=
  [ (u "空调", [ u "空调"; u "KFR"; u "KF"; u "GMV"; u "制冷"; u "变频" ]);
    (u "冰箱", [ u "冰箱"; u "BCD"; u "冷藏"; u "冷冻"; u "双门"; u "三门" ]);
    (u "洗衣机", [ u "洗衣机"; u "XQG"; u "滚筒"; u "波轮"; u "全自动" ]);
    (u "热水器", [ u "热水器"; u "JSQ"; u "JSG"; u "燃气"; u "电热" ]);
    (u "油烟机", [ u "油烟机"; u "CXW"; u "抽油烟机"; u "吸油烟机" ]);
    (u "燃气灶", [ u "燃气灶"; u "JZT"; u "JZ"; u "灶具" ]);
    (u "电视", [ u "电视"; u "液晶"; u "LED"; u "OLED"; u "智能电视" ]);
    (u "吸尘器", [ u "吸尘器"; u "除尘器"; u "清洁器" ]);
    (u "净化器", [ u "净化器"; u "空气净化"; u "除甲醛" ]);
    (u "微波炉", [ u "微波炉"; u "光波炉" ]);
    (u "电磁炉", [ u "电磁炉"; u "电陶炉" ]);
    (u "豆浆机", [ u "豆浆机"; u "破壁机" ]);
    (u "电饭煲", [ u "电饭煲"; u "电饭锅"; u "智能煲" ]);
    (u "椅子", [ u "椅"; u "座椅"; u "办公椅"; u "电脑椅"; u "转椅" ]) ].

(** The brand list of [extract_brand_info]. *)
Definition relevance_brands : list pystr :=
  [ u "格力"; u "美的"; u "海尔"; u "奥克斯"; u "志高"; u "春兰"; u "科龙";
    u "小米"; u "米家"; u "华为"; u "荣耀"; u "苹果"; u "三星"; u "索尼";
    u "海信"; u "创维"; u "TCL"; u "长虹"; u "康佳"; u "飞利浦";
    u "西门子"; u "博世"; u "松下"; u "东芝"; u "夏普"; u "LG" ].

Section Relevance.
Context {L : PyLib}.

Fixpoint first_category (categories : list (pystr * list pystr)) (model_lower : pystr)
  : pystr :=
  match categories with
  | [] => u "未知"
  | (category, keywords) :: rest =>
    if existsb (fun keyword => str_in (str_lower keyword) model_lower) keywords
    then category
    else first_category rest model_lower
  end.

Definition extract_product_category (model : pystr) : pystr :=
  let model_lower := str_lower model in
  first_category product_categories model_lower.

Definition calculate_text_similarity (text1 text2 : pystr) : Q :=
  if negb (truthy text1) || negb (truthy text2) then 0%Q
  else sm_ratio text1 text2.

(** [''.join(re.findall(r'[一-鿿]+', model))] *)
Definition extract_chinese_part (model : pystr) : pystr := filter is_cjk model.

Definition extract_brand_info (model : pystr) : pystr :=
  let model_lower := str_lower model in
  match first_brand_in relevance_brands model model_lower with
  | Some brand => brand
  | None => []
  end.

Definition is_chinese_with_number (model : pystr) : bool :=
  (* re.sub(r'[^一-鿿\w]', '', model) *)
  let clean_model := filter (fun c => is_cjk c || re_word c) model in
  let has_chinese := existsb is_cjk clean_model in
  let has_number := existsb re_digit clean_model in
  let chinese_count := length (filter is_cjk clean_model) in
  let total_count := length clean_model in
  if (total_count =? 0)%nat then false
  else
    (* chinese_count / total_count > 0.5 *)
    has_chinese && has_number
    && (Z.of_nat total_count <? 2 * Z.of_nat chinese_count).

Definition check_chinese_model_relevance (original_model matched_model : pystr) : bool :=
  let original_chinese := extract_chinese_part original_model in
  let matched_chinese := extract_chinese_part matched_model in
  let chinese_similarity := calculate_text_similarity original_chinese matched_chinese in
  if Qlt_bool chinese_similarity (3 # 10) then false else true.

(** The ordered checks of [is_relevant_match]: a check answers [Some b]
    when it returns [b], and [None] when control passes to the next. *)
Definition category_check (original_model matched_model : pystr) : option bool :=
  let original_category := extract_product_category original_model in
  let matched_category := extract_product_category matched_model in
  if negb (str_eqb original_category (u "未知"))
     && negb (str_eqb matched_category (u "未知"))
     && negb (str_eqb original_category matched_category)
  then Some false else None.

Definition chinese_model_check (original_model matched_model : pystr) : option bool :=
  if is_chinese_with_number original_model
  then Some (check_chinese_model_relevance original_model matched_model)
  else None.

Definition brand_check (original_model matched_model : pystr) : option bool :=
  let original_brand := extract_brand_info original_model in
  let matched_brand := extract_brand_info matched_model in
  if truthy original_brand && truthy matched_brand
     && negb (str_eqb original_brand matched_brand)
  then Some false else None.

Definition producer_check (original_producer matched_producer : pystr) : option bool :=
  if truthy original_producer && truthy matched_producer
     && Qlt_bool (calculate_text_similarity original_producer matched_producer) (3 # 10)
  then Some false else None.

Definition similarity_check (original_model matched_model : pystr) : option bool :=
  if Qlt_bool (calculate_text_similarity original_model matched_model) (2 # 10)
  then Some false else None.

Definition or_else (check : option bool) (next : bool) : bool :=
  match check with
  | Some b => b
  | None => next
  end.

Definition is_relevant_match (original_model matched_model
                              original_producer matched_producer : pystr) : bool :=
  or_else (category_check original_model matched_model)
  (or_else (chinese_model_check original_model matched_model)
  (or_else (brand_check original_model matched_model)
  (or_else (producer_check original_producer matched_producer)
  (or_else (similarity_check original_model matched_model)
   true)))).

End Relevance.

(* ===================================================================== *)
(** ** fast_batch_processor.py *)
(* ===================================================================== *)

(** The result of a call or of a future: a value, or an exception with
    its message [str(e)]. *)
Inductive outcome (A : Type) : Type :=
| Returned (a : A)
| Raised (msg : pystr).
Arguments Returned {A} a.
Arguments Raised {A} msg.

(** One element of [products_data]. *)
Record query : Type := {
  q_row_index : Z;
  q_model : pystr;
  q_excel_energy_level : pystr
}.

(** The result dictionary; the last four keys are not always set. *)
Record result : Type := {
  r_row_index : Z;
  r_original_model : pystr;
  r_excel_energy_level : pystr;
  r_search_success : bool;
  r_validation_result : verdict;
  r_details : pystr;
  r_thread_id : option Z;
  r_search_energy_level : option pystr;
  r_matched_model : option pystr;
  r_producer : option pystr
}.

Definition set_search_success (b : bool) (r : result) : result :=
  {| r_row_index := r_row_index r; r_original_model := r_original_model r;
     r_excel_energy_level := r_excel_energy_level r; r_search_success := b;
     r_validation_result := r_validation_result r; r_details := r_details r;
     r_thread_id := r_thread_id r; r_search_energy_level := r_search_energy_level r;
     r_matched_model := r_matched_model r; r_producer := r_producer r |}.

Definition set_validation_result (v : verdict) (r : result) : result :=
  {| r_row_index := r_row_index r; r_original_model := r_original_model r;
     r_excel_energy_level := r_excel_energy_level r;
     r_search_success := r_search_success r;
     r_validation_result := v; r_details := r_details r;
     r_thread_id := r_thread_id r; r_search_energy_level := r_search_energy_level r;
     r_matched_model := r_matched_model r; r_producer := r_producer r |}.

Definition set_details (d : pystr) (r : result) : result :=
  {| r_row_index := r_row_index r; r_original_model := r_original_model r;
     r_excel_energy_level := r_excel_energy_level r;
     r_search_success := r_search_success r;
     r_validation_result := r_validation_result r; r_details := d;
     r_thread_id := r_thread_id r; r_search_energy_level := r_search_energy_level r;
     r_matched_model := r_matched_model r; r_producer := r_producer r |}.

Definition set_match (level model producer : pystr) (r : result) : result :=
  {| r_row_index := r_row_index r; r_original_model := r_original_model r;
     r_excel_energy_level := r_excel_energy_level r;
     r_search_success := r_search_success r;
     r_validation_result := r_validation_result r; r_details := r_details r;
     r_thread_id := r_thread_id r; r_search_energy_level := Some level;
     r_matched_model := Some model; r_producer := Some producer |}.

(** [self.stats] *)
Record stats : Type := {
  total_processed : Z;
  successful : Z;
  failed : Z;
  rate_limited : Z
}.

(** The counters as [__init__] leaves them. *)
Definition initial_stats : stats :=
  {| total_processed := 0; successful := 0; failed := 0; rate_limited := 0 |}.

Definition _update_stats (success : bool) (st : stats) : stats :=
  {| total_processed := total_processed st + 1;
     successful := if success then successful st + 1 else successful st;
     failed := if success then failed st else failed st + 1;
     rate_limited := rate_limited st |}.

(** The calls made inside the [try] block of [_search_single_product]. *)
Inductive stage : Type :=
| RateLimitControl     (* self._rate_limit_control() *)
| GetCrawler           (* self._get_crawler_for_thread() *)
| ExtractModel         (* self.extractor.extract_model *)
| SearchProduct        (* crawler.search_product *)
| ExtractEnergyLevels  (* crawler.extract_energy_levels *)
| FindBestMatch        (* self.comparator.find_best_match *)
| CompareEnergyLevels. (* self.comparator.compare_energy_levels *)

(** What the surroundings do to one task: the thread that runs it, which
    of its calls raise an exception (and with which message), and what
    the registry answers to a search ([None]: the search gave up). *)
Record task_env : Type := {
  te_thread_id : Z;
  te_raises : stage -> option pystr;
  te_search_product : pystr -> option search_data
}.

(** Code of the [try] block: it reads and updates the result dictionary
    and may raise. *)
Definition worker (A : Type) : Type := result -> result * outcome A.

Definition ret {A : Type} (a : A) : worker A := fun r => (r, Returned a).

Definition bind {A B : Type} (m : worker A) (k : A -> worker B) : worker B :=
  fun r =>
    match m r with
    | (r', Returned a) => k a r'
    | (r', Raised e) => (r', Raised e)
    end.

Notation "x <- m ;; k" := (bind m (fun x => k))
  (at level 61, m at next level, right associativity).
Notation "m ;;; k" := (bind m (fun _ => k))
  (at level 61, right associativity).

(** A call of stage [s] that returns [a] unless the surroundings make it
    raise. *)
Definition call {A : Type} (env : task_env) (s : stage) (a : A) : worker A :=
  fun r =>
    match te_raises env s with
    | Some e => (r, Raised e)
    | None => (r, Returned a)
    end.

(** An update of the result dictionary. *)
Definition update (f : result -> result) : worker unit := fun r => (f r, Returned tt).

Section Worker.
Context {L : PyLib}.

(** The [try] block of [_search_single_product]. *)
Definition search_body (env : task_env) (original_model excel_energy_level : pystr)
  : worker unit :=
  call env RateLimitControl tt ;;;
  call env GetCrawler tt ;;;
  extracted_model <- call env ExtractModel (extract_model original_model) ;;
  search_result <- call env SearchProduct (te_search_product env extracted_model) ;;
  let records :=
    match search_result with
    | Some d => match sd_list d with Some l => l | None => [] end
    | None => []
    end in
  match search_result, records with
  | Some _, _ :: _ =>
    update (set_search_success true) ;;;
    energy_levels <- call env ExtractEnergyLevels (extract_energy_levels search_result) ;;
    match energy_levels with
    | _ :: _ =>
      let mock_search_result :=
        {| sr_search_success := true;
           sr_energy_levels := energy_levels;
           sr_extracted_model := Some extracted_model |} in
      best_match <- call env FindBestMatch
                         (fst (find_best_match mock_search_result original_model)) ;;
      match best_match with
      | Some best_match =>
        let search_energy_level := c_energy_level best_match in
        validation_result <-
          call env CompareEnergyLevels
               (compare_energy_levels (PyStr excel_energy_level)
                                      (PyStr search_energy_level)) ;;
        update (set_validation_result validation_result) ;;;
        update (set_match search_energy_level (c_model best_match)
                          (c_producer best_match)) ;;;
        update (set_details
          match validation_result with
          | Correct =>
            u "匹配: " ++ c_model best_match ++ u " - " ++ search_energy_level
          | Incorrect =>
            u "不匹配: Excel(" ++ excel_energy_level ++ u ") vs 搜索("
              ++ search_energy_level ++ u ")"
          | DeclaredMissing =>
            u "Excel缺失，网站显示: " ++ search_energy_level ++ u " - "
              ++ c_model best_match
          | NotFound => u "无法确定: " ++ c_model best_match
          end)
      | None =>
        update (set_details
          (u "在 " ++ str_of_int (Z.of_nat (length energy_levels))
             ++ u " 条记录中未找到匹配"))
      end
    | [] => update (set_details (u "无法提取能效等级信息"))
    end
  | _, _ => update (set_details (u "搜索无结果"))
  end.

Definition _search_single_product (env : task_env) (model_data : query) (st : stats)
  : result * stats :=
  let row_index := q_row_index model_data in
  let original_model := q_model model_data in
  let excel_energy_level := q_excel_energy_level model_data in
  let thread_id := te_thread_id env in
  let result :=
    {| r_row_index := row_index;
       r_original_model := original_model;
       r_excel_energy_level := excel_energy_level;
       r_search_success := false;
       r_validation_result := NotFound;
       r_details := [];
       r_thread_id := Some thread_id;
       r_search_energy_level := None;
       r_matched_model := None;
       r_producer := None |} in
  match search_body env original_model excel_energy_level result with
  | (result, Returned _) => (result, _update_stats (r_search_success result) st)
  | (result, Raised e) =>
    (set_details (u "处理出错: " ++ e) result, _update_stats false st)
  end.

End Worker.

Section Batch.
Context {L : PyLib}.

(** [future.result()] for the task submitted for [products_data[i]], run
    by the surroundings [envs i]. *)
Definition future_result (envs : nat -> task_env) (i : nat) (data : query) (st : stats)
  : outcome result * stats :=
  let '(result, st') := _search_single_product (envs i) data st in
  (Returned result, st').

(** The loop over [as_completed(future_to_data)]: [completed] lists the
    positions of the submitted tasks in the order in which they finish. *)
Fixpoint collect_results (envs : nat -> task_env) (products_data : list query)
         (completed : list nat) (results : list result) (st : stats)
  : list result * stats :=
  match completed with
  | [] => (results, st)
  | i :: rest =>
    match nth_error products_data i with
    | None => collect_results envs products_data rest results st
    | Some data =>
      match future_result envs i data st with
      | (Returned result, st') =>
        collect_results envs products_data rest (results ++ [result]) st'
      | (Raised e, st') =>
        let error_result :=
          {| r_row_index := q_row_index data;
             r_original_model := q_model data;
             r_excel_energy_level := q_excel_energy_level data;
             r_search_success := false;
             r_validation_result := NotFound;
             r_details := u "任务执行失败: " ++ e;
             r_thread_id := None;
             r_search_energy_level := None;
             r_matched_model := None;
             r_producer := None |} in
        collect_results envs products_data rest (results ++ [error_result]) st'
      end
    end
  end.

(** One step of the stable sort by row index: [x] goes behind the
    elements whose row index is not greater. *)
Fixpoint insert_by_row_index (x : result) (l : list result) : list result :=
  match l with
  | [] => [x]
  | y :: l' =>
    if r_row_index x <? r_row_index y then x :: l
    else y :: insert_by_row_index x l'
  end.

(** [results.sort(key=lambda x: x['row_index'])] *)
Definition sort_by_row_index (l : list result) : list result :=
  fold_left (fun sorted x => insert_by_row_index x sorted) l [].

(** [_print_final_stats]: the report divides by [total] and then by
    [elapsed], the time since the batch started. *)
Definition _print_final_stats (st : stats) (elapsed : Q) : outcome unit :=
  let total := total_processed st in
  if total =? 0 then Raised (u "division by zero")
  else if Qeq_bool elapsed 0 then Raised (u "float division by zero")
  else Returned tt.

(** [process_batch] of a processor with [max_workers] workers and the
    counters [st]; the surroundings fix the behaviour of every task, the
    order of completion and the elapsed time. *)
Definition process_batch (max_workers : Z) (st : stats)
           (envs : nat -> task_env) (completed : list nat) (elapsed : Q)
           (products_data : list query) : outcome (list result) :=
  (* ThreadPoolExecutor(max_workers=...) *)
  if max_workers <=? 0 then Raised (u "max_workers must be greater than 0")
  else
    let '(results, st') := collect_results envs products_data completed [] st in
    let results := sort_by_row_index results in
    match _print_final_stats st' elapsed with
    | Raised e => Raised e
    | Returned _ => Returned results
    end.

(** The result the worker function builds for the query [q] in the
    surroundings [env]. *)
Definition task_result (env : task_env) (q : query) : result :=
  fst (_search_single_product env q initial_stats).

(** One result per query, in the order of submission. *)
Definition results_in_order (envs : nat -> task_env) (products_data : list query)
  : list result :=
  map (fun '(i, q) => task_result (envs i) q)
      (combine (seq 0 (length products_data)) products_data).

(** The search for the query gives up or returns no record. *)
Definition search_fails (env : task_env) (q : query) : Prop :=
  match te_search_product env (extract_model (q_model q)) with
  | None => True
  | Some d =>
    match sd_list d with
    | None | Some [] => True
    | Some (_ :: _) => False
    end
  end.

(** One of the calls of the task raises an exception. *)
Definition stage_raises (env : task_env) : Prop :=
  exists s e, te_raises env s = Some e.

(* ===================================================================== *)
(** ** main_fast.py and relevance_checker.py: the relevance pass *)
(* ===================================================================== *)

(** The body of the loop of [_perform_relevance_check] for one result. *)
Definition recheck_result (res : result) : result :=
  if verdict_eqb (r_validation_result res) Incorrect then
    let original_model := r_original_model res in
    let matched_model :=
      match r_matched_model res with Some m => m | None => [] end in
    let is_relevant := is_relevant_match original_model matched_model [] [] in
    if negb is_relevant then
      set_details (u "产品不相关，判定为搜索无效: " ++ original_model)
                  (set_validation_result NotFound res)
    else res
  else res.

Definition _perform_relevance_check (results : list result) : list result :=
  let error_count :=
    length (filter (fun r => verdict_eqb (r_validation_result r) Incorrect) results) in
  if (error_count =? 0)%nat then results
  else map recheck_result results.







End Batch.

(* ===================================================================== *)
(** ** The runtime tables on ASCII and CJK text *)
(* ===================================================================== *)

Fixpoint common_prefix_len (a b : pystr) : nat :=
  match a, b with
  | x :: a', y :: b' => if x =? y then S (common_prefix_len a' b') else O
  | _, _ => O
  end.

(** The longest block of [b] equal to a prefix of [a]: its position and
    size, the leftmost one among the longest. *)
Fixpoint best_in_b (a b : pystr) (j : nat) (best : nat * nat) : nat * nat :=
  match b with
  | [] => best
  | _ :: b' =>
    let k := common_prefix_len a b in
    best_in_b a b' (S j) (if (snd best <? k)%nat then (j, k) else best)
  end.

(** [find_longest_match]: the longest block common to [a] and [b], the
    one that starts earliest in [a], then earliest in [b]. *)
Fixpoint find_longest_match (a b : pystr) (i : nat) (best : nat * nat * nat)
  : nat * nat * nat :=
  match a with
  | [] => best
  | _ :: a' =>
    let '(j, k) := best_in_b a b 0 (O, O) in
    find_longest_match a' b (S i)
      (if (snd best <? k)%nat then (i, j, k) else best)
  end.

(** The sum of the sizes of [get_matching_blocks]: the longest block,
    then the same to its left and to its right. *)
Fixpoint matching_total (fuel : nat) (a b : pystr) : nat :=
  match fuel with
  | O => O
  | S fuel' =>
    let '(i, j, k) := find_longest_match a b 0 (O, O, O) in
    if (k =? 0)%nat then O
    else (k + matching_total fuel' (firstn i a) (firstn j b)
            + matching_total fuel' (skipn (i + k) a) (skipn (j + k) b))%nat
  end.

(** The tables of CPython restricted to ASCII and CJK text, and the block
    matcher of [difflib] without its junk heuristic (which sets in at 200
    elements). *)
#[export] Instance ascii_lib : PyLib := {|
  re_word := fun c => is_ascii_alpha c || is_ascii_digit c || (c =? 95) || is_cjk c;
  re_digit := is_ascii_digit;
  re_ci := fun p c => ascii_lower p =? ascii_lower c;
  str_lower := map ascii_lower;
  sm_matches := fun a b => matching_total (S (length a)) a b;
  str_lower_plain := fun s _ => eq_refl
|}.

(* ===================================================================== *)
(** ** Notions used in the statements *)
(* ===================================================================== *)

(** The text is empty or does not begin with white space. *)
Definition left_trimmed (s : pystr) : Prop :=
  match s with
  | [] => True
  | c :: _ => is_space c = false
  end.

(** Every record of a group carries the model the group is filed under. *)
Definition group_members_ok (g : pystr * (candidate * list candidate)) : Prop :=
  let '(model, (first, rest)) := g in
  c_model first = model /\ Forall (fun r => c_model r = model) rest.

(** Text made of ASCII characters and CJK ideographs. *)
Definition plain (s : pystr) : bool := forallb plain_char s.

(** What the pass may do to one result: leave it as it is, or turn an
    '错误' into a '搜不到' with a new detail text. *)
Definition result_rechecked (r r' : result) : Prop :=
  r' = r
  \/ (r_validation_result r = Incorrect
      /\ exists d, r' = set_details d (set_validation_result NotFound r)).


(** The order of the results by row index. *)
Definition row_le (a b : result) : Prop := r_row_index a <= r_row_index b.

Definition row_lt (a b : result) : Prop := r_row_index a < r_row_index b.


(** Surroundings in which no call raises and every search gives up. *)
Definition no_network : task_env :=
  {| te_thread_id := 1;
     te_raises := fun _ => None;
     te_search_product := fun _ => None |}.

(** The query of a spreadsheet row. *)
Definition query_of (row : Z) (model level : string) : query :=
  {| q_row_index := row; q_model := u model; q_excel_energy_level := u level |}.

(** Surroundings in which the call of [search_product] raises. *)
Definition search_raises : task_env :=
  {| te_thread_id := 2;
     te_raises := fun s => match s with
                           | SearchProduct => Some (u "connection reset")
                           | _ => None
                           end;
     te_search_product := fun _ => None |}.

Section Statements.
Context {L : PyLib}.


(** The results appended by the loop over the completed futures. *)
Definition collected (envs : nat -> task_env) (products_data : list query)
           (completed : list nat) : list result :=
  flat_map (fun i => match nth_error products_data i with
                     | Some q => [task_result (envs i) q]
                     | None => []
                     end) completed.

End Statements.

(* ===================================================================== *)
(** ** model_extractor.py: the remaining functions *)
(* ===================================================================== *)

(** The dictionary returned by [get_extraction_info]. *)
Record extraction_info : Type := {
  ei_original : pystr;
  ei_extracted : pystr;
  ei_removed_prefix : pystr;
  ei_removed_suffix : pystr;
  ei_changed : bool
}.

Section ModelExtractorMore.
Context {L : PyLib}.

Definition batch_extract (models : list pystr) : list pystr :=
  map extract_model models.

Definition get_extraction_info (original_model : pystr) : extraction_info :=
  let nothing_extracted :=
    {| ei_original := original_model; ei_extracted := [];
       ei_removed_prefix := []; ei_removed_suffix := []; ei_changed := false |} in
  if negb (truthy original_model) then nothing_extracted
  else
    let model := strip original_model in
    if negb (truthy model) then nothing_extracted
    else
      let all_chinese :=
        {| ei_original := original_model; ei_extracted := model;
           ei_removed_prefix := []; ei_removed_suffix := []; ei_changed := false |} in
      match first_non_chinese model 0 with
      | None => all_chinese
      | Some start_pos =>
        match first_non_chinese (rev model) 0 with
        | None => all_chinese
        | Some k =>
          let end_pos := (length model - k)%nat in
          let removed_prefix := firstn start_pos model in
          let extracted := slice model start_pos end_pos in
          let removed_suffix := skipn end_pos model in
          let final_extracted := if truthy extracted then strip extracted else model in
          let changed := truthy removed_prefix || truthy removed_suffix in
          {| ei_original := original_model; ei_extracted := final_extracted;
             ei_removed_prefix := removed_prefix; ei_removed_suffix := removed_suffix;
             ei_changed := changed |}
        end
      end.

End ModelExtractorMore.

(* ===================================================================== *)
(** ** anti_crawler.py: the retry loop of [search_product] *)
(* ===================================================================== *)

(** What one request of [search_product] meets. *)
Inductive response : Type :=
| RespData (d : search_data)   (* status 200, code 200: data['data'] *)
| RespApiError (msg : pystr)   (* status 200, another code, with its msg *)
| RespBadJson                  (* status 200, json.JSONDecodeError *)
| RespStatus (code : Z)        (* a status other than 200 *)
| RespTimeout                  (* requests.exceptions.Timeout *)
| RespConnectionError          (* requests.exceptions.ConnectionError *)
| RespException.               (* any other exception *)

(** How an attempt ends: with [return], or with [continue]. *)
Inductive attempt_end : Type :=
| Return (r : option search_data)
| Continue.

Section SearchProduct.
Context {L : PyLib}.

(** The body of the loop for the attempt number [attempt]. *)
Definition search_attempt (resp : response) (attempt max_retries : nat) : attempt_end :=
  let last_attempt := negb (attempt + 1 <? max_retries)%nat in
  match resp with
  | RespData d => Return (Some d)
  | RespApiError error_msg =>
    let lower := str_lower error_msg in
    if str_in (u "token") lower || str_in (u "auth") lower then Continue
    else if str_in (u "limit") lower || str_in (u "frequent") lower then Continue
    else Return None
  | RespBadJson => if last_attempt then Return None else Continue
  | RespStatus code =>
    if code =? 429 then Continue
    else if (code =? 403) || (code =? 401) then Continue
    else if last_attempt then Return None else Continue
  | RespTimeout | RespConnectionError | RespException =>
    if last_attempt then Return None else Continue
  end.

(** [for attempt in range(max_retries)], from [attempt] on, with
    [remaining] attempts left; the second component counts the requests
    sent. *)
Fixpoint search_loop (responses : nat -> response) (max_retries attempt remaining : nat)
  : option search_data * nat :=
  match remaining with
  | O => (None, O)
  | S remaining' =>
    match search_attempt (responses attempt) attempt max_retries with
    | Return r => (r, 1%nat)
    | Continue =>
      let '(r, n) := search_loop responses max_retries (S attempt) remaining' in
      (r, S n)
    end
  end.

(** [search_product(model, max_retries=...)] against a registry that
    answers the request number [i] with [responses i]. *)
Definition search_product (responses : nat -> response) (max_retries : nat)
  : option search_data * nat :=
  search_loop responses max_retries 0 max_retries.

End SearchProduct.

(* ===================================================================== *)
(** ** result_comparator.py: the remaining functions *)
(* ===================================================================== *)

Definition brand_normalization : list (pystr * pystr) :=
  [ (u "GREE", u "格力"); (u "gree", u "格力");
    (u "珠海格力", u "格力"); (u "格力电器", u "格力");
    (u "MIDEA", u "美的"); (u "midea", u "美的");
    (u "美的集团", u "美的"); (u "美的电器", u "美的");
    (u "HAIER", u "海尔"); (u "haier", u "海尔");
    (u "海尔集团", u "海尔"); (u "青岛海尔", u "海尔");
    (u "AUX", u "奥克斯"); (u "aux", u "奥克斯");
    (u "CHIGO", u "志高"); (u "chigo", u "志高");
    (u "HISENSE", u "海信"); (u "hisense", u "海信");
    (u "SAMSUNG", u "三星"); (u "samsung", u "三星");
    (u "PANASONIC", u "松下"); (u "panasonic", u "松下") ].

Definition normalize_brand_name (brand : pystr) : pystr :=
  if negb (truthy brand) then []
  else
    match dict_get brand brand_normalization with
    | Some b => b
    | None => brand
    end.

(** The search result handed to [validate_single_product]: the
    dictionary read by [find_best_match], and its optional key
    ['error_message']. *)
Record validation_input : Type := {
  vi_search_result : search_result;
  vi_error_message : option pystr
}.

(** The dictionary built by [validate_single_product]; ['row_index'] is
    added by [batch_validate]. *)
Record validation : Type := {
  v_original_model : pystr;
  v_excel_energy_level : pystr;
  v_search_success : bool;
  v_found_records : nat;
  v_matched_record : option candidate;
  v_search_energy_level : option pystr;
  v_validation_result : verdict;
  v_details : pystr;
  v_row_index : option Z
}.

(** The counters of [get_validation_statistics]: 总数, 正确, 错误, 搜不到,
    搜索成功, 搜索失败, 找到记录. *)
Record validation_statistics : Type := {
  vs_total : Z;
  vs_correct : Z;
  vs_incorrect : Z;
  vs_not_found : Z;
  vs_search_succeeded : Z;
  vs_search_failed : Z;
  vs_records_found : Z
}.

Section ComparatorMore.
Context {L : PyLib}.

Definition validate_single_product (original_model excel_energy_level : pystr)
           (input : validation_input) : validation :=
  let search_result := vi_search_result input in
  let result (matched : option candidate) (level : option pystr)
             (v : verdict) (details : pystr) :=
    {| v_original_model := original_model;
       v_excel_energy_level := excel_energy_level;
       v_search_success := sr_search_success search_result;
       v_found_records := length (sr_energy_levels search_result);
       v_matched_record := matched;
       v_search_energy_level := level;
       v_validation_result := v;
       v_details := details;
       v_row_index := None |} in
  if negb (sr_search_success search_result) then
    result None None NotFound
           (u "搜索失败: " ++ match vi_error_message input with
                              | Some e => e
                              | None => u "未知错误"
                              end)
  else
    match sr_energy_levels search_result with
    | [] => result None None NotFound (u "未找到匹配的产品记录")
    | _ :: _ =>
      match fst (find_best_match search_result original_model) with
      | Some best_match =>
        let level := c_energy_level best_match in
        let validation_result :=
          compare_energy_levels (PyStr excel_energy_level) (PyStr level) in
        result (Some best_match) (Some level) validation_result
          match validation_result with
          | Correct => u "匹配成功: " ++ c_model best_match ++ u " - " ++ level
          | Incorrect =>
            u "等级不匹配: Excel(" ++ excel_energy_level ++ u ") vs 搜索(" ++ level
              ++ u ") - " ++ c_model best_match
          | DeclaredMissing =>
            u "Excel缺失能效等级，网站显示: " ++ level ++ u " - " ++ c_model best_match
          | NotFound => u "无法确定等级: " ++ c_model best_match
          end
      | None =>
        result None None NotFound
               (u "在 " ++ str_of_int (Z.of_nat (length (sr_energy_levels search_result)))
                  ++ u " 条记录中未找到匹配项")
      end
    end.

Definition set_row_index (row_index : Z) (v : validation) : validation :=
  {| v_original_model := v_original_model v;
     v_excel_energy_level := v_excel_energy_level v;
     v_search_success := v_search_success v;
     v_found_records := v_found_records v;
     v_matched_record := v_matched_record v;
     v_search_energy_level := v_search_energy_level v;
     v_validation_result := v_validation_result v;
     v_details := v_details v;
     v_row_index := Some row_index |}.

Definition batch_validate (products_data : list query) (search_results : list validation_input)
  : outcome (list validation) :=
  if negb (length products_data =? length search_results)%nat
  then Raised (u "产品数据和搜索结果数量不匹配")
  else
    Returned
      (map (fun '(data, search_result) =>
              set_row_index (q_row_index data)
                (validate_single_product (q_model data) (q_excel_energy_level data)
                                         search_result))
           (combine products_data search_results)).

(** One turn of the loop of [get_validation_statistics]:
    [stats[validation_result] += 1] finds no counter for 'Excel缺失'. *)
Definition count_validation (stats : validation_statistics) (result : validation)
  : outcome validation_statistics :=
  let counted (correct incorrect not_found : Z) :=
    {| vs_total := vs_total stats;
       vs_correct := vs_correct stats + correct;
       vs_incorrect := vs_incorrect stats + incorrect;
       vs_not_found := vs_not_found stats + not_found;
       vs_search_succeeded :=
         if v_search_success result then vs_search_succeeded stats + 1
         else vs_search_succeeded stats;
       vs_search_failed :=
         if v_search_success result then vs_search_failed stats
         else vs_search_failed stats + 1;
       vs_records_found :=
         if v_search_success result && (0 <? v_found_records result)%nat
         then vs_records_found stats + 1 else vs_records_found stats |} in
  match v_validation_result result with
  | Correct => Returned (counted 1 0 0)
  | Incorrect => Returned (counted 0 1 0)
  | NotFound => Returned (counted 0 0 1)
  | DeclaredMissing => Raised (u "'Excel缺失'")
  end.

Fixpoint count_validations (stats : validation_statistics) (results : list validation)
  : outcome validation_statistics :=
  match results with
  | [] => Returned stats
  | result :: rest =>
    match count_validation stats result with
    | Returned stats' => count_validations stats' rest
    | Raised e => Raised e
    end
  end.

Definition get_validation_statistics (validation_results : list validation)
  : outcome validation_statistics :=
  count_validations
    {| vs_total := Z.of_nat (length validation_results);
       vs_correct := 0; vs_incorrect := 0; vs_not_found := 0;
       vs_search_succeeded := 0; vs_search_failed := 0; vs_records_found := 0 |}
    validation_results.

End ComparatorMore.

(* ===================================================================== *)
(** ** main_fast.py: what is saved and reported *)
(* ===================================================================== *)

(** The text [_save_results] writes into the sheet for one result. *)
Definition final_result (res : result) : pystr :=
  let validation_result := verdict_text (r_validation_result res) in
  let details := r_details res in
  if truthy details && (length details <? 80)%nat
  then validation_result ++ u " - " ++ details
  else if truthy details
  then validation_result ++ u " - " ++ firstn 77 details ++ u "..."
  else validation_result.

(** [sum(1 for r in results if r['validation_result'] == v)] *)
Definition count_verdict (v : verdict) (results : list result) : nat :=
  length (filter (fun r => verdict_eqb (r_validation_result r) v) results).

(* ===================================================================== *)
(** ** excel_handler.py *)
(* ===================================================================== *)

(** A row of the sheet: the cells 产品型号 and 能耗级别 as read by
    pandas ([PyNone] is an empty cell), and the cell 验证结果. *)
Record sheet_row : Type := {
  cell_model : pyval;
  cell_energy_level : pyval;
  cell_result : pystr
}.

(** [self.df]: the rows with their index labels, or [None] before
    [load_data]. *)
Definition sheet := list (Z * sheet_row).

(** [str(cell).strip() if pd.notna(cell) else ''] *)
Definition cell_text (cell : pyval) : pystr :=
  match cell with
  | PyNone => []
  | PyStr s => strip s
  | PyInt n => strip (str_of_int n)
  | PyFloat repr => strip repr
  end.

Definition get_product_data (df : option sheet) : list query :=
  match df with
  | None => []
  | Some rows =>
    flat_map
      (fun '(index, row) =>
         let model := cell_text (cell_model row) in
         let energy_level := cell_text (cell_energy_level row) in
         if truthy model
         then [ {| q_row_index := index; q_model := model;
                   q_excel_energy_level := energy_level |} ]
         else [])
      rows
  end.

(** The dictionary of [get_statistics]: 总数, 正确, 错误, 搜不到, 未处理. *)
Record sheet_statistics : Type := {
  ss_total : nat;
  ss_correct : nat;
  ss_incorrect : nat;
  ss_not_found : nat;
  ss_unprocessed : nat
}.

(** [len(self.df[self.df['验证结果'] == text])] *)
Definition count_cells (text : pystr) (rows : sheet) : nat :=
  length (filter (fun x => str_eqb (cell_result (snd x)) text) rows).

(** [get_statistics]; [None] is the empty dictionary. *)
Definition get_statistics (df : option sheet) : option sheet_statistics :=
  match df with
  | None => None
  | Some rows =>
    Some {| ss_total := length rows;
            ss_correct := count_cells (u "正确") rows;
            ss_incorrect := count_cells (u "错误") rows;
            ss_not_found := count_cells (u "搜不到") rows;
            ss_unprocessed := count_cells (u "") rows |}
  end.

(** The sheet has a row with the label. *)
Definition has_label (label : Z) (rows : sheet) : bool :=
  existsb (fun x => fst x =? label) rows.

(** The row [df.at] adds for a label the sheet does not have: its other
    cells are empty. *)
Definition new_row (text : pystr) : sheet_row :=
  {| cell_model := PyNone; cell_energy_level := PyNone; cell_result := text |}.

(** [update_result(row_index, result)] on a loaded sheet:
    [self.df.at[row_index, '验证结果'] = result] sets the cell of the rows
    with that label, and appends a row when the sheet has none. *)
Definition update_result (row_index : Z) (text : pystr) (rows : sheet) : sheet :=
  if has_label row_index rows then
    map (fun '(label, row) =>
           if label =? row_index
           then (label, {| cell_model := cell_model row;
                           cell_energy_level := cell_energy_level row;
                           cell_result := text |})
           else (label, row))
        rows
  else rows ++ [(row_index, new_row text)].

(** The row after results have been written into it one after the
    other: the last result with the label of the row decides. *)
Definition written_row (results : list result) (label : Z) (row : sheet_row) : sheet_row :=
  match find (fun res => r_row_index res =? label) (rev results) with
  | Some res => {| cell_model := cell_model row;
                   cell_energy_level := cell_energy_level row;
                   cell_result := final_result res |}
  | None => row
  end.

(** The loop of [_save_results]: every result is written into the row
    of its row index. *)
Definition _save_results (results : list result) (rows : sheet) : sheet :=
  fold_left (fun rows res => update_result (r_row_index res) (final_result res) rows)
            results rows.

(** The models of a list, each at its first occurrence. *)
Fixpoint first_occurrences (models : list pystr) : list pystr :=
  match models with
  | [] => []
  | m :: rest => m :: filter (fun x => negb (str_eqb x m)) (first_occurrences rest)
  end.

(* ===================================================================== *)
(** ** main_fast.py: the run *)
(* ===================================================================== *)

(** [_print_validation_report]: the report divides by the number of
    results. *)
Definition _print_validation_report (results : list result) : outcome unit :=
  let total := length results in
  if (total =? 0)%nat then Raised (u "division by zero") else Returned tt.

(** [l[:n]] for an integer [n]; a negative [n] counts from the end. *)
Definition py_prefix {A : Type} (n : Z) (l : list A) : list A :=
  if n <? 0 then firstn (length l - Z.to_nat (- n)) l
  else firstn (Z.to_nat n) l.

(** The local [products_data] of [run_fast_validation]. *)
Definition selected_products (rows : sheet) (max_count : option Z) : list query :=
  let products_data := get_product_data (Some rows) in
  match max_count with
  | Some n => if n =? 0 then products_data else py_prefix n products_data
  | None => products_data
  end.

Section Run.
Context {L : PyLib}.

(** [run_fast_validation] once [load_data] has loaded the sheet [rows]:
    the value returned (or the exception that leaves the function) and
    the sheet of the handler afterwards.  The surroundings fix the
    behaviour of the tasks, the order of completion, the elapsed time of
    the batch and whether the file could be written ([saved]). *)
Definition run_fast_validation (rows : sheet) (max_count : option Z) (max_workers : Z)
           (envs : nat -> task_env) (completed : list nat) (elapsed : Q)
           (saved : bool) : outcome bool * sheet :=
  let products_data := selected_products rows max_count in
  match process_batch max_workers initial_stats envs completed elapsed products_data with
  | Raised _ => (Returned false, rows)
  | Returned results =>
    let results := _perform_relevance_check results in
    let rows' := _save_results results rows in
    if saved then
      match _print_validation_report results with
      | Raised e => (Raised e, rows')
      | Returned _ => (Returned true, rows')
      end
    else (Returned false, rows')
  end.

End Run.

(** A record of the registry, and surroundings in which no call raises
    and every search returns the given records, for the runs below. *)
Definition registry_record (model : string) (level : Z) (producer time : string)
  : raw_record :=
  {| productModel := u model; nxLever := JInt level; producerName := u producer;
     registrationNumber := []; productType := []; announcementTime := u time |}.

Definition registry (records : list raw_record) : task_env :=
  {| te_thread_id := 1;
     te_raises := fun _ => None;
     te_search_product := fun _ => Some {| sd_list := Some records |} |}.

(* ===================================================================== *)
(** * Properties *)
(* ===================================================================== *)

Unset Implicit Arguments.

(** ** Strings *)

Lemma str_eqb_eq (a b : pystr) : str_eqb a b = true <-> a = b.
Proof.
  revert b; induction a as [|x a IH]; intros [|y b]; simpl; split; intro H;
    try discriminate; try reflexivity.
  - apply andb_true_iff in H as [Hx Hab].
    apply Z.eqb_eq in Hx. apply IH in Hab. congruence.
  - injection H as -> ->. rewrite Z.eqb_refl. simpl. now apply IH.
Qed.

Lemma str_eqb_refl (a : pystr) : str_eqb a a = true.
Proof. now apply str_eqb_eq. Qed.

Lemma str_eqb_neq (a b : pystr) : str_eqb a b = false <-> a <> b.
Proof.
  split.
  - intros H E. apply str_eqb_eq in E. congruence.
  - intros H. destruct (str_eqb a b) eqn:E; [|reflexivity].
    apply str_eqb_eq in E. contradiction.
Qed.

Lemma str_eqb_sym (a b : pystr) : str_eqb a b = str_eqb b a.
Proof.
  destruct (str_eqb a b) eqn:E.
  - apply str_eqb_eq in E. subst. now rewrite str_eqb_refl.
  - symmetry. apply str_eqb_neq. apply str_eqb_neq in E. congruence.
Qed.

(** ** The verdict decider *)

Section ComparatorFacts.
Context {L : PyLib}.

Lemma level_mapping_canonical (k v : pystr) :
  dict_get k level_mapping = Some (Some v) -> In v canonical_grades.
Proof.
  unfold level_mapping, canonical_grades. cbn [dict_get In].
  repeat match goal with
         | |- context [if str_eqb k ?x then _ else _] => destruct (str_eqb k x)
         end;
    intro H; inversion H; subst; auto 10.
Qed.

Lemma canonical_grade_truthy (g : pystr) : In g canonical_grades -> truthy g = true.
Proof.
  unfold canonical_grades. cbn [In].
  intros [H|[H|[H|[H|[H|[]]]]]]; subst; reflexivity.
Qed.

Lemma normalize_energy_level_canonical (level : pyval) (g : pystr) :
  normalize_energy_level level = Some g -> In g canonical_grades.
Proof.
  destruct level as [|s|n|f]; unfold normalize_energy_level; try discriminate.
  destruct (truthy s); cbn [negb]; try discriminate.
  destruct (dict_get _ level_mapping) as [[v|]|] eqn:E; try discriminate.
  intros H. injection H as <-. eapply level_mapping_canonical; eauto.
Qed.

(** The verdict as the decision table gives it on the normalised grades. *)
Lemma compare_energy_levels_table (excel_level search_level : pyval) :
  compare_energy_levels excel_level search_level =
  match normalize_energy_level search_level, normalize_energy_level excel_level with
  | None, _ => NotFound
  | Some _, None => DeclaredMissing
  | Some gs, Some ge => if str_eq_dec ge gs then Correct else Incorrect
  end.
Proof.
  unfold compare_energy_levels.
  destruct (normalize_energy_level search_level) as [gs|] eqn:Es; simpl; [|reflexivity].
  rewrite (canonical_grade_truthy _ (normalize_energy_level_canonical _ _ Es)). simpl.
  destruct (normalize_energy_level excel_level) as [ge|] eqn:Ee; simpl; [|reflexivity].
  rewrite (canonical_grade_truthy _ (normalize_energy_level_canonical _ _ Ee)). simpl.
  destruct (str_eq_dec ge gs) as [->|Hne].
  - now rewrite str_eqb_refl.
  - apply str_eqb_neq in Hne. now rewrite Hne.
Qed.

(** A text whose cleaned form is a key of the table with a grade
    normalises to that grade. *)
Lemma normalize_energy_level_key (s k g : pystr) :
  In (k, Some g) level_mapping ->
  remove_extra_chars (strip s) = k ->
  normalize_energy_level (PyStr s) = Some g.
Proof.
  intros Hin Hk. unfold normalize_energy_level.
  destruct s as [|c s].
  - exfalso. cbn in Hk. subst k. unfold level_mapping in Hin. cbn [In] in Hin.
    repeat (destruct Hin as [Hin|Hin]; [vm_compute in Hin; discriminate Hin|]).
    exact Hin.
  - cbn [truthy negb]. cbv zeta. rewrite Hk.
    unfold level_mapping in Hin. cbn [In] in Hin.
    repeat (destruct Hin as [Hin|Hin];
            [first [ discriminate Hin
                   | injection Hin as <- <-; vm_compute; reflexivity ]|]).
    destruct Hin.
Qed.

Lemma remove_extra_chars_cjk (s : pystr) :
  forallb is_cjk s = true -> remove_extra_chars s = s.
Proof.
  unfold remove_extra_chars. induction s as [|c s IH]; [reflexivity|].
  cbn [forallb filter]. intros H. apply andb_true_iff in H as [Hc Hs].
  rewrite Hc, orb_true_r. f_equal. now apply IH.
Qed.

(** Every canonical grade normalises to itself. *)
Lemma normalize_energy_level_grade (g : pystr) :
  In g canonical_grades -> normalize_energy_level (PyStr g) = Some g.
Proof.
  intros Hg. apply (normalize_energy_level_key g g g).
  - unfold canonical_grades in Hg. cbn [In] in Hg.
    destruct Hg as [<-|[<-|[<-|[<-|[<-|[]]]]]]; unfold level_mapping; cbn [In]; auto 30.
  - unfold canonical_grades in Hg. cbn [In] in Hg.
    destruct Hg as [<-|[<-|[<-|[<-|[<-|[]]]]]];
      (etransitivity; [|apply remove_extra_chars_cjk; reflexivity]);
      f_equal; reflexivity.
Qed.

(** C1. [compare_energy_levels] follows the decision table on the
    normalised grades: a candidate level that does not normalise gives
    '搜不到'; otherwise a declared level that does not normalise gives
    'Excel缺失'; otherwise '正确' for equal grades and '错误' for different
    ones.  A level normalises only to one of the five canonical grades,
    and [None], a number, the empty string and every text whose cleaned
    form is not a key of the table normalise to none.  Every row of the
    table is reached: a text whose cleaned form is a key of the table
    normalises to the grade of the key, the five grades normalise to
    themselves, and on them the verdicts '正确', '错误' and 'Excel缺失'
    are produced as the table says. *)
Theorem compare_energy_levels_decision_table :
  (forall excel_level search_level : pyval,
      compare_energy_levels excel_level search_level =
      match normalize_energy_level search_level, normalize_energy_level excel_level with
      | None, _ => NotFound
      | Some _, None => DeclaredMissing
      | Some gs, Some ge => if str_eq_dec ge gs then Correct else Incorrect
      end)
  /\ (forall level g, normalize_energy_level level = Some g -> In g canonical_grades)
  /\ normalize_energy_level PyNone = None
  /\ normalize_energy_level (PyStr []) = None
  /\ (forall n, normalize_energy_level (PyInt n) = None)
  /\ (forall s, dict_get (remove_extra_chars (strip s)) level_mapping = None ->
                normalize_energy_level (PyStr s) = None)
  /\ (forall f, normalize_energy_level (PyFloat f) = None)
  /\ (forall s k g, In (k, Some g) level_mapping ->
                    remove_extra_chars (strip s) = k ->
                    normalize_energy_level (PyStr s) = Some g)
  /\ (forall g, In g canonical_grades -> normalize_energy_level (PyStr g) = Some g)
  /\ (forall ge gs, In ge canonical_grades -> In gs canonical_grades ->
         compare_energy_levels (PyStr ge) (PyStr gs)
         = if str_eq_dec ge gs then Correct else Incorrect)
  /\ (forall excel_level gs,
         normalize_energy_level excel_level = None -> In gs canonical_grades ->
         compare_energy_levels excel_level (PyStr gs) = DeclaredMissing)
  /\ (forall excel_level search_level,
         normalize_energy_level search_level = None ->
         compare_energy_levels excel_level search_level = NotFound).
Proof.
  repeat match goal with |- _ /\ _ => split end.
  - apply compare_energy_levels_table.
  - apply normalize_energy_level_canonical.
  - reflexivity.
  - reflexivity.
  - reflexivity.
  - intros s H. unfold normalize_energy_level.
    destruct (truthy s); cbn [negb]; [|reflexivity]. now rewrite H.
  - reflexivity.
  - apply normalize_energy_level_key.
  - apply normalize_energy_level_grade.
  - intros ge gs He Hs.
    now rewrite compare_energy_levels_table,
      (normalize_energy_level_grade _ He), (normalize_energy_level_grade _ Hs).
  - intros excel_level gs He Hs.
    now rewrite compare_energy_levels_table, He, (normalize_energy_level_grade _ Hs).
  - intros excel_level search_level Hs.
    now rewrite compare_energy_levels_table, Hs.
Qed.

End ComparatorFacts.

Lemma compare_energy_levels_decision_table_witness :
  normalize_energy_level (PyStr (u " 1级 ")) = Some (u "一级")
  /\ normalize_energy_level (PyStr (u "IV")) = Some (u "四级")
  /\ compare_energy_levels (PyStr (u " 1级 ")) (PyStr (u "I")) = Correct
  /\ compare_energy_levels (PyStr (u "2")) (PyStr (u "三级")) = Incorrect
  /\ compare_energy_levels (PyStr (u "N/A")) (PyStr (u "5")) = DeclaredMissing
  /\ compare_energy_levels (PyFloat (u "1.0")) (PyStr (u "一级")) = DeclaredMissing
  /\ compare_energy_levels (PyStr (u "一级")) (PyStr (u "6")) = NotFound.
Proof.
  destruct (compare_energy_levels_decision_table (L := ascii_lib))
    as (Htable & _ & _ & _ & _ & Hnone & Hfloat & Hkey & _ & _ & Hmissing & Hnotfound).
  assert (H1 : normalize_energy_level (PyStr (u " 1级 ")) = Some (u "一级")).
  { apply (Hkey (u " 1级 ") (u "1级") (u "一级")); [|reflexivity].
    unfold level_mapping. cbn [In]. auto 30. }
  assert (H4 : normalize_energy_level (PyStr (u "IV")) = Some (u "四级")).
  { apply (Hkey (u "IV") (u "IV") (u "四级")); [|reflexivity].
    unfold level_mapping. cbn [In]. auto 30. }
  assert (HI : normalize_energy_level (PyStr (u "I")) = Some (u "一级")).
  { apply (Hkey (u "I") (u "I") (u "一级")); [|reflexivity].
    unfold level_mapping. cbn [In]. auto 30. }
  assert (H2 : normalize_energy_level (PyStr (u "2")) = Some (u "二级")).
  { apply (Hkey (u "2") (u "2") (u "二级")); [|reflexivity].
    unfold level_mapping. cbn [In]. auto 30. }
  split; [exact H1|]. split; [exact H4|].
  split; [rewrite Htable, H1, HI; reflexivity|].
  split.
  { rewrite Htable, H2.
    rewrite (Hkey (u "三级") (u "三级") (u "三级"));
      [reflexivity|unfold level_mapping; cbn [In]; auto 30|reflexivity]. }
  split.
  { rewrite Htable, (Hnone (u "N/A")) by reflexivity.
    rewrite (Hkey (u "5") (u "5") (u "五级"));
      [reflexivity|unfold level_mapping; cbn [In]; auto 30|reflexivity]. }
  split.
  { apply Hmissing; [apply Hfloat|]. unfold canonical_grades. cbn [In]. auto 10. }
  apply Hnotfound. apply Hnone. reflexivity.
Defined.

(** ** White space and slices *)

Lemma lstrip_trimmed (s : pystr) : left_trimmed s -> lstrip s = s.
Proof. destruct s as [|c s]; simpl; [reflexivity|]. now intros ->. Qed.

Lemma lstrip_left_trimmed (s : pystr) : left_trimmed (lstrip s).
Proof.
  induction s as [|c s IH]; simpl; [exact I|].
  destruct (is_space c) eqn:E; [exact IH|exact E].
Qed.

Lemma lstrip_idem (s : pystr) : lstrip (lstrip s) = lstrip s.
Proof. apply lstrip_trimmed, lstrip_left_trimmed. Qed.

Lemma lstrip_skipn (s : pystr) : exists n, lstrip s = skipn n s.
Proof.
  induction s as [|c s [n IH]]; [now exists O|].
  simpl. destruct (is_space c); [now exists (S n)|now exists O].
Qed.

Lemma rstrip_firstn (s : pystr) : exists n, rstrip s = firstn n s.
Proof.
  unfold rstrip. destruct (lstrip_skipn (rev s)) as [n ->].
  rewrite skipn_rev, rev_involutive. eauto.
Qed.

Lemma firstn_left_trimmed (n : nat) (s : pystr) :
  left_trimmed s -> left_trimmed (firstn n s).
Proof. destruct n, s; simpl; auto. Qed.

Lemma rstrip_idem (s : pystr) : rstrip (rstrip s) = rstrip s.
Proof. unfold rstrip. now rewrite rev_involutive, lstrip_idem. Qed.

Lemma strip_idem (s : pystr) : strip (strip s) = strip s.
Proof.
  unfold strip.
  assert (H : lstrip (rstrip (lstrip s)) = rstrip (lstrip s)).
  { apply lstrip_trimmed. destruct (rstrip_firstn (lstrip s)) as [n ->].
    apply firstn_left_trimmed, lstrip_left_trimmed. }
  rewrite H. apply rstrip_idem.
Qed.

Lemma is_cjk_not_space (c : Z) : is_cjk c = true -> is_space c = false.
Proof.
  unfold is_cjk, is_space. intros H.
  apply andb_true_iff in H as [H1 H2]. apply Z.leb_le in H1, H2.
  repeat match goal with
         | |- context [?a <=? ?b] =>
           first [ replace (a <=? b) with false by (symmetry; apply Z.leb_gt; lia)
                 | replace (a <=? b) with true by (symmetry; apply Z.leb_le; lia) ]
         | |- context [?a =? ?b] =>
           replace (a =? b) with false by (symmetry; apply Z.eqb_neq; lia)
         end.
  reflexivity.
Qed.

Lemma lstrip_all_cjk (s : pystr) : forallb is_cjk s = true -> lstrip s = s.
Proof.
  intros H. apply lstrip_trimmed. destruct s as [|c s]; simpl in *; [exact I|].
  apply andb_true_iff in H as [H _]. now apply is_cjk_not_space.
Qed.

Lemma forallb_rev (f : Z -> bool) (s : pystr) :
  forallb f s = true -> forallb f (rev s) = true.
Proof.
  rewrite !forallb_forall. intros H x Hx. apply H. now apply in_rev.
Qed.

Lemma strip_all_cjk (s : pystr) : forallb is_cjk s = true -> strip s = s.
Proof.
  intros H. unfold strip, rstrip. rewrite (lstrip_all_cjk _ H).
  rewrite (lstrip_all_cjk _ (forallb_rev _ _ H)). apply rev_involutive.
Qed.

Lemma startswith_firstn (n : nat) (t b : pystr) :
  startswith (firstn n t) b = true -> startswith t b = true.
Proof.
  revert n t; induction b as [|y b IH]; intros n t; [now destruct t|].
  destruct n, t as [|x t]; simpl; try discriminate.
  intros H. apply andb_true_iff in H as [H1 H2].
  rewrite H1. simpl. eapply IH; eauto.
Qed.

Lemma startswith_str_in (t b : pystr) : startswith t b = true -> str_in b t = true.
Proof. destruct t; simpl; intros ->; reflexivity. Qed.

Lemma str_in_firstn (n : nat) (t b : pystr) :
  str_in b (firstn n t) = true -> str_in b t = true.
Proof.
  revert n; induction t as [|x t IH]; intros n.
  - now rewrite firstn_nil.
  - destruct n.
    + simpl. destruct b; [reflexivity|]. simpl. discriminate.
    + cbn [firstn str_in]. intros H. apply orb_true_iff in H as [H|H].
      * apply (startswith_firstn (S n) (x :: t)) in H. now rewrite H.
      * apply IH in H. rewrite H. apply orb_true_r.
Qed.

Lemma str_in_skipn (n : nat) (t b : pystr) :
  str_in b (skipn n t) = true -> str_in b t = true.
Proof.
  revert t; induction n as [|n IH]; intros t; [now rewrite skipn_O|].
  destruct t as [|x t]; [now rewrite skipn_nil|].
  cbn [skipn]. intros H. apply IH in H. cbn [str_in]. rewrite H. apply orb_true_r.
Qed.

Lemma str_in_strip (x b : pystr) : str_in b (strip x) = true -> str_in b x = true.
Proof.
  unfold strip. destruct (rstrip_firstn (lstrip x)) as [n ->].
  destruct (lstrip_skipn x) as [k ->].
  intros H. eapply str_in_skipn, str_in_firstn, H.
Qed.

Lemma run_len_le (cls : Z -> bool) (s : pystr) : (run_len cls s <= length s)%nat.
Proof. induction s as [|c s IH]; simpl; [lia|]. destruct (cls c); simpl; lia. Qed.

Lemma run_len_app_le (cls : Z -> bool) (l1 l2 : pystr) (c : Z) :
  cls c = false -> (run_len cls (l1 ++ c :: l2) <= length l1)%nat.
Proof.
  intros Hc. induction l1 as [|x l1 IH]; simpl.
  - rewrite Hc. lia.
  - destruct (cls x); lia.
Qed.

Lemma skipn_run_len (cls : Z -> bool) (s : pystr) :
  (run_len cls s < length s)%nat ->
  exists c post, skipn (run_len cls s) s = c :: post /\ cls c = false.
Proof.
  induction s as [|x s IH]; simpl; [lia|].
  destruct (cls x) eqn:E; simpl.
  - intros H. apply IH. lia.
  - intros _. eauto.
Qed.

(** ** The identifier normaliser *)

Section ExtractorFacts.
Context {L : PyLib}.

Lemma first_non_chinese_run (s : pystr) (i : nat) :
  first_non_chinese s i =
  if (run_len is_chinese s <? length s)%nat
  then Some (i + run_len is_chinese s)%nat else None.
Proof.
  revert i; induction s as [|c s IH]; intros i; simpl; [reflexivity|].
  destruct (is_chinese c); simpl.
  - rewrite IH.
    change (S (run_len is_chinese s) <? S (length s))%nat
      with (run_len is_chinese s <? length s)%nat.
    destruct (run_len is_chinese s <? length s)%nat; [f_equal; lia|reflexivity].
  - f_equal. lia.
Qed.

Lemma extract_generic_unfold (model : pystr) :
  _extract_generic model =
  if (run_len is_chinese model <? length model)%nat then
    if (run_len is_chinese (rev model) <? length model)%nat then
      if truthy (generic_middle model) then strip (generic_middle model) else model
    else model
  else model.
Proof.
  unfold _extract_generic. rewrite !first_non_chinese_run, length_rev.
  destruct (run_len is_chinese model <? length model)%nat; [|reflexivity].
  destruct (run_len is_chinese (rev model) <? length model)%nat; reflexivity.
Qed.

Lemma run_rev_bound (m : pystr) :
  (run_len is_chinese m < length m)%nat ->
  (run_len is_chinese m + run_len is_chinese (rev m) < length m)%nat.
Proof.
  intros H. destruct (skipn_run_len is_chinese m H) as (c & post & Hs & Hc).
  pose proof (firstn_skipn (run_len is_chinese m) m) as Hm. rewrite Hs in Hm.
  assert (Hk : (run_len is_chinese (rev m) <= length post)%nat).
  { rewrite <- Hm at 1. rewrite rev_app_distr. cbn [rev]. rewrite <- app_assoc.
    cbn [app]. rewrite <- (length_rev post). now apply run_len_app_le. }
  pose proof (length_skipn (run_len is_chinese m) m) as Hl. rewrite Hs in Hl.
  cbn [length] in Hl. lia.
Qed.

Lemma generic_middle_head (m : pystr) :
  (run_len is_chinese m < length m)%nat ->
  exists c rest, generic_middle m = c :: rest /\ is_chinese c = false.
Proof.
  intros H. pose proof (run_rev_bound m H) as Hb.
  destruct (skipn_run_len is_chinese m H) as (c & post & Hs & Hc).
  unfold generic_middle, slice. rewrite Hs.
  destruct (length m - run_len is_chinese (rev m) - run_len is_chinese m)%nat
    as [|j] eqn:E; [lia|].
  exists c, (firstn j post). now split.
Qed.

Lemma rev_generic_middle (m : pystr) :
  rev (generic_middle m) = generic_middle (rev m).
Proof.
  unfold generic_middle, slice. rewrite rev_involutive, length_rev.
  pose proof (run_len_le is_chinese m) as Ha.
  pose proof (run_len_le is_chinese (rev m)) as Hk. rewrite length_rev in Hk.
  set (a := run_len is_chinese m) in *. set (k := run_len is_chinese (rev m)) in *.
  set (n := length m) in *.
  rewrite skipn_rev, firstn_rev, length_firstn. fold n.
  replace (Nat.min (n - k) n - (n - a - k))%nat with (Nat.min a (n - k)) by lia.
  destruct (Nat.le_gt_cases (a + k) n) as [Hle|Hgt].
  - replace (Nat.min a (n - k)) with a by lia. now rewrite skipn_firstn_comm.
  - replace (n - k - a)%nat with O by lia. replace (Nat.min a (n - k)) with (n - k)%nat by lia.
    cbn [firstn]. rewrite skipn_all2; [reflexivity|]. rewrite length_firstn. lia.
Qed.

Lemma generic_middle_last (m : pystr) :
  (run_len is_chinese m < length m)%nat ->
  exists c rest, rev (generic_middle m) = c :: rest /\ is_chinese c = false.
Proof.
  intros H. rewrite rev_generic_middle. apply generic_middle_head.
  pose proof (run_rev_bound m H). rewrite length_rev. lia.
Qed.

(** A trimmed text whose first and last characters are not Chinese is
    left as it is by the generic rule. *)
Lemma extract_generic_fixed (mid : pystr) (c c' : Z) (rest rest' : pystr) :
  mid = c :: rest -> is_chinese c = false ->
  rev mid = c' :: rest' -> is_chinese c' = false ->
  strip mid = mid ->
  _extract_generic mid = mid.
Proof.
  intros Hh Hc Hr Hc' Hs. rewrite extract_generic_unfold.
  assert (Ha : run_len is_chinese mid = O) by (rewrite Hh; simpl; now rewrite Hc).
  assert (Hk : run_len is_chinese (rev mid) = O) by (rewrite Hr; simpl; now rewrite Hc').
  assert (Hg : generic_middle mid = mid).
  { unfold generic_middle, slice. rewrite Ha, Hk, !Nat.sub_0_r. cbn [skipn].
    apply firstn_all. }
  rewrite Ha, Hk, Hg, Hs.
  destruct mid; [discriminate|]. reflexivity.
Qed.

Lemma strip_listed_brand_none (brands : list pystr) (m : pystr) :
  existsb (startswith m) brands = false -> strip_listed_brand brands m = None.
Proof.
  induction brands as [|b bs IH]; simpl; [reflexivity|].
  intros H. apply orb_false_iff in H as [H1 H2]. rewrite H1. auto.
Qed.

(** On a trimmed text without a recognised brand prefix, [extract_model]
    returns the text whenever the rule that applies does. *)
Lemma extract_model_fixed (m : pystr) :
  strip m = m ->
  recognized_brand_prefix m = false ->
  _has_version_suffix m = true \/ startswith m (u "RF") = true
  \/ _extract_generic m = m ->
  extract_model m = m.
Proof.
  intros Hs Hb Hrule. unfold extract_model.
  destruct m as [|x m']; [reflexivity|]. cbn [truthy negb]. rewrite Hs. cbn [truthy negb].
  set (m := x :: m') in *. unfold recognized_brand_prefix in Hb.
  apply orb_false_iff in Hb as [Hb Hb3]. apply orb_false_iff in Hb as [Hb1 Hb2].
  unfold _extract_with_version_suffix. rewrite Hb1, Hb2.
  destruct (_has_version_suffix m) eqn:Ev.
  - now rewrite (strip_listed_brand_none _ _ Hb3).
  - rewrite (strip_listed_brand_none _ _ Hb3).
    destruct (startswith m (u "RF")) eqn:Erf; [reflexivity|].
    destruct Hrule as [H|[H|H]]; congruence.
Qed.

Lemma extract_model_empty : extract_model [] = [].
Proof. reflexivity. Qed.

End ExtractorFacts.

Section NormaliserClaims.
Context {L : PyLib}.

Lemma run_len_all (cls : Z -> bool) (s : pystr) :
  forallb cls s = true -> run_len cls s = length s.
Proof.
  induction s as [|c s IH]; simpl; [reflexivity|].
  intros H. apply andb_true_iff in H as [-> H]. now rewrite IH.
Qed.

(** C7 (as amended). A text made of Chinese characters only, which does
    not begin with a brand that [extract_model] strips, is returned
    unchanged. *)
Theorem extract_model_cjk_unchanged (x : pystr) :
  forallb is_chinese x = true ->
  recognized_brand_prefix x = false ->
  extract_model x = x.
Proof.
  intros Hc Hb. apply extract_model_fixed; [now apply strip_all_cjk|exact Hb|].
  right; right. rewrite extract_generic_unfold, (run_len_all _ _ Hc).
  now rewrite Nat.ltb_irrefl.
Qed.

(** The three shapes of the result of [extract_model] on a text without
    a recognised brand prefix. *)
Lemma extract_model_cases (x : pystr) :
  recognized_brand_prefix (strip x) = false ->
  strip (generic_middle (strip x)) = generic_middle (strip x) ->
  extract_model x = []
  \/ (extract_model x = strip x
      /\ (_has_version_suffix (strip x) = true \/ startswith (strip x) (u "RF") = true
          \/ _extract_generic (strip x) = strip x))
  \/ (extract_model x = generic_middle (strip x)
      /\ _extract_generic (generic_middle (strip x)) = generic_middle (strip x)).
Proof.
  intros Hb Hmid. unfold extract_model.
  destruct (truthy x); cbn [negb]; [|now left].
  set (m := strip x) in *.
  destruct (truthy m); cbn [negb]; [|now left].
  unfold recognized_brand_prefix in Hb.
  apply orb_false_iff in Hb as [Hb Hb3]. apply orb_false_iff in Hb as [Hb1 Hb2].
  unfold _extract_with_version_suffix. rewrite Hb1, Hb2.
  destruct (_has_version_suffix m) eqn:Ev.
  { rewrite (strip_listed_brand_none _ _ Hb3). right; left. auto. }
  rewrite (strip_listed_brand_none _ _ Hb3).
  destruct (startswith m (u "RF")) eqn:Erf.
  { right; left. auto. }
  pose proof (extract_generic_unfold m) as Hu.
  destruct (run_len is_chinese m <? length m)%nat eqn:E1;
    [|right; left; split; [exact Hu|auto]].
  destruct (run_len is_chinese (rev m) <? length m)%nat eqn:E2;
    [|right; left; split; [exact Hu|auto]].
  destruct (truthy (generic_middle m)) eqn:E3;
    [|right; left; split; [exact Hu|auto]].
  right; right. rewrite Hmid in Hu. split; [exact Hu|].
  apply Nat.ltb_lt in E1.
  destruct (generic_middle_head m E1) as (c & rest & Hh & Hc).
  destruct (generic_middle_last m E1) as (c' & rest' & Hl & Hc').
  eapply extract_generic_fixed; eauto.
Qed.

Lemma extract_model_idempotent_prefix (x : pystr) :
  recognized_brand_prefix (strip x) = false ->
  recognized_brand_prefix (extract_model x) = false ->
  strip (generic_middle (strip x)) = generic_middle (strip x) ->
  extract_model (extract_model x) = extract_model x.
Proof.
  intros H1 H2 H3.
  destruct (extract_model_cases x H1 H3) as [Hr|[[Hr Hrule]|[Hr Hg]]].
  - rewrite Hr. reflexivity.
  - rewrite Hr. apply extract_model_fixed; [apply strip_idem|exact H1|exact Hrule].
  - rewrite Hr in *. apply extract_model_fixed; auto.
Qed.

Lemma no_brand_prefix (s : pystr) :
  (forall b, In b known_brands -> str_in b s = false) ->
  recognized_brand_prefix s = false.
Proof.
  intros H.
  assert (Hs : forall b, In b known_brands -> startswith s b = false).
  { intros b Hb. destruct (startswith s b) eqn:E; [|reflexivity].
    apply startswith_str_in in E. rewrite (H b Hb) in E. discriminate. }
  unfold recognized_brand_prefix.
  destruct (_has_version_suffix s); cbn [existsb];
    rewrite !Hs by (unfold known_brands; cbn [In]; auto 20); reflexivity.
Qed.

Lemma str_in_generic_middle (m b : pystr) :
  str_in b (generic_middle m) = true -> str_in b m = true.
Proof. unfold generic_middle, slice. intros H. eapply str_in_skipn, str_in_firstn, H. Qed.

Lemma brand_not_in_empty (b : pystr) : In b known_brands -> str_in b [] = false.
Proof.
  unfold known_brands. cbn [In].
  intros H; repeat (destruct H as [H|H]; [subst; reflexivity|]); destruct H.
Qed.

(** C8 (as amended). On a text that contains none of the brand tokens,
    and whose part between the leading and the trailing run of Chinese
    characters neither begins nor ends with white space, [extract_model]
    is idempotent. *)
Theorem extract_model_idempotent (x : pystr) :
  forallb (fun brand => negb (str_in brand x)) known_brands = true ->
  strip (generic_middle (strip x)) = generic_middle (strip x) ->
  extract_model (extract_model x) = extract_model x.
Proof.
  intros Hno Hmid.
  assert (Hx : forall b, In b known_brands -> str_in b x = false).
  { intros b Hb. rewrite forallb_forall in Hno. apply Hno in Hb.
    now apply negb_true_iff in Hb. }
  assert (Hm : forall b, In b known_brands -> str_in b (strip x) = false).
  { intros b Hb. destruct (str_in b (strip x)) eqn:E; [|reflexivity].
    apply str_in_strip in E. rewrite (Hx b Hb) in E. discriminate. }
  pose proof (no_brand_prefix _ Hm) as H1.
  apply extract_model_idempotent_prefix; auto.
  apply no_brand_prefix. intros b Hb.
  destruct (extract_model_cases x H1 Hmid) as [Hr|[[Hr _]|[Hr _]]]; rewrite Hr.
  - now apply brand_not_in_empty.
  - now apply Hm.
  - destruct (str_in b (generic_middle (strip x))) eqn:E; [|reflexivity].
    apply str_in_generic_middle in E. rewrite (Hm b Hb) in E. discriminate.
Qed.

End NormaliserClaims.

(** C7 (counterexample). "格力空调" is made of Chinese characters only,
    and [extract_model] returns "空调". *)
Lemma extract_model_cjk_brand_stripped :
  forallb is_chinese (u "格力空调") = true
  /\ extract_model (u "格力空调") = u "空调"
  /\ extract_model (u "格力空调") <> u "格力空调".
Proof. split; [reflexivity|]. split; [reflexivity|]. vm_compute. discriminate. Qed.

Lemma extract_model_cjk_unchanged_witness :
  forallb is_chinese (u "电脑椅") = true
  /\ recognized_brand_prefix (u "电脑椅") = false
  /\ extract_model (u "电脑椅") = u "电脑椅".
Proof.
  split; [reflexivity|]. split; [reflexivity|].
  apply (extract_model_cjk_unchanged (u "电脑椅")); reflexivity.
Defined.

(** C8 (counterexample). "中 文A" contains no brand token; its
    normalisation is "文A", whose normalisation is "A". *)
Lemma extract_model_not_idempotent :
  forallb (fun brand => negb (str_in brand (u "中 文A"))) known_brands = true
  /\ recognized_brand_prefix (u "中 文A") = false
  /\ extract_model (u "中 文A") = u "文A"
  /\ extract_model (extract_model (u "中 文A")) = u "A"
  /\ extract_model (extract_model (u "中 文A")) <> extract_model (u "中 文A").
Proof.
  split; [reflexivity|]. split; [reflexivity|]. split; [reflexivity|].
  split; [reflexivity|]. vm_compute. discriminate.
Qed.

Lemma extract_model_idempotent_witness :
  forallb (fun brand => negb (str_in brand (u "空调KFR-35GW挂机"))) known_brands = true
  /\ strip (generic_middle (strip (u "空调KFR-35GW挂机")))
     = generic_middle (strip (u "空调KFR-35GW挂机"))
  /\ extract_model (extract_model (u "空调KFR-35GW挂机"))
     = extract_model (u "空调KFR-35GW挂机").
Proof.
  split; [reflexivity|]. split; [reflexivity|].
  apply (extract_model_idempotent (u "空调KFR-35GW挂机")); reflexivity.
Defined.

(** ** Deduplication *)

Lemma group_append_keys (r : candidate) (g : model_groups_t) (k : pystr) :
  In k (map fst (group_append r g)) <-> In k (map fst g) \/ k = c_model r.
Proof.
  induction g as [|[model [first rest]] g IH]; simpl.
  - intuition congruence.
  - destruct (str_eqb (c_model r) model) eqn:E; simpl.
    + apply str_eqb_eq in E. intuition congruence.
    + rewrite IH. tauto.
Qed.

Lemma group_append_nodup (r : candidate) (g : model_groups_t) :
  NoDup (map fst g) -> NoDup (map fst (group_append r g)).
Proof.
  induction g as [|[model [first rest]] g IH]; simpl; intros H.
  - constructor; [intros []|constructor].
  - destruct (str_eqb (c_model r) model) eqn:E; simpl; [exact H|].
    inversion H as [|? ? Hnin Hnd]; subst. constructor; [|now apply IH].
    rewrite group_append_keys. intros [Hin|Heq]; [contradiction|].
    apply str_eqb_neq in E. congruence.
Qed.

Lemma group_append_members (r : candidate) (g : model_groups_t) :
  Forall group_members_ok g -> Forall group_members_ok (group_append r g).
Proof.
  induction g as [|[model [first rest]] g IH]; simpl; intros H.
  - repeat constructor.
  - inversion H as [|? ? Hhead Hg]; subst. destruct Hhead as [Hf Hr].
    destruct (str_eqb (c_model r) model) eqn:E.
    + apply str_eqb_eq in E. constructor; [|exact Hg].
      split; [exact Hf|]. apply Forall_app. split; [exact Hr|]. now constructor.
    + constructor; [now split|now apply IH].
Qed.

Lemma group_append_length (r : candidate) (g : model_groups_t) :
  (length (group_append r g) <= S (length g))%nat.
Proof.
  induction g as [|[model [first rest]] g IH]; simpl; [lia|].
  destruct (str_eqb (c_model r) model); simpl; lia.
Qed.

Lemma group_fold_spec (records : list candidate) (acc : model_groups_t) :
  NoDup (map fst acc) -> Forall group_members_ok acc ->
  let groups := fold_left (fun groups record => group_append record groups) records acc in
  NoDup (map fst groups)
  /\ Forall group_members_ok groups
  /\ (forall k, In k (map fst groups) <-> In k (map fst acc) \/ In k (map c_model records))
  /\ (length groups <= length acc + length records)%nat.
Proof.
  revert acc; induction records as [|r records IH]; intros acc Hnd Hok; simpl.
  - repeat split; auto; [tauto|lia].
  - destruct (IH (group_append r acc) (group_append_nodup r acc Hnd)
                 (group_append_members r acc Hok)) as (H1 & H2 & H3 & H4).
    repeat split; auto.
    + intros H. apply H3 in H. rewrite group_append_keys in H. intuition.
    + intros H. apply H3. rewrite group_append_keys. intuition.
    + pose proof (group_append_length r acc). lia.
Qed.

Lemma get_latest_record_in (first : candidate) (rest : list candidate) :
  In (_get_latest_record first rest) (first :: rest).
Proof.
  unfold _get_latest_record. revert first.
  induction rest as [|r rest IH]; intros first; simpl; [now left|].
  match goal with
  | |- context [fold_left ?f rest ?a] => destruct (IH a) as [H|H]
  end.
  - rewrite <- H. destruct (0 <? _); auto.
  - auto.
Qed.

Lemma filter_latest_models (records : list candidate) :
  map c_model (_filter_latest_records records) = map fst (group_by_model records).
Proof.
  unfold _filter_latest_records. destruct records as [|r0 records]; [reflexivity|].
  unfold group_by_model.
  destruct (group_fold_spec (r0 :: records) [] (NoDup_nil _) (Forall_nil _))
    as (_ & Hok & _).
  induction Hok as [|[model [first rest]] g Hhead Hg IH]; [reflexivity|].
  destruct Hhead as [Hf Hr].
  cbn [map fst]. f_equal; [|exact IH].
  destruct rest as [|r rest]; [exact Hf|].
  destruct (get_latest_record_in first (r :: rest)) as [H|H].
  - now rewrite <- H.
  - rewrite Forall_forall in Hr. now apply Hr.
Qed.

(** The deduplication proper keeps exactly one record of every model. *)
Lemma filter_latest_records_spec (records : list candidate) :
  NoDup (map c_model (_filter_latest_records records))
  /\ (forall m, In m (map c_model (_filter_latest_records records))
                <-> In m (map c_model records))
  /\ (length (_filter_latest_records records) <= length records)%nat.
Proof.
  rewrite <- (length_map c_model (_filter_latest_records records)).
  rewrite filter_latest_models. unfold group_by_model.
  destruct (group_fold_spec records [] (NoDup_nil _) (Forall_nil _))
    as (H1 & _ & H3 & H4).
  repeat split; auto.
  - intros H. apply H3 in H. simpl in H. tauto.
  - intros H. apply H3. now right.
  - rewrite length_map. simpl in H4. exact H4.
Qed.

(** C5 (as amended). [extract_energy_levels] returns exactly one
    candidate for every model value carried by an input record whose
    level field is set, none for any other model, and never more
    candidates than there are input records. *)
Theorem extract_energy_levels_one_per_model (l : list raw_record) :
  let out := extract_energy_levels (Some {| sd_list := Some l |}) in
  NoDup (map c_model out)
  /\ (forall m, In m (map c_model out)
                <-> exists r, In r l /\ json_truthy (nxLever r) = true
                              /\ productModel r = m)
  /\ (length out <= length l)%nat.
Proof.
  cbn [extract_energy_levels sd_list].
  set (kept := filter (fun record => json_truthy (nxLever record)) l).
  destruct (filter_latest_records_spec (map to_candidate kept)) as (H1 & H2 & H3).
  repeat split; auto.
  - intros H. apply H2 in H. rewrite map_map in H. apply in_map_iff in H.
    destruct H as (r & Hm & Hr). apply filter_In in Hr. exists r. tauto.
  - intros (r & Hin & Ht & Hm). apply H2. rewrite map_map. apply in_map_iff.
    exists r. split; [exact Hm|]. apply filter_In. tauto.
  - rewrite length_map in H3. pose proof (filter_length_le (fun record => json_truthy (nxLever record)) l).
    fold kept in H. lia.
Qed.

(** C5 (counterexample). A record without a level is dropped before the
    grouping: its model occurs in the input and has no candidate. *)
Lemma extract_energy_levels_drops_model :
  let r := {| productModel := u "KFR-35GW"; nxLever := JStr [];
              producerName := u "格力"; registrationNumber := [];
              productType := []; announcementTime := u "2020-01-01" |} in
  In (u "KFR-35GW") (map productModel [r])
  /\ extract_energy_levels (Some {| sd_list := Some [r] |}) = [].
Proof. split; [now left|reflexivity]. Qed.

(** ** The scorer *)

Section ScorerFacts.
Context {L : PyLib}.
Local Open Scope Q_scope.

Lemma sm_ratio_nonneg (a b : pystr) : 0 <= sm_ratio a b.
Proof.
  unfold sm_ratio. destruct (length a + length b)%nat.
  - discriminate.
  - unfold Qle. cbn [Qnum Qden]. lia.
Qed.

Lemma calculate_similarity_score_nonneg (a b : pystr) :
  0 <= calculate_similarity_score a b.
Proof.
  unfold calculate_similarity_score.
  destruct (negb (truthy a) || negb (truthy b)); [apply Qle_refl|apply sm_ratio_nonneg].
Qed.

Lemma py_max_nonneg (a b : Q) : 0 <= a -> 0 <= b -> 0 <= py_max a b.
Proof. intros Ha Hb. unfold py_max. now destruct (Qlt_bool a b). Qed.

Lemma py_min_bounds (s : Q) : 0 <= s -> 0 <= py_min s 100 /\ py_min s 100 <= 100.
Proof.
  intros Hs. unfold py_min, Qlt_bool.
  destruct (Qle_bool s 100) eqn:E; simpl.
  - split; [exact Hs|]. now apply Qle_bool_iff.
  - split; [discriminate|apply Qle_refl].
Qed.

Lemma Qadd_nonneg (a b : Q) : 0 <= a -> 0 <= b -> 0 <= a + b.
Proof.
  intros Ha Hb. apply (Qle_trans _ (0 + 0)); [discriminate|].
  now apply Qplus_le_compat.
Qed.

Lemma bonus_nonneg (b : bool) (s k : Q) :
  0 <= s -> 0 <= k -> 0 <= (if b then s + k else s).
Proof. intros Hs Hk. destruct b; [now apply Qadd_nonneg|exact Hs]. Qed.

Lemma brand_bonus_nonneg (original_brand candidate_brand : pystr) :
  0 <= brand_bonus original_brand candidate_brand.
Proof.
  unfold brand_bonus.
  repeat match goal with
         | |- context [if ?b then _ else _] => destruct b
         end; discriminate.
Qed.

(** C6. The score of a candidate lies between 0 and 100. *)
Theorem score_match_bounded (original_model extracted_model : pystr) (c : candidate) :
  0 <= score_match original_model extracted_model c
  /\ score_match original_model extracted_model c <= 100.
Proof.
  unfold score_match. cbv zeta.
  destruct (str_eqb (c_model c) original_model); [split; [discriminate|apply Qle_refl]|].
  destruct (str_eqb (c_model c) extracted_model); [split; discriminate|].
  apply py_min_bounds.
  do 5 (apply bonus_nonneg; [|discriminate]).
  apply Qadd_nonneg; [|apply brand_bonus_nonneg].
  do 2 (apply bonus_nonneg; [|discriminate]).
  apply Qadd_nonneg; [discriminate|].
  apply Qmult_le_0_compat; [|discriminate].
  apply py_max_nonneg; apply calculate_similarity_score_nonneg.
Qed.

End ScorerFacts.

(** ** The choice of the best candidate *)

Section BestMatchFacts.
Context {L : PyLib}.

(** C10 (as amended). For a successful search result with exactly one
    candidate, [find_best_match] returns that candidate for every
    original model, and computes no score and prints no low-score
    warning on the way. *)
Theorem find_best_match_single (sr : search_result) (c : candidate)
        (original_model : pystr) :
  sr_search_success sr = true ->
  sr_energy_levels sr = [c] ->
  find_best_match sr original_model = (Some c, []).
Proof.
  intros Hs Hl. unfold find_best_match. rewrite Hs, Hl. reflexivity.
Qed.

(** Without the success flag no candidate is returned. *)
Lemma find_best_match_failed_search (sr : search_result) (original_model : pystr) :
  sr_search_success sr = false ->
  find_best_match sr original_model = (None, []).
Proof. intros Hs. unfold find_best_match. now rewrite Hs. Qed.

End BestMatchFacts.

(** C10 (counterexample). A search result that holds one candidate and
    is not flagged successful yields no match. *)
Lemma find_best_match_single_unsuccessful :
  let c := {| c_model := u "KFR-35GW"; c_energy_level := u "一级";
              c_producer := u "格力"; c_record_number := [];
              c_product_type := []; c_announcement_time := [] |} in
  let sr := {| sr_search_success := false; sr_energy_levels := [c];
               sr_extracted_model := None |} in
  sr_energy_levels sr = [c]
  /\ fst (find_best_match sr (u "格力KFR-35GW")) = None
  /\ fst (find_best_match sr (u "格力KFR-35GW")) <> Some c.
Proof. split; [reflexivity|]. split; [reflexivity|discriminate]. Qed.

(** A single candidate that has nothing in common with the original
    model (its score is 0) is returned all the same. *)
Lemma find_best_match_single_witness :
  let c := {| c_model := u "XQG80"; c_energy_level := [];
              c_producer := []; c_record_number := [];
              c_product_type := []; c_announcement_time := [] |} in
  let sr := {| sr_search_success := true; sr_energy_levels := [c];
               sr_extracted_model := Some (u "ABC") |} in
  sr_search_success sr = true
  /\ sr_energy_levels sr = [c]
  /\ Qlt_bool (score_match (u "ABC") (u "ABC") c) 30 = true
  /\ find_best_match sr (u "ABC") = (Some c, []).
Proof.
  intros c sr. split; [reflexivity|]. split; [reflexivity|].
  split; [vm_compute; reflexivity|].
  apply (find_best_match_single sr c (u "ABC")); reflexivity.
Defined.

(** ** The brand check of the relevance pass *)

Section BrandCheckFacts.
Context {L : PyLib}.

Lemma first_brand_in_listed (brands : list pystr) (model model_lower b : pystr) :
  first_brand_in brands model model_lower = Some b -> In b brands.
Proof.
  induction brands as [|x brands IH]; simpl; [discriminate|].
  destruct (str_in x model || str_in (str_lower x) model_lower).
  - intros H. injection H as ->. now left.
  - intros H. right. now apply IH.
Qed.

Lemma extract_brand_info_listed (model : pystr) :
  truthy (extract_brand_info model) = true ->
  In (extract_brand_info model) relevance_brands.
Proof.
  unfold extract_brand_info.
  destruct (first_brand_in relevance_brands model (str_lower model)) as [b|] eqn:E.
  - intros _. eapply first_brand_in_listed; eauto.
  - discriminate.
Qed.

Lemma existsb_eq_on {A : Type} (f g : A -> bool) (l : list A) :
  Forall (fun x => f x = g x) l -> existsb f l = existsb g l.
Proof. induction 1 as [|x l Hx Hl IH]; simpl; [reflexivity|]. now rewrite Hx, IH. Qed.

Lemma map_eq_on {A B : Type} (f g : A -> B) (l : list A) :
  Forall (fun x => f x = g x) l -> map f l = map g l.
Proof. induction 1 as [|x l Hx Hl IH]; simpl; [reflexivity|]. now rewrite Hx, IH. Qed.

Lemma brand_aliases_plain :
  Forall (fun family => plain (fst family) = true
                        /\ Forall (fun a => plain a = true) (snd family))
         brand_aliases.
Proof.
  apply Forall_forall. intros [m al] Hin.
  assert (H : forallb (fun family => plain (fst family) && forallb plain (snd family))
                      brand_aliases = true) by (vm_compute; reflexivity).
  rewrite forallb_forall in H. specialize (H _ Hin). cbn [fst snd] in *.
  apply andb_true_iff in H as [H1 H2]. split; [exact H1|].
  apply Forall_forall. now apply forallb_forall.
Qed.

(** On ASCII and CJK text the alias table is read the same way by every
    runtime. *)
Lemma alias_equivalent_plain (a b : pystr) :
  plain a = true -> plain b = true ->
  alias_equivalent a b = alias_equivalent (L := ascii_lib) a b.
Proof.
  intros Ha Hb. unfold alias_equivalent.
  rewrite (str_lower_plain a Ha), (str_lower_plain b Hb). cbn [str_lower ascii_lib].
  f_equal. apply existsb_eq_on.
  eapply Forall_impl; [|exact brand_aliases_plain].
  intros [m al] [Hm Hal]. cbn [fst snd] in *. unfold in_family.
  rewrite (str_lower_plain m Hm).
  assert (E : map str_lower al = map (map ascii_lower) al).
  { apply map_eq_on. eapply Forall_impl; [|exact Hal].
    intros x Hx. now apply str_lower_plain. }
  rewrite E. reflexivity.
Qed.

Lemma relevance_brands_alias_table (a b : pystr) :
  In a relevance_brands -> In b relevance_brands ->
  plain a = true /\ plain b = true
  /\ alias_equivalent (L := ascii_lib) a b = str_eqb a b.
Proof.
  intros Ha Hb.
  assert (H : forallb (fun a =>
                forallb (fun b =>
                  plain a && plain b
                  && Bool.eqb (alias_equivalent (L := ascii_lib) a b) (str_eqb a b))
                  relevance_brands) relevance_brands = true)
    by (vm_compute; reflexivity).
  rewrite forallb_forall in H. specialize (H _ Ha).
  rewrite forallb_forall in H. specialize (H _ Hb).
  apply andb_true_iff in H as [H H3]. apply andb_true_iff in H as [H1 H2].
  apply Bool.eqb_prop in H3. auto.
Qed.

(** On ASCII and CJK text the brand token is found the same way by
    every runtime. *)
Lemma first_brand_in_plain (brands : list pystr) (model : pystr) :
  Forall (fun b => plain b = true) brands ->
  first_brand_in brands model (map ascii_lower model)
  = first_brand_in (L := ascii_lib) brands model (map ascii_lower model).
Proof.
  induction 1 as [|b brands Hb Hrest IH]; [reflexivity|].
  cbn [first_brand_in]. rewrite (str_lower_plain b Hb), IH. reflexivity.
Qed.

Lemma relevance_brands_plain : Forall (fun b => plain b = true) relevance_brands.
Proof.
  apply Forall_forall. apply forallb_forall. vm_compute. reflexivity.
Qed.

Lemma extract_brand_info_plain (model : pystr) :
  plain model = true ->
  extract_brand_info model = extract_brand_info (L := ascii_lib) model.
Proof.
  intros H. unfold extract_brand_info.
  rewrite (str_lower_plain model H). cbn [str_lower ascii_lib].
  now rewrite (first_brand_in_plain relevance_brands model relevance_brands_plain).
Qed.

Lemma brand_check_plain (original_model matched_model : pystr) :
  plain original_model = true -> plain matched_model = true ->
  brand_check original_model matched_model
  = brand_check (L := ascii_lib) original_model matched_model.
Proof.
  intros Ho Hm. unfold brand_check.
  now rewrite (extract_brand_info_plain _ Ho), (extract_brand_info_plain _ Hm).
Qed.

(** The names of a family of the alias table: the brand and its
    spellings, transliterations and legal names.  Two names of one
    family, taken as identifiers, pass the brand check. *)
Lemma brand_aliases_pass_brand_check :
  forallb (fun family =>
    forallb (fun a =>
      forallb (fun b =>
        plain a && plain b
        && match brand_check (L := ascii_lib) a b with
           | None => true
           | Some _ => false
           end)
        (fst family :: snd family))
      (fst family :: snd family))
    brand_aliases = true.
Proof. vm_compute. reflexivity. Qed.

(** C9. The brand check answers "not relevant" exactly when a brand
    token is resolved on both sides and the two tokens are not
    alias-equivalent by the alias table; it passes the match on to the
    next check exactly when a token is missing or the two tokens are
    alias-equivalent.  When the two earlier checks pass the match on,
    resolved tokens that are not alias-equivalent make
    [is_relevant_match] answer "not relevant".  Two names of one family
    of the alias table (a brand, its transliteration, its legal names),
    taken as identifiers, always pass the brand check. *)
Theorem brand_check_alias_equivalent (original_model matched_model : pystr) :
  let original_brand := extract_brand_info original_model in
  let matched_brand := extract_brand_info matched_model in
  (brand_check original_model matched_model = Some false
   <-> truthy original_brand = true /\ truthy matched_brand = true
       /\ alias_equivalent original_brand matched_brand = false)
  /\ (brand_check original_model matched_model = None
      <-> truthy original_brand = false \/ truthy matched_brand = false
          \/ alias_equivalent original_brand matched_brand = true)
  /\ (category_check original_model matched_model = None ->
      chinese_model_check original_model matched_model = None ->
      truthy original_brand = true -> truthy matched_brand = true ->
      alias_equivalent original_brand matched_brand = false ->
      forall original_producer matched_producer,
        is_relevant_match original_model matched_model
                          original_producer matched_producer = false)
  /\ (forall family,
        In family brand_aliases ->
        In original_model (fst family :: snd family) ->
        In matched_model (fst family :: snd family) ->
        brand_check original_model matched_model = None).
Proof.
  cbv zeta.
  assert (Htokens :
            truthy (extract_brand_info original_model) = true ->
            truthy (extract_brand_info matched_model) = true ->
            alias_equivalent (extract_brand_info original_model)
                             (extract_brand_info matched_model)
            = str_eqb (extract_brand_info original_model)
                      (extract_brand_info matched_model)).
  { intros Ho Hm.
    destruct (relevance_brands_alias_table _ _
                (extract_brand_info_listed _ Ho) (extract_brand_info_listed _ Hm))
      as (Hpo & Hpm & Htable).
    now rewrite (alias_equivalent_plain _ _ Hpo Hpm). }
  split; [|split; [|split]].
  - unfold brand_check.
    destruct (truthy (extract_brand_info original_model)) eqn:Ho; cbn [andb];
      [|split; [discriminate|intros (H & _); discriminate H]].
    destruct (truthy (extract_brand_info matched_model)) eqn:Hm; cbn [andb];
      [|split; [discriminate|intros (_ & H & _); discriminate H]].
    rewrite (Htokens eq_refl eq_refl).
    destruct (str_eqb _ _); cbn [negb].
    + split; [discriminate|intros (_ & _ & H); discriminate H].
    + split; auto.
  - unfold brand_check.
    destruct (truthy (extract_brand_info original_model)) eqn:Ho; cbn [andb];
      [|split; auto].
    destruct (truthy (extract_brand_info matched_model)) eqn:Hm; cbn [andb];
      [|split; auto].
    rewrite (Htokens eq_refl eq_refl).
    destruct (str_eqb _ _); cbn [negb].
    + split; auto.
    + split; [discriminate|]. intros [H|[H|H]]; discriminate H.
  - intros Hc Hn Ho Hm Ha op mp.
    unfold is_relevant_match, brand_check. rewrite Hc, Hn, Ho, Hm. cbn [andb or_else].
    rewrite (Htokens Ho Hm) in Ha. rewrite Ha. reflexivity.
  - intros family Hf Ha Hb.
    pose proof brand_aliases_pass_brand_check as H.
    rewrite forallb_forall in H. specialize (H _ Hf).
    rewrite forallb_forall in H. specialize (H _ Ha).
    rewrite forallb_forall in H. specialize (H _ Hb).
    apply andb_true_iff in H as [H H3]. apply andb_true_iff in H as [H1 H2].
    rewrite (brand_check_plain _ _ H1 H2).
    now destruct (brand_check (L := ascii_lib) original_model matched_model).
Qed.

End BrandCheckFacts.

Lemma brand_check_alias_equivalent_witness :
  brand_check (u "美的空调KFR-26GW") (u "格力KFR-26GW") = Some false
  /\ is_relevant_match (u "美的空调KFR-26GW") (u "格力KFR-26GW") [] [] = false
  /\ extract_brand_info (u "GREE KFR-35GW") = []
  /\ brand_check (u "格力KFR-35GW") (u "GREE KFR-35GW") = None
  /\ brand_check (u "格力") (u "GREE") = None
  /\ brand_check (u "珠海格力") (u "格力电器") = None.
Proof.
  split.
  { apply (proj1 (brand_check_alias_equivalent (u "美的空调KFR-26GW") (u "格力KFR-26GW"))).
    repeat split; reflexivity. }
  split.
  { apply (proj1 (proj2 (proj2
             (brand_check_alias_equivalent (u "美的空调KFR-26GW") (u "格力KFR-26GW")))));
      reflexivity. }
  split; [reflexivity|].
  split.
  { apply (proj1 (proj2 (brand_check_alias_equivalent (u "格力KFR-35GW")
                                                      (u "GREE KFR-35GW")))).
    right. left. reflexivity. }
  split.
  { apply (proj2 (proj2 (proj2 (brand_check_alias_equivalent (u "格力") (u "GREE"))))
             (u "格力", [ u "GREE"; u "gree"; u "珠海格力"; u "格力电器" ])).
    - unfold brand_aliases. left. reflexivity.
    - left. reflexivity.
    - right. left. reflexivity. }
  apply (proj2 (proj2 (proj2 (brand_check_alias_equivalent (u "珠海格力") (u "格力电器"))))
           (u "格力", [ u "GREE"; u "gree"; u "珠海格力"; u "格力电器" ])).
  - unfold brand_aliases. left. reflexivity.
  - right. right. right. left. reflexivity.
  - right. right. right. right. left. reflexivity.
Defined.

(** On the tokens of [extract_brand_info] the whole of [brands_similar]
    (alias table, containment and similarity above 0.8) also comes down
    to equality of the tokens. *)
Lemma relevance_brands_similar_table :
  forallb (fun a =>
    forallb (fun b => Bool.eqb (brands_similar a b) (str_eqb a b)) relevance_brands)
    relevance_brands = true.
Proof. vm_compute. reflexivity. Qed.

(** A Latin transliteration resolves no brand token, so the brand check
    passes it on. *)
Example brand_check_transliteration :
  extract_brand_info (u "GREE KFR-35GW") = []
  /\ brand_check (u "格力KFR-35GW") (u "GREE KFR-35GW") = None.
Proof. split; reflexivity. Qed.

(** ** The relevance pass *)

Section RelevancePassFacts.
Context {L : PyLib}.

Lemma verdict_eqb_eq (a b : verdict) : verdict_eqb a b = true <-> a = b.
Proof. destruct a, b; simpl; split; intro H; try discriminate; reflexivity. Qed.











(** A result whose verdict is not '错误' comes out of the pass as it
    went in. *)
Corollary relevance_check_keeps_other_verdicts (r r' : result) :
  result_rechecked r r' -> r_validation_result r <> Incorrect -> r' = r.
Proof. intros [H|[H _]]; [auto|contradiction]. Qed.

(** A result whose verdict is '错误' comes out with '错误' or '搜不到'. *)
Corollary relevance_check_incorrect (r r' : result) :
  result_rechecked r r' -> r_validation_result r = Incorrect ->
  r_validation_result r' = Incorrect \/ r_validation_result r' = NotFound.
Proof.
  intros [->|[_ [d ->]]] H; [now left|now right].
Qed.

End RelevancePassFacts.



(** ** The batch *)

Section BatchFacts.
Context {L : PyLib}.

Lemma details_prefix_nonempty (p rest : pystr) : truthy p = true -> p ++ rest <> [].
Proof. destruct p; [discriminate|]. intros _. discriminate. Qed.

Ltac worker_cases env :=
  unfold task_result, _search_single_product, search_body, bind, call, update, ret;
  cbn [q_row_index q_model q_excel_energy_level];
  repeat match goal with
         | |- context [te_raises env ?s] =>
           let E := fresh "E" in destruct (te_raises env s) eqn:E
         end;
  try match goal with
      | |- context [te_search_product env ?m] =>
        let E := fresh "Es" in
        destruct (te_search_product env m) as [[[[|? ?]|]]|] eqn:E
      end;
  cbn [sd_list];
  try match goal with
      | |- context [extract_energy_levels ?x] =>
        destruct (extract_energy_levels x) as [|? ?]
      end;
  try match goal with
      | |- context [find_best_match ?x ?y] =>
        destruct (fst (find_best_match x y)) as [?|]
      end;
  try match goal with
      | |- context [compare_energy_levels ?x ?y] =>
        destruct (compare_energy_levels x y)
      end;
  cbn [fst snd set_details set_validation_result set_match set_search_success
       r_row_index r_original_model r_excel_energy_level r_search_success
       r_validation_result r_details r_thread_id].

(** The result of a task carries the row index and the model of its
    query, and a detail text. *)
Lemma task_result_query (env : task_env) (q : query) :
  r_row_index (task_result env q) = q_row_index q
  /\ r_original_model (task_result env q) = q_model q
  /\ r_excel_energy_level (task_result env q) = q_excel_energy_level q
  /\ r_details (task_result env q) <> [].
Proof.
  destruct q as [row model level].
  worker_cases env;
    (split; [reflexivity|]; split; [reflexivity|]; split; [reflexivity|]);
    first [ apply details_prefix_nonempty; reflexivity
          | intro H; vm_compute in H; discriminate H ].
Qed.

(** A task whose search fails, or one of whose calls raises, ends with
    the verdict '搜不到'. *)
Lemma task_result_failure (env : task_env) (q : query) :
  search_fails env q \/ stage_raises env ->
  r_validation_result (task_result env q) = NotFound.
Proof.
  destruct q as [row model level]. unfold search_fails, stage_raises.
  cbn [q_model]. intros Hfail.
  worker_cases env; try reflexivity;
    exfalso;
    (destruct Hfail as [Hf|(s & e & Hs)];
     [ try rewrite Es in Hf; cbn [sd_list] in Hf; exact Hf
     | destruct s; congruence ]).
Qed.

Lemma search_single_product_stats (env : task_env) (q : query) (st : stats) :
  fst (_search_single_product env q st) = task_result env q
  /\ total_processed (snd (_search_single_product env q st)) = total_processed st + 1.
Proof.
  unfold task_result, _search_single_product.
  destruct (search_body env (q_model q) (q_excel_energy_level q) _) as [r [[]|e]];
    split; reflexivity.
Qed.

Lemma collect_results_spec (envs : nat -> task_env) (products_data : list query)
      (completed : list nat) (results : list result) (st : stats) :
  fst (collect_results envs products_data completed results st)
  = results ++ collected envs products_data completed
  /\ total_processed (snd (collect_results envs products_data completed results st))
     = total_processed st
       + Z.of_nat (length (collected envs products_data completed)).
Proof.
  revert results st; induction completed as [|i rest IH]; intros results st.
  - cbn. rewrite app_nil_r. split; [reflexivity|lia].
  - cbn [collect_results collected flat_map].
    destruct (nth_error products_data i) as [q|]; [|apply IH].
    unfold future_result.
    destruct (search_single_product_stats (envs i) q st) as [Hr Ht].
    destruct (_search_single_product (envs i) q st) as [r st']. cbn [fst snd] in Hr, Ht.
    destruct (IH (results ++ [r]) st') as [H1 H2]. fold (collected envs products_data rest).
    rewrite H1, H2, Ht, Hr, <- app_assoc. cbn [app length]. split; [reflexivity|lia].
Qed.

Lemma collected_in_order_aux (envs : nat -> task_env) (pre suf : list query) :
  collected envs (pre ++ suf) (seq (length pre) (length suf))
  = map (fun '(i, q) => task_result (envs i) q)
        (combine (seq (length pre) (length suf)) suf).
Proof.
  revert pre; induction suf as [|q suf IH]; intros pre; [reflexivity|].
  cbn [length seq combine map collected flat_map].
  rewrite nth_error_app2, Nat.sub_diag by lia. cbn [nth_error app]. f_equal.
  specialize (IH (pre ++ [q])). rewrite <- app_assoc, length_app in IH.
  cbn [app length] in IH. rewrite Nat.add_1_r in IH. exact IH.
Qed.

Lemma collected_in_order (envs : nat -> task_env) (products_data : list query) :
  collected envs products_data (seq 0 (length products_data))
  = results_in_order envs products_data.
Proof. exact (collected_in_order_aux envs [] products_data). Qed.

(** Whatever the order of completion, the loop collects one result per
    submitted query. *)
Lemma collected_permutation (envs : nat -> task_env) (products_data : list query)
      (completed : list nat) :
  Permutation completed (seq 0 (length products_data)) ->
  Permutation (collected envs products_data completed)
              (results_in_order envs products_data).
Proof.
  intros H. rewrite <- collected_in_order. unfold collected.
  now apply Permutation_flat_map.
Qed.

Lemma results_in_order_length (envs : nat -> task_env) (products_data : list query) :
  length (results_in_order envs products_data) = length products_data.
Proof.
  unfold results_in_order. rewrite length_map, length_combine, length_seq. lia.
Qed.

Lemma results_in_order_rows_aux (envs : nat -> task_env) (data : list query) (k : nat) :
  map r_row_index (map (fun '(i, q) => task_result (envs i) q)
                       (combine (seq k (length data)) data))
  = map q_row_index data.
Proof.
  revert k; induction data as [|q data IH]; intros k; [reflexivity|].
  cbn [length seq combine map]. f_equal; [|apply IH].
  apply task_result_query.
Qed.

Lemma results_in_order_rows (envs : nat -> task_env) (products_data : list query) :
  map r_row_index (results_in_order envs products_data)
  = map q_row_index products_data.
Proof. apply results_in_order_rows_aux. Qed.

Lemma combine_seq_in (data : list query) (k i : nat) (q : query) :
  nth_error data i = Some q ->
  In ((k + i)%nat, q) (combine (seq k (length data)) data).
Proof.
  revert k i; induction data as [|q0 data IH]; intros k i; [now destruct i|].
  destruct i as [|i]; cbn [nth_error length seq combine].
  - intros H. injection H as ->. left. f_equal. lia.
  - intros H. right. replace (k + S i)%nat with (S k + i)%nat by lia. now apply IH.
Qed.

Lemma results_in_order_in (envs : nat -> task_env) (products_data : list query)
      (i : nat) (q : query) :
  nth_error products_data i = Some q ->
  In (task_result (envs i) q) (results_in_order envs products_data).
Proof.
  intros H. unfold results_in_order. apply in_map_iff.
  exists (i, q). split; [reflexivity|]. exact (combine_seq_in products_data 0 i q H).
Qed.

(** *** The sort by row index *)

Lemma insert_by_row_index_perm (x : result) (l : list result) :
  Permutation (insert_by_row_index x l) (x :: l).
Proof.
  induction l as [|y l IH]; cbn [insert_by_row_index]; [reflexivity|].
  destruct (r_row_index x <? r_row_index y); [reflexivity|].
  rewrite IH. apply perm_swap.
Qed.

Lemma insert_by_row_index_sorted (x : result) (l : list result) :
  StronglySorted row_le l -> StronglySorted row_le (insert_by_row_index x l).
Proof.
  induction l as [|y l IH]; cbn [insert_by_row_index]; intros H.
  - repeat constructor.
  - apply StronglySorted_inv in H as [Hs Hall].
    destruct (Z.ltb_spec (r_row_index x) (r_row_index y)) as [Hlt|Hge].
    + constructor; [now constructor|].
      constructor; [unfold row_le; lia|].
      eapply Forall_impl; [|exact Hall]. unfold row_le. intros; lia.
    + constructor; [now apply IH|].
      eapply Permutation_Forall; [symmetry; apply insert_by_row_index_perm|].
      constructor; [exact Hge|exact Hall].
Qed.

Lemma sort_fold_spec (l acc : list result) :
  StronglySorted row_le acc ->
  let sorted := fold_left (fun sorted x => insert_by_row_index x sorted) l acc in
  Permutation sorted (l ++ acc) /\ StronglySorted row_le sorted.
Proof.
  revert acc; induction l as [|x l IH]; intros acc Hacc; cbn [fold_left app].
  - split; [reflexivity|exact Hacc].
  - destruct (IH _ (insert_by_row_index_sorted x acc Hacc)) as [Hp Hs].
    split; [|exact Hs]. rewrite Hp, insert_by_row_index_perm.
    symmetry. apply Permutation_middle.
Qed.

Lemma sort_by_row_index_spec (l : list result) :
  Permutation (sort_by_row_index l) l /\ StronglySorted row_le (sort_by_row_index l).
Proof.
  destruct (sort_fold_spec l [] (SSorted_nil _)) as [Hp Hs].
  rewrite app_nil_r in Hp. split; assumption.
Qed.

(** A list sorted by row index that is a permutation of a list with
    strictly increasing row indices is that list. *)
Lemma sorted_permutation_unique (l e : list result) :
  StronglySorted row_le l -> StronglySorted row_lt e -> Permutation l e -> l = e.
Proof.
  revert l; induction e as [|x e IH]; intros l Hl He Hp.
  - apply Permutation_sym, Permutation_nil in Hp. exact Hp.
  - destruct l as [|h t].
    { apply Permutation_nil in Hp. discriminate. }
    apply StronglySorted_inv in Hl as [Ht Hh].
    apply StronglySorted_inv in He as [He Hx].
    assert (Hhx : h = x).
    { pose proof (Permutation_in h Hp (or_introl eq_refl)) as [Hin|Hin]; [auto|].
      pose proof (Permutation_in x (Permutation_sym Hp) (or_introl eq_refl))
        as [Hin'|Hin']; [auto|].
      rewrite Forall_forall in Hh, Hx.
      specialize (Hx _ Hin). specialize (Hh _ Hin').
      unfold row_le, row_lt in *. lia. }
    subst h. f_equal. apply IH; auto. eapply Permutation_cons_inv; eauto.
Qed.

Lemma map_strongly_sorted (data : list result) :
  StronglySorted Z.lt (map r_row_index data) -> StronglySorted row_lt data.
Proof.
  induction data as [|x data IH]; cbn [map]; intros H; [constructor|].
  apply StronglySorted_inv in H as [Hs Hall]. constructor; [now apply IH|].
  rewrite Forall_map in Hall. exact Hall.
Qed.

(** *** [process_batch] *)

Lemma process_batch_returns (max_workers : Z) (st : stats) (envs : nat -> task_env)
      (completed : list nat) (elapsed : Q) (products_data : list query) :
  1 <= max_workers ->
  0 <= total_processed st ->
  Permutation completed (seq 0 (length products_data)) ->
  products_data <> [] ->
  ~ Qeq elapsed 0 ->
  process_batch max_workers st envs completed elapsed products_data
  = Returned (sort_by_row_index (collected envs products_data completed)).
Proof.
  intros Hw Hst Hperm Hne Hel. unfold process_batch.
  destruct (Z.leb_spec max_workers 0) as [Hle|_]; [lia|].
  destruct (collect_results_spec envs products_data completed [] st) as [H1 H2].
  destruct (collect_results envs products_data completed [] st) as [results st'].
  cbn [fst snd app] in H1, H2. subst results.
  unfold _print_final_stats.
  pose proof (Permutation_length (collected_permutation envs products_data completed Hperm))
    as Hlen.
  rewrite results_in_order_length in Hlen.
  assert (Hpos : (0 < length products_data)%nat)
    by (destruct products_data; [contradiction|cbn; lia]).
  destruct (Z.eqb_spec (total_processed st') 0) as [H0|_]; [lia|].
  destruct (Qeq_bool elapsed 0) eqn:Eq; [|reflexivity].
  apply Qeq_bool_iff in Eq. contradiction.
Qed.

(** A non-empty batch returns the collected results, one per query. *)
Lemma process_batch_collects (max_workers : Z) (st : stats) (envs : nat -> task_env)
      (completed : list nat) (elapsed : Q) (products_data : list query) :
  1 <= max_workers ->
  0 <= total_processed st ->
  Permutation completed (seq 0 (length products_data)) ->
  products_data <> [] ->
  ~ Qeq elapsed 0 ->
  exists results,
    process_batch max_workers st envs completed elapsed products_data = Returned results
    /\ Permutation results (results_in_order envs products_data)
    /\ StronglySorted row_le results.
Proof.
  intros Hw Hst Hperm Hne Hel.
  exists (sort_by_row_index (collected envs products_data completed)).
  destruct (sort_by_row_index_spec (collected envs products_data completed)) as [Hp Hs].
  split; [now apply process_batch_returns|]. split; [|exact Hs].
  rewrite Hp. now apply collected_permutation.
Qed.

(** C2 (as amended). For a non-empty batch, any number of workers from
    1 on and any order of completion, [process_batch] (when the closing
    report has a non-zero elapsed time to divide by) returns one result
    per submitted query, sorted by row index; when the row indices of the
    input are strictly increasing, the results are in the order of the
    input. *)
Theorem process_batch_input_order (max_workers : Z) (st : stats)
        (envs : nat -> task_env) (completed : list nat) (elapsed : Q)
        (products_data : list query) :
  1 <= max_workers ->
  0 <= total_processed st ->
  Permutation completed (seq 0 (length products_data)) ->
  products_data <> [] ->
  ~ Qeq elapsed 0 ->
  exists results,
    process_batch max_workers st envs completed elapsed products_data = Returned results
    /\ Permutation results (results_in_order envs products_data)
    /\ length results = length products_data
    /\ StronglySorted row_le results
    /\ (StronglySorted Z.lt (map q_row_index products_data) ->
        results = results_in_order envs products_data
        /\ map r_row_index results = map q_row_index products_data).
Proof.
  intros Hw Hst Hperm Hne Hel.
  exists (sort_by_row_index (collected envs products_data completed)).
  destruct (sort_by_row_index_spec (collected envs products_data completed)) as [Hp Hs].
  pose proof (collected_permutation envs products_data completed Hperm) as Hc.
  assert (Hpr : Permutation (sort_by_row_index (collected envs products_data completed))
                            (results_in_order envs products_data))
    by (now rewrite Hp).
  split; [now apply process_batch_returns|].
  split; [exact Hpr|].
  split; [now rewrite (Permutation_length Hpr), results_in_order_length|].
  split; [exact Hs|].
  intros Hsorted.
  assert (E : sort_by_row_index (collected envs products_data completed)
              = results_in_order envs products_data).
  { apply sorted_permutation_unique; auto.
    apply map_strongly_sorted. now rewrite results_in_order_rows. }
  split; [exact E|]. rewrite E. apply results_in_order_rows.
Qed.

(** An empty batch ends in the division by the number of processed
    queries in the closing report. *)
Lemma process_batch_empty (max_workers : Z) (envs : nat -> task_env)
      (completed : list nat) (elapsed : Q) :
  1 <= max_workers ->
  process_batch max_workers initial_stats envs completed elapsed []
  = Raised (u "division by zero").
Proof.
  intros Hw. unfold process_batch.
  destruct (Z.leb_spec max_workers 0) as [Hle|_]; [lia|].
  assert (E : collect_results envs [] completed [] initial_stats = ([], initial_stats)).
  { induction completed as [|i rest IH]; [reflexivity|].
    cbn [collect_results]. now destruct i. }
  rewrite E. reflexivity.
Qed.

(** C3. In a batch, a query whose search fails or one of whose calls
    raises still gets a result, with the verdict '搜不到' and a detail
    text; and the results of the other queries are the same whatever
    happens to that query. *)
Theorem process_batch_failure_isolation (max_workers : Z) (st : stats)
        (envs : nat -> task_env) (completed : list nat) (elapsed : Q)
        (products_data : list query) (i : nat) (q : query) :
  1 <= max_workers ->
  0 <= total_processed st ->
  Permutation completed (seq 0 (length products_data)) ->
  ~ Qeq elapsed 0 ->
  nth_error products_data i = Some q ->
  search_fails (envs i) q \/ stage_raises (envs i) ->
  exists results,
    process_batch max_workers st envs completed elapsed products_data = Returned results
    /\ Permutation results (results_in_order envs products_data)
    /\ In (task_result (envs i) q) results
    /\ r_row_index (task_result (envs i) q) = q_row_index q
    /\ r_original_model (task_result (envs i) q) = q_model q
    /\ r_validation_result (task_result (envs i) q) = NotFound
    /\ r_details (task_result (envs i) q) <> []
    /\ (forall (envs' : nat -> task_env) (completed' : list nat),
           (forall j, j <> i -> envs' j = envs j) ->
           Permutation completed' (seq 0 (length products_data)) ->
           exists results',
             process_batch max_workers st envs' completed' elapsed products_data
             = Returned results'
             /\ forall j q', j <> i -> nth_error products_data j = Some q' ->
                   In (task_result (envs j) q') results
                   /\ In (task_result (envs j) q') results').
Proof.
  intros Hw Hst Hperm Hel Hq Hfail.
  assert (Hne : products_data <> []) by (intros ->; now destruct i).
  destruct (process_batch_collects max_workers st envs completed elapsed
              products_data Hw Hst Hperm Hne Hel) as (results & Hret & Hp & _).
  exists results. split; [exact Hret|]. split; [exact Hp|].
  destruct (task_result_query (envs i) q) as (Hrow & Hmodel & _ & Hdet).
  split; [eapply Permutation_in; [symmetry; exact Hp|now apply results_in_order_in]|].
  split; [exact Hrow|]. split; [exact Hmodel|].
  split; [now apply task_result_failure|]. split; [exact Hdet|].
  intros envs' completed' Hagree Hperm'.
  destruct (process_batch_collects max_workers st envs' completed' elapsed
              products_data Hw Hst Hperm' Hne Hel) as (results' & Hret' & Hp' & _).
  exists results'. split; [exact Hret'|].
  intros j q' Hj Hq'. split.
  - eapply Permutation_in; [symmetry; exact Hp|now apply results_in_order_in].
  - eapply Permutation_in; [symmetry; exact Hp'|].
    rewrite <- (Hagree j Hj). now apply results_in_order_in.
Qed.

End BatchFacts.

(** *** Runs of the batch *)

(** C2 (counterexample). The queries are submitted with the row indices
    2 and 1; the results come back with the row indices 1 and 2. *)
Lemma process_batch_reorders_input :
  let products_data := [ query_of 2 "格力KFR-26GW" "一级"; query_of 1 "格力KFR-35GW" "一级" ] in
  exists results,
    process_batch 1 initial_stats (fun _ => no_network) [0%nat; 1%nat] 1 products_data
    = Returned results
    /\ map r_row_index results = [1; 2]
    /\ map r_row_index results <> map q_row_index products_data.
Proof.
  eexists. split; [vm_compute; reflexivity|]. split; [reflexivity|discriminate].
Qed.

Lemma process_batch_input_order_witness :
  let products_data :=
    [ query_of 1 "格力KFR-35GW" "一级"; query_of 2 "RF12WPdF/NhA-N1JY01(含管)" "一级";
      query_of 3 "格力GMV-DH120WL/Dc1" "一级" ] in
  exists results,
    process_batch 3 initial_stats (fun _ => no_network) [2%nat; 0%nat; 1%nat] 1
                  products_data = Returned results
    /\ Permutation results (results_in_order (fun _ => no_network) products_data)
    /\ length results = length products_data
    /\ StronglySorted row_le results
    /\ (StronglySorted Z.lt (map q_row_index products_data) ->
        results = results_in_order (fun _ => no_network) products_data
        /\ map r_row_index results = map q_row_index products_data).
Proof.
  intros products_data.
  apply (process_batch_input_order 3 initial_stats (fun _ => no_network)
           [2%nat; 0%nat; 1%nat] 1 products_data).
  - lia.
  - simpl. lia.
  - apply (perm_trans (l' := [0%nat; 2%nat; 1%nat]));
      [apply perm_swap|apply perm_skip, perm_swap].
  - discriminate.
  - intro H. discriminate H.
Defined.

Lemma process_batch_failure_isolation_witness :
  let products_data :=
    [ query_of 1 "格力KFR-35GW" "一级"; query_of 2 "美的KFR-26GW" "二级" ] in
  let envs := fun j : nat => if (j =? 1)%nat then search_raises else no_network in
  exists results,
    process_batch 2 initial_stats envs [1%nat; 0%nat] 1 products_data = Returned results
    /\ In (task_result (envs 1%nat) (query_of 2 "美的KFR-26GW" "二级")) results
    /\ r_validation_result (task_result (envs 1%nat) (query_of 2 "美的KFR-26GW" "二级"))
       = NotFound.
Proof.
  intros products_data envs.
  destruct (process_batch_failure_isolation 2 initial_stats envs [1%nat; 0%nat] 1
              products_data 1 (query_of 2 "美的KFR-26GW" "二级"))
    as (results & Hret & _ & Hin & _ & _ & Hv & _).
  - lia.
  - simpl. lia.
  - apply perm_swap.
  - intro H. discriminate H.
  - reflexivity.
  - right. exists SearchProduct, (u "connection reset"). reflexivity.
  - exists results. auto.
Defined.

(** ** Scenarios *)

Example verdict_correct :
  compare_energy_levels (PyStr (u "一级")) (PyStr (u "1")) = Correct.
Proof. reflexivity. Qed.

Example verdict_declared_missing :
  compare_energy_levels (PyStr (u "")) (PyStr (u "2级")) = DeclaredMissing.
Proof. reflexivity. Qed.

Example verdict_incorrect :
  compare_energy_levels (PyStr (u "三级")) (PyStr (u "V")) = Incorrect.
Proof. reflexivity. Qed.

Example verdict_not_found :
  compare_energy_levels (PyStr (u "三级")) PyNone = NotFound.
Proof. reflexivity. Qed.

Example extract_model_samples :
  extract_model (u "格力KFR-35GW/(35586)FNhAb-B1(WIFI）") = u "KFR-35GW/(35586)FNhAb-B1(WIFI）"
  /\ extract_model (u "RF12WPdF/NhA-N1JY01(含管)") = u "RF12WPdF/NhA-N1JY01(含管)"
  /\ extract_model (u "TCL KFRd-35GW/D-XQ11Bp(A1)") = u "KFRd-35GW/D-XQ11Bp(A1)"
  /\ extract_model (u "米家无线吸尘器2") = u "2"
  /\ extract_model (u "小米电脑椅2017版") = u "电脑椅2017版".
Proof. repeat split; vm_compute; reflexivity. Qed.

Example score_exact_canonical :
  score_match (u "格力KFR-35GW/X") (u "KFR-35GW/X")
    {| c_model := u "KFR-35GW/X"; c_energy_level := u "一级"; c_producer := u "格力";
       c_record_number := []; c_product_type := []; c_announcement_time := [] |}
  = inject_Z 95.
Proof. reflexivity. Qed.

(** The cases listed in [relevance_checker.main], with the answers
    expected there. *)
Example relevance_samples :
  is_relevant_match (u "米家无线吸尘器2") (u "电脑椅2017版") [] [] = false
  /\ is_relevant_match (u "格力KFR-35GW") (u "KFR-35GW/FNhAa-B1") [] [] = true
  /\ is_relevant_match (u "美的空调KFR-26GW") (u "格力KFR-26GW") [] [] = false
  /\ is_relevant_match (u "海尔BCD-215") (u "BCD-215WDPV") [] [] = true
  /\ is_relevant_match (u "小米净化器3") (u "空气净化器Pro") [] [] = true.
Proof. repeat split; vm_compute; reflexivity. Qed.

Example latest_record_kept :
  let r (m t l : string) :=
    {| productModel := u m; nxLever := JStr (u l); producerName := [];
       registrationNumber := []; productType := []; announcementTime := u t |} in
  map (fun c => (c_model c, c_energy_level c, c_announcement_time c))
      (extract_energy_levels
         (Some {| sd_list :=
                    Some [ r "A"%string "2019-05-01"%string "2"%string;
                           r "B"%string "2020-01-01"%string "3"%string;
                           r "A"%string "2021-03-01"%string "1"%string;
                           r "A"%string "2021-03-01"%string "4"%string ] |}))
  = [ (u "A", u "一级", u "2021-03-01"); (u "B", u "三级", u "2020-01-01") ].
Proof. vm_compute. reflexivity. Qed.

(* ===================================================================== *)
(** * Further properties of the sources *)
(* ===================================================================== *)

(** ** Substrings *)

Lemma startswith_app (p rest : pystr) : startswith (p ++ rest) p = true.
Proof.
  induction p as [|x p IH]; cbn [app]; [now destruct rest|].
  cbn [startswith]. now rewrite Z.eqb_refl, IH.
Qed.

Lemma startswith_split (s p : pystr) :
  startswith s p = true -> exists rest, s = p ++ rest.
Proof.
  revert s; induction p as [|y p IH]; intros s H; [now exists s|].
  destruct s as [|x s]; [discriminate|]. cbn [startswith] in H.
  apply andb_true_iff in H as [Hx Hs]. apply Z.eqb_eq in Hx. subst.
  destruct (IH s Hs) as [rest ->]. now exists rest.
Qed.

(** [p in s] holds exactly when [s] is [p] with text around it. *)
Lemma str_in_iff (p s : pystr) :
  str_in p s = true <-> exists pre post, s = pre ++ p ++ post.
Proof.
  split.
  - induction s as [|x s IH]; cbn [str_in]; intros H.
    + rewrite orb_false_r in H. apply startswith_split in H as [rest ->].
      now exists [], rest.
    + apply orb_true_iff in H as [H|H].
      * apply startswith_split in H as [rest ->]. now exists [], rest.
      * destruct (IH H) as (pre & post & ->). now exists (x :: pre), post.
  - intros (pre & post & ->). induction pre as [|x pre IH]; cbn [app].
    + apply startswith_str_in, startswith_app.
    + cbn [str_in]. rewrite IH. apply orb_true_r.
Qed.

Lemma str_in_refl (s : pystr) : str_in s s = true.
Proof. apply str_in_iff. exists [], []. now rewrite app_nil_r. Qed.

Lemma str_in_trans (a b c : pystr) :
  str_in a b = true -> str_in b c = true -> str_in a c = true.
Proof.
  rewrite !str_in_iff. intros (p1 & q1 & ->) (p2 & q2 & ->).
  exists (p2 ++ p1), (q1 ++ q2). now rewrite <- !app_assoc.
Qed.

Lemma str_in_firstn_self (n : nat) (s : pystr) : str_in (firstn n s) s = true.
Proof.
  apply str_in_iff. exists [], (skipn n s). cbn [app]. symmetry. apply firstn_skipn.
Qed.

Lemma str_in_skipn_self (n : nat) (s : pystr) : str_in (skipn n s) s = true.
Proof.
  apply str_in_iff. exists (firstn n s), []. rewrite app_nil_r. symmetry.
  apply firstn_skipn.
Qed.

Lemma str_in_strip_self (s : pystr) : str_in (strip s) s = true.
Proof.
  unfold strip. destruct (rstrip_firstn (lstrip s)) as [n ->].
  destruct (lstrip_skipn s) as [k ->].
  eapply str_in_trans; [apply str_in_firstn_self|apply str_in_skipn_self].
Qed.

Lemma str_in_empty (s : pystr) : str_in [] s = true.
Proof. apply str_in_iff. now exists [], s. Qed.

(** ** The identifier normaliser, continued *)

Section ExtractorMoreFacts.
Context {L : PyLib}.

Lemma strip_listed_brand_some (brands : list pystr) (m r : pystr) :
  strip_listed_brand brands m = Some r -> exists n, r = strip (skipn n m).
Proof.
  induction brands as [|b brands IH]; cbn [strip_listed_brand]; [discriminate|].
  destruct (startswith m b); [|exact IH].
  intros H. injection H as <-. eauto.
Qed.

(** The shapes of the result of [extract_model]. *)
Lemma extract_model_shape (x : pystr) :
  extract_model x = []
  \/ extract_model x = strip x
  \/ (exists n, extract_model x = strip (skipn n (strip x)))
  \/ extract_model x = strip (generic_middle (strip x)).
Proof.
  unfold extract_model.
  destruct (truthy x); cbn [negb]; [|now left].
  set (m := strip x).
  destruct (truthy m); cbn [negb]; [|now left].
  assert (Hlisted : forall brands r,
             strip_listed_brand brands m = Some r ->
             exists n, r = strip (skipn n m))
    by (intros; eapply strip_listed_brand_some; eauto).
  destruct (_has_version_suffix m).
  - unfold _extract_with_version_suffix.
    destruct (startswith m (u "格力")); [right; right; left; eauto|].
    destruct (startswith m (u "美的空调")); [right; right; left; eauto|].
    destruct (strip_listed_brand _ m) as [r|] eqn:E; [|now right; left].
    right; right; left. eauto.
  - destruct (startswith m (u "格力")); [right; right; left; eauto|].
    destruct (startswith m (u "美的空调")); [right; right; left; eauto|].
    destruct (strip_listed_brand _ m) as [r|] eqn:E; [right; right; left; eauto|].
    destruct (startswith m (u "RF")); [now right; left|].
    rewrite extract_generic_unfold.
    destruct (_ <? _)%nat; [|now right; left].
    destruct (_ <? _)%nat; [|now right; left].
    destruct (truthy (generic_middle m)); [now right; right; right|now right; left].
Qed.

(** The search key never carries white space at either end. *)
Theorem extract_model_trimmed (x : pystr) :
  strip (extract_model x) = extract_model x.
Proof.
  destruct (extract_model_shape x) as [H|[H|[[n H]|H]]]; rewrite H;
    [reflexivity|apply strip_idem..].
Qed.

(** The search key is a contiguous part of the original identifier. *)
Theorem extract_model_substring (x : pystr) :
  str_in (extract_model x) x = true.
Proof.
  destruct (extract_model_shape x) as [H|[H|[[n H]|H]]]; rewrite H.
  - apply str_in_empty.
  - apply str_in_strip_self.
  - eapply str_in_trans; [apply str_in_strip_self|].
    eapply str_in_trans; [apply str_in_skipn_self|apply str_in_strip_self].
  - eapply str_in_trans; [apply str_in_strip_self|].
    eapply str_in_trans; [|apply str_in_strip_self].
    unfold generic_middle, slice.
    eapply str_in_trans; [apply str_in_firstn_self|apply str_in_skipn_self].
Qed.

(** White space around the identifier does not change the search key,
    and an identifier of white space only has the empty key. *)
Theorem extract_model_strip (x : pystr) :
  extract_model (strip x) = extract_model x
  /\ (strip x = [] -> extract_model x = []).
Proof.
  split.
  - unfold extract_model. rewrite strip_idem.
    destruct x as [|c x']; [reflexivity|]. cbn [truthy negb].
    destruct (strip (c :: x')) as [|d m]; reflexivity.
  - intros H. unfold extract_model. rewrite H.
    destruct (truthy x); reflexivity.
Qed.

End ExtractorMoreFacts.

Section ExtractionInfoFacts.
Context {L : PyLib}.

Lemma firstn_run_len_all (cls : Z -> bool) (s : pystr) :
  forallb cls (firstn (run_len cls s) s) = true.
Proof.
  induction s as [|c s IH]; [reflexivity|]. cbn [run_len].
  destruct (cls c) eqn:E; [|reflexivity]. cbn [firstn forallb]. now rewrite E, IH.
Qed.

Lemma skipn_run_len_rev_all (cls : Z -> bool) (s : pystr) :
  forallb cls (skipn (length s - run_len cls (rev s)) s) = true.
Proof.
  rewrite <- (rev_involutive (skipn _ s)), <- firstn_rev.
  apply forallb_rev, firstn_run_len_all.
Qed.

Lemma slice_partition (m : pystr) (a b : nat) :
  (a <= b)%nat -> firstn a m ++ slice m a b ++ skipn b m = m.
Proof.
  intros H. unfold slice.
  assert (E : skipn b m = skipn (b - a) (skipn a m))
    by (rewrite skipn_skipn; f_equal; lia).
  now rewrite E, !firstn_skipn.
Qed.

(** [get_extraction_info] reports the result of the generic rule, and
    the prefix and the suffix it reports as removed are runs of Chinese
    characters that, put around the text between them, give the trimmed
    identifier back. *)
Theorem get_extraction_info_parts (x : pystr) :
  let info := get_extraction_info x in
  let m := strip x in
  ei_original info = x
  /\ ei_extracted info = _extract_generic m
  /\ forallb is_chinese (ei_removed_prefix info) = true
  /\ forallb is_chinese (ei_removed_suffix info) = true
  /\ ei_removed_prefix info
     ++ (if (run_len is_chinese m <? length m)%nat then generic_middle m else m)
     ++ ei_removed_suffix info = m
  /\ ei_changed info
     = negb (length (ei_removed_prefix info) + length (ei_removed_suffix info) =? 0)%nat.
Proof.
  cbv zeta. unfold get_extraction_info.
  destruct x as [|c x'].
  { cbn. repeat split; reflexivity. }
  cbn [truthy negb]. set (x := c :: x'). set (m := strip x).
  destruct m as [|d m'] eqn:Em.
  { cbn. repeat split; reflexivity. }
  rewrite <- Em. cbn [truthy negb].
  replace (truthy m) with true by (now rewrite Em). cbn [negb].
  rewrite extract_generic_unfold, !first_non_chinese_run, length_rev.
  destruct (run_len is_chinese m <? length m)%nat eqn:E1.
  - apply Nat.ltb_lt in E1. pose proof (run_rev_bound m E1) as Hb.
    assert (E2 : (run_len is_chinese (rev m) <? length m)%nat = true)
      by (apply Nat.ltb_lt; lia).
    rewrite E2. cbn [ei_original ei_extracted ei_removed_prefix ei_removed_suffix
                     ei_changed Nat.add].
    fold (generic_middle m).
    split; [reflexivity|]. split; [reflexivity|].
    split; [apply firstn_run_len_all|]. split; [apply skipn_run_len_rev_all|].
    split.
    + unfold generic_middle. apply slice_partition. lia.
    + destruct (firstn _ m), (skipn _ m); reflexivity.
  - cbn. rewrite app_nil_r. repeat split; reflexivity.
Qed.

End ExtractionInfoFacts.

(** ** The order of the announcement times *)

Lemma str_ltb_irrefl (a : pystr) : str_ltb a a = false.
Proof.
  induction a as [|x a IH]; [reflexivity|]. cbn [str_ltb].
  now rewrite Z.ltb_irrefl, Z.eqb_refl, IH.
Qed.

Lemma str_ltb_trichotomy (a b : pystr) :
  str_ltb a b = true \/ a = b \/ str_ltb b a = true.
Proof.
  revert b; induction a as [|x a IH]; intros [|y b]; cbn [str_ltb]; auto.
  destruct (Z.lt_total x y) as [H|[H|H]].
  - left. apply Z.ltb_lt in H. now rewrite H.
  - subst. rewrite Z.ltb_irrefl, Z.eqb_refl. cbn [orb andb].
    destruct (IH b) as [H|[H|H]]; subst; auto.
  - right; right. apply Z.ltb_lt in H. now rewrite H.
Qed.

Lemma str_ltb_asym (a b : pystr) : str_ltb a b = true -> str_ltb b a = false.
Proof.
  revert b; induction a as [|x a IH]; intros [|y b]; cbn [str_ltb];
    try discriminate; try reflexivity.
  intros H. apply orb_true_iff in H as [H|H].
  - apply Z.ltb_lt in H.
    replace (y <? x) with false by (symmetry; apply Z.ltb_ge; lia).
    replace (y =? x) with false by (symmetry; apply Z.eqb_neq; lia). reflexivity.
  - apply andb_true_iff in H as [Hx Hs]. apply Z.eqb_eq in Hx. subst.
    now rewrite Z.ltb_irrefl, Z.eqb_refl, (IH b Hs).
Qed.

Lemma str_ltb_trans (a b c : pystr) :
  str_ltb a b = true -> str_ltb b c = true -> str_ltb a c = true.
Proof.
  revert b c; induction a as [|x a IH]; intros [|y b] [|z c]; cbn [str_ltb];
    try discriminate; try reflexivity.
  intros H1 H2.
  apply orb_true_iff in H1 as [H1|H1]; apply orb_true_iff in H2 as [H2|H2].
  - apply Z.ltb_lt in H1, H2.
    replace (x <? z) with true by (symmetry; apply Z.ltb_lt; lia). reflexivity.
  - apply andb_true_iff in H2 as [Hy _]. apply Z.eqb_eq in Hy. subst. now rewrite H1.
  - apply andb_true_iff in H1 as [Hx _]. apply Z.eqb_eq in Hx. subst. now rewrite H2.
  - apply andb_true_iff in H1 as [Hx H1]. apply andb_true_iff in H2 as [Hy H2].
    apply Z.eqb_eq in Hx, Hy. subst. rewrite Z.eqb_refl, (IH _ _ H1 H2).
    apply orb_true_r.
Qed.

Lemma str_ltb_empty (a : pystr) : str_ltb [] a = truthy a.
Proof. now destruct a. Qed.

Lemma str_ltb_nothing (a : pystr) : str_ltb a [] = false.
Proof. now destruct a. Qed.

(** [_compare_time_strings] is the three-way comparison of the order of
    strings, in which the empty time is the least: it answers 1, -1 or 0
    as the first time is greater, smaller or the same, and swapping the
    arguments negates the answer. *)
Theorem compare_time_strings_order (time1 time2 : pystr) :
  ((_compare_time_strings time1 time2 = 1 /\ str_ltb time2 time1 = true)
   \/ (_compare_time_strings time1 time2 = -1 /\ str_ltb time1 time2 = true)
   \/ (_compare_time_strings time1 time2 = 0 /\ time1 = time2))
  /\ _compare_time_strings time2 time1 = - _compare_time_strings time1 time2.
Proof.
  unfold _compare_time_strings.
  destruct time1 as [|x a], time2 as [|y b]; cbn [truthy negb andb]; auto 10.
  set (t1 := x :: a). set (t2 := y :: b).
  destruct (str_ltb_trichotomy t1 t2) as [H|[H|H]].
  - rewrite H, (str_ltb_asym _ _ H). auto 10.
  - rewrite H, str_ltb_irrefl. auto 10.
  - rewrite H, (str_ltb_asym _ _ H). auto 10.
Qed.

Lemma compare_time_strings_positive (time1 time2 : pystr) :
  (0 <? _compare_time_strings time1 time2) = str_ltb time2 time1.
Proof.
  unfold _compare_time_strings.
  destruct time1 as [|x a], time2 as [|y b]; cbn [truthy negb andb]; try reflexivity.
  set (t1 := x :: a). set (t2 := y :: b).
  destruct (str_ltb t2 t1) eqn:E; [reflexivity|].
  destruct (str_ltb t1 t2); reflexivity.
Qed.

(** [_get_latest_record] returns the first record of the group that
    carries the greatest announcement time: the records before it are
    strictly older, the records after it are not newer. *)
Theorem get_latest_record_first_greatest (first : candidate) (rest : list candidate) :
  exists before after,
    first :: rest = before ++ _get_latest_record first rest :: after
    /\ (forall r, In r before ->
          str_ltb (c_announcement_time r)
                  (c_announcement_time (_get_latest_record first rest)) = true)
    /\ (forall r, In r after ->
          str_ltb (c_announcement_time (_get_latest_record first rest))
                  (c_announcement_time r) = false).
Proof.
  unfold _get_latest_record.
  assert (G : forall rest latest before after,
             (forall r, In r before ->
                str_ltb (c_announcement_time r) (c_announcement_time latest) = true) ->
             (forall r, In r after ->
                str_ltb (c_announcement_time latest) (c_announcement_time r) = false) ->
             let final :=
               fold_left
                 (fun latest_record record =>
                    if 0 <? _compare_time_strings (c_announcement_time record)
                                                  (c_announcement_time latest_record)
                    then record else latest_record) rest latest in
             exists before' after',
               before ++ latest :: after ++ rest = before' ++ final :: after'
               /\ (forall r, In r before' ->
                     str_ltb (c_announcement_time r) (c_announcement_time final) = true)
               /\ (forall r, In r after' ->
                     str_ltb (c_announcement_time final) (c_announcement_time r) = false)).
  { clear. induction rest as [|r rest IH]; intros latest before after Hb Ha; cbn [fold_left].
    - exists before, after. now rewrite app_nil_r.
    - rewrite compare_time_strings_positive.
      destruct (str_ltb (c_announcement_time latest) (c_announcement_time r)) eqn:E.
      + destruct (IH r (before ++ latest :: after) [])
          as (b' & a' & Heq & Hb' & Ha').
        * intros y Hy. apply in_app_or in Hy as [Hy|[Hy|Hy]].
          -- eapply str_ltb_trans; [apply Hb, Hy|exact E].
          -- now subst.
          -- specialize (Ha y Hy).
             destruct (str_ltb_trichotomy (c_announcement_time y)
                                          (c_announcement_time latest)) as [H|[H|H]].
             ++ eapply str_ltb_trans; eauto.
             ++ now rewrite H.
             ++ congruence.
        * intros y [].
        * exists b', a'. split; [|now split].
          rewrite <- Heq. cbn [app]. now rewrite <- !app_assoc.
      + destruct (IH latest before (after ++ [r])) as (b' & a' & Heq & Hb' & Ha').
        * exact Hb.
        * intros y Hy. apply in_app_or in Hy as [Hy|[Hy|[]]]; [now apply Ha|now subst].
        * exists b', a'. split; [|now split].
          rewrite <- Heq. now rewrite <- !app_assoc. }
  destruct (G rest first [] []) as (b & a & Heq & Hb & Ha); [intros r []..|].
  exists b, a. cbn [app] in Heq. now split.
Qed.

(** ** Deduplication, continued *)

Lemma filter_filter_and {A : Type} (f g : A -> bool) (l : list A) :
  filter f (filter g l) = filter (fun x => f x && g x) l.
Proof.
  induction l as [|x l IH]; [reflexivity|]. cbn [filter].
  destruct (g x); cbn [filter]; rewrite ?andb_true_r, ?andb_false_r;
    [destruct (f x)|]; now rewrite IH.
Qed.

Lemma group_append_keys_list (r : candidate) (g : model_groups_t) :
  map fst (group_append r g)
  = if str_mem (c_model r) (map fst g) then map fst g
    else map fst g ++ [c_model r].
Proof.
  induction g as [|[model [first rest]] g IH]; [reflexivity|].
  cbn [group_append map fst str_mem existsb].
  destruct (str_eqb (c_model r) model) eqn:E; [reflexivity|].
  cbn [map fst orb]. rewrite IH. unfold str_mem.
  now destruct (existsb (str_eqb (c_model r)) (map fst g)).
Qed.

Lemma group_fold_keys (records : list candidate) (acc : model_groups_t) :
  map fst (fold_left (fun groups record => group_append record groups) records acc)
  = map fst acc
    ++ filter (fun m => negb (str_mem m (map fst acc)))
              (first_occurrences (map c_model records)).
Proof.
  revert acc; induction records as [|r records IH]; intros acc.
  - cbn. now rewrite app_nil_r.
  - cbn [fold_left map first_occurrences filter]. rewrite IH, group_append_keys_list.
    rewrite filter_filter_and.
    destruct (str_mem (c_model r) (map fst acc)) eqn:E; cbn [negb].
    + f_equal. apply filter_ext_in. intros m _.
      destruct (str_eqb m (c_model r)) eqn:Em; [|now rewrite andb_true_r].
      apply str_eqb_eq in Em. subst. now rewrite E.
    + rewrite <- app_assoc. cbn [app]. do 2 f_equal.
      apply filter_ext. intros m. unfold str_mem. rewrite existsb_app.
      cbn [map existsb]. rewrite orb_false_r, negb_orb. reflexivity.
Qed.

Lemma group_append_from (P : candidate -> Prop) (r : candidate) (g : model_groups_t) :
  P r ->
  Forall (fun x => P (fst (snd x)) /\ Forall P (snd (snd x))) g ->
  Forall (fun x => P (fst (snd x)) /\ Forall P (snd (snd x))) (group_append r g).
Proof.
  intros Hr. induction g as [|[model [first rest]] g IH]; cbn [group_append]; intros H.
  - repeat constructor. exact Hr.
  - inversion H as [|? ? [Hf Hrest] Hg]; subst. cbn [fst snd] in *.
    destruct (str_eqb (c_model r) model).
    + constructor; [|exact Hg]. cbn [fst snd]. split; [exact Hf|].
      apply Forall_app. split; [exact Hrest|now constructor].
    + constructor; [now split|now apply IH].
Qed.

Lemma group_fold_from (P : candidate -> Prop) (records : list candidate)
      (acc : model_groups_t) :
  Forall P records ->
  Forall (fun x => P (fst (snd x)) /\ Forall P (snd (snd x))) acc ->
  Forall (fun x => P (fst (snd x)) /\ Forall P (snd (snd x)))
         (fold_left (fun groups record => group_append record groups) records acc).
Proof.
  revert acc; induction records as [|r records IH]; intros acc Hr Hacc; [exact Hacc|].
  inversion Hr; subst. cbn [fold_left]. apply IH; [assumption|].
  now apply group_append_from.
Qed.

Lemma filter_latest_records_in (records : list candidate) (c : candidate) :
  In c (_filter_latest_records records) -> In c records.
Proof.
  intros Hc. unfold _filter_latest_records in Hc.
  destruct records as [|r0 records]; [exact Hc|].
  set (l := r0 :: records) in *.
  assert (Hfrom := group_fold_from (fun r => In r l) l [] ltac:(now apply Forall_forall)
                                   (Forall_nil _)).
  fold (group_by_model l) in Hfrom. rewrite Forall_forall in Hfrom.
  apply in_map_iff in Hc as ([model [first rest]] & Hpick & Hin).
  destruct (Hfrom _ Hin) as [Hf Hrest]. cbn [fst snd] in *.
  destruct rest as [|r rest]; [now subst|].
  subst c. destruct (get_latest_record_in first (r :: rest)) as [H|H].
  - now rewrite <- H.
  - rewrite Forall_forall in Hrest. now apply Hrest.
Qed.

(** [_filter_latest_records] keeps records of its input only, and lists
    them in the order in which their models first occur. *)
Theorem filter_latest_records_order (records : list candidate) :
  (forall c, In c (_filter_latest_records records) -> In c records)
  /\ map c_model (_filter_latest_records records)
     = first_occurrences (map c_model records).
Proof.
  split; [apply filter_latest_records_in|].
  rewrite filter_latest_models. unfold group_by_model. rewrite group_fold_keys.
  cbn [map app str_mem existsb negb]. apply forallb_filter_id.
  now apply forallb_forall.
Qed.

Lemma group_fold_distinct (records before : list candidate) :
  NoDup (map c_model (before ++ records)) ->
  fold_left (fun groups record => group_append record groups) records
            (map (fun r => (c_model r, (r, []))) before)
  = map (fun r => (c_model r, (r, []))) (before ++ records).
Proof.
  revert before; induction records as [|r records IH]; intros before Hnd.
  - cbn. now rewrite app_nil_r.
  - cbn [fold_left].
    assert (E : group_append r (map (fun r => (c_model r, (r, @nil candidate))) before)
                = map (fun r => (c_model r, (r, [])))  (before ++ [r])).
    { rewrite map_app in Hnd. cbn [map] in Hnd. apply NoDup_remove_2 in Hnd.
      assert (Hnot : ~ In (c_model r) (map c_model before))
        by (intros H; apply Hnd, in_or_app; now left).
      clear -Hnot. induction before as [|b before IH]; [reflexivity|].
      cbn [map app group_append].
      destruct (str_eqb (c_model r) (c_model b)) eqn:E.
      - apply str_eqb_eq in E. exfalso. apply Hnot. left. now symmetry.
      - f_equal. apply IH. intros H. apply Hnot. now right. }
    rewrite E, IH; rewrite <- app_assoc; [reflexivity|exact Hnd].
Qed.

(** Records with pairwise distinct models pass [_filter_latest_records]
    unchanged; so filtering a second time changes nothing. *)
Theorem filter_latest_records_idempotent (records : list candidate) :
  (NoDup (map c_model records) -> _filter_latest_records records = records)
  /\ _filter_latest_records (_filter_latest_records records)
     = _filter_latest_records records.
Proof.
  assert (Hid : forall l, NoDup (map c_model l) -> _filter_latest_records l = l).
  { intros l Hnd. unfold _filter_latest_records. destruct l as [|r0 l]; [reflexivity|].
    unfold group_by_model.
    pose proof (group_fold_distinct (r0 :: l) [] Hnd) as E.
    change (map (fun r => (c_model r, (r, @nil candidate))) []) with (@nil (pystr * (candidate * list candidate))) in E.
    rewrite E. cbn [app].
    rewrite map_map. cbn [fst snd]. apply map_id. }
  split; [apply Hid|]. apply Hid. apply filter_latest_records_spec.
Qed.

Lemma filter_latest_records_idempotent_witness :
  let c (m t : string) :=
    {| c_model := u m; c_energy_level := u "一级"; c_producer := [];
       c_record_number := []; c_product_type := []; c_announcement_time := u t |} in
  let records := [ c "KFR-35GW"%string "2020-01-01"%string;
                   c "KFR-26GW"%string "2021-01-01"%string ] in
  NoDup (map c_model records) /\ _filter_latest_records records = records.
Proof.
  intros c records.
  assert (Hnd : NoDup (map c_model records)).
  { apply NoDup_cons; [|apply NoDup_cons; [intros []|apply NoDup_nil]].
    intros [H|[]]. vm_compute in H. discriminate H. }
  split; [exact Hnd|].
  exact (proj1 (filter_latest_records_idempotent records) Hnd).
Defined.

Lemma digits_of_truthy (fuel : nat) (n : Z) (acc : pystr) :
  truthy acc = true -> truthy (digits_of fuel n acc) = true.
Proof.
  revert n acc; induction fuel as [|fuel IH]; intros n acc H; [exact H|].
  cbn [digits_of]. destruct (n <? 10); [reflexivity|]. now apply IH.
Qed.

Lemma str_of_int_truthy (n : Z) : truthy (str_of_int n) = true.
Proof.
  unfold str_of_int. destruct (n <? 0); [reflexivity|].
  cbn [digits_of]. destruct (n <? 10); [reflexivity|]. now apply digits_of_truthy.
Qed.

Lemma to_candidate_level_truthy (r : raw_record) :
  json_truthy (nxLever r) = true -> truthy (c_energy_level (to_candidate r)) = true.
Proof.
  intros H. unfold to_candidate. cbn [c_energy_level].
  assert (Hs : truthy (json_str (nxLever r)) = true).
  { destruct (nxLever r) as [|s|n]; cbn in *; [discriminate|exact H|].
    apply str_of_int_truthy. }
  unfold level_map. cbn [dict_get].
  repeat match goal with
         | |- context [if str_eqb ?a ?b then _ else _] => destruct (str_eqb a b)
         end; try reflexivity. exact Hs.
Qed.

(** Every candidate of [extract_energy_levels] is built from an input
    record whose level is set, and carries a level text that is not
    empty; without a search result, or without its list, there is no
    candidate. *)
Theorem extract_energy_levels_candidates :
  extract_energy_levels None = []
  /\ extract_energy_levels (Some {| sd_list := None |}) = []
  /\ forall (l : list raw_record) (c : candidate),
       In c (extract_energy_levels (Some {| sd_list := Some l |})) ->
       truthy (c_energy_level c) = true
       /\ exists r, In r l /\ json_truthy (nxLever r) = true /\ c = to_candidate r.
Proof.
  split; [reflexivity|]. split; [reflexivity|].
  intros l c Hc. cbn [extract_energy_levels sd_list] in Hc.
  apply filter_latest_records_in in Hc.
  apply in_map_iff in Hc as (r & <- & Hr). apply filter_In in Hr as [Hin Ht].
  split; [now apply to_candidate_level_truthy|]. now exists r.
Qed.

(** ** The retry loop of the search *)

Section SearchProductFacts.
Context {L : PyLib}.

Lemma search_attempt_data (resp : response) (attempt max_retries : nat)
      (d : search_data) :
  search_attempt resp attempt max_retries = Return (Some d) -> resp = RespData d.
Proof.
  destruct resp; cbn [search_attempt];
    repeat match goal with
           | |- context [if ?b then _ else _] => destruct b
           end; intros H; try discriminate H.
  now injection H as ->.
Qed.

Lemma search_loop_spec (responses : nat -> response)
      (max_retries attempt remaining : nat) :
  (snd (search_loop responses max_retries attempt remaining) <= remaining)%nat
  /\ forall d,
       fst (search_loop responses max_retries attempt remaining) = Some d ->
       exists k,
         snd (search_loop responses max_retries attempt remaining) = S k
         /\ responses (attempt + k)%nat = RespData d.
Proof.
  revert attempt; induction remaining as [|remaining IH]; intros attempt;
    cbn [search_loop].
  - split; [cbn; lia|]. intros d H. discriminate H.
  - destruct (search_attempt (responses attempt) attempt max_retries) as [r|] eqn:E.
    + cbn [fst snd]. split; [lia|]. intros d ->.
      exists O. split; [reflexivity|]. rewrite Nat.add_0_r.
      eapply search_attempt_data; eauto.
    + destruct (IH (S attempt)) as [Hle Hd].
      destruct (search_loop responses max_retries (S attempt) remaining) as [r n].
      cbn [fst snd] in *. split; [lia|]. intros d Hr.
      destruct (Hd d Hr) as (k & -> & Hk). exists (S k). split; [reflexivity|].
      now rewrite Nat.add_succ_r.
Qed.

(** [search_product] sends at most [max_retries] requests, and data it
    returns are the data of the last request it sent; with no attempt
    allowed it sends nothing and returns nothing. *)
Theorem search_product_attempts (responses : nat -> response) (max_retries : nat) :
  (snd (search_product responses max_retries) <= max_retries)%nat
  /\ (forall d,
        fst (search_product responses max_retries) = Some d ->
        exists k, snd (search_product responses max_retries) = S k
                  /\ responses k = RespData d)
  /\ search_product responses 0 = (None, O).
Proof.
  unfold search_product.
  destruct (search_loop_spec responses max_retries 0 max_retries) as [H1 H2].
  split; [exact H1|]. split; [exact H2|reflexivity].
Qed.

(** An answer of the registry that is an error other than an
    authentication or a rate error ends the search at once, although
    attempts are left. *)
Theorem search_product_gives_up (responses : nat -> response) (max_retries : nat)
        (msg : pystr) :
  responses O = RespApiError msg ->
  str_in (u "token") (str_lower msg) = false ->
  str_in (u "auth") (str_lower msg) = false ->
  str_in (u "limit") (str_lower msg) = false ->
  str_in (u "frequent") (str_lower msg) = false ->
  (0 < max_retries)%nat ->
  search_product responses max_retries = (None, 1%nat).
Proof.
  intros Hr H1 H2 H3 H4 Hn. unfold search_product.
  destruct max_retries as [|n]; [lia|]. cbn [search_loop].
  rewrite Hr. cbn [search_attempt]. now rewrite H1, H2, H3, H4.
Qed.

End SearchProductFacts.

Lemma search_product_gives_up_witness :
  let responses := fun i : nat =>
    match i with
    | O => RespApiError (u "参数错误")
    | S _ => RespData {| sd_list := Some [] |}
    end in
  search_product responses 3 = (None, 1%nat).
Proof.
  intros responses.
  apply (search_product_gives_up responses 3 (u "参数错误")); try reflexivity. lia.
Defined.

(** ** The power specification *)

Section PowerSpecFacts.
Context {L : PyLib}.

Lemma greedy_down_some {A : Type} (n lo : nat) (s : pystr)
      (k : pystr -> pystr -> option A) (r : A) :
  greedy_down n lo s k = Some r ->
  exists j, (j <= n)%nat /\ k (firstn j s) (skipn j s) = Some r.
Proof.
  induction n as [|n IH]; cbn [greedy_down].
  - destruct (lo =? 0)%nat; [|discriminate]. intros H. exists O. split; [lia|exact H].
  - destruct (S n <? lo)%nat; [discriminate|].
    destruct (k (firstn (S n) s) (skipn (S n) s)) as [r'|] eqn:E.
    + intros H. injection H as <-. exists (S n). split; [lia|exact E].
    + intros H. destruct (IH H) as (j & Hj & Hk). exists j. split; [lia|exact Hk].
Qed.

Lemma firstn_within_run (cls : Z -> bool) (j : nat) (s : pystr) :
  (j <= run_len cls s)%nat -> forallb cls (firstn j s) = true.
Proof.
  revert j; induction s as [|c s IH]; intros j Hj; [now destruct j|].
  destruct j as [|j]; [reflexivity|]. cbn [run_len] in Hj.
  destruct (cls c) eqn:E; [|lia]. cbn [firstn forallb]. rewrite E. apply IH. lia.
Qed.

Lemma re_plus_group {A : Type} (cls : Z -> bool) (lo : nat) (s : pystr)
      (k : pystr -> pystr -> option A) (r : A) :
  re_plus cls lo s k = Some r ->
  exists g rest, forallb cls g = true /\ k g rest = Some r.
Proof.
  unfold re_plus. intros H. apply greedy_down_some in H as (j & Hj & Hk).
  exists (firstn j s), (skipn j s). split; [now apply firstn_within_run|exact Hk].
Qed.

Lemma re_search_some {A : Type} (m : pystr -> option A) (s : pystr) (r : A) :
  re_search m s = Some r -> exists s', m s' = Some r.
Proof.
  induction s as [|c s IH]; cbn [re_search].
  - destruct (m []) eqn:E; [|discriminate]. intros H. injection H as <-. eauto.
  - destruct (m (c :: s)) eqn:E; [intros H; injection H as <-; eauto|exact IH].
Qed.

Lemma re_opt_ci_some {A : Type} (p : Z) (s : pystr) (k : pystr -> option A) (r : A) :
  re_opt_ci p s k = Some r -> exists s', k s' = Some r.
Proof.
  unfold re_opt_ci. destruct s as [|c s]; [eauto|].
  destruct (re_ci p c); [|eauto].
  destruct (k s) eqn:E; [intros H; injection H as <-; eauto|eauto].
Qed.

Lemma power_pattern_digits (pattern : pystr -> option pystr) (s g : pystr) :
  In pattern [ power_pattern_kfr_gw; power_pattern_gw; power_pattern_kfr ] ->
  pattern s = Some g -> forallb re_digit g = true.
Proof.
  intros [<-|[<-|[<-|[]]]].
  - unfold power_pattern_kfr_gw. destruct (re_lit_ci (u "KF") s) as [s1|]; [|discriminate].
    intros H. apply re_opt_ci_some in H as (s2 & H).
    destruct (re_lit_ci (u "-") s2) as [s3|]; [|discriminate].
    apply re_plus_group in H as (g' & rest & Hg & Hk).
    destruct (re_lit_ci (u "GW") rest); [|discriminate]. now injection Hk as <-.
  - unfold power_pattern_gw. intros H.
    apply re_plus_group in H as (g' & rest & Hg & Hk).
    destruct (re_lit_ci (u "GW") rest); [|discriminate]. now injection Hk as <-.
  - unfold power_pattern_kfr. destruct (re_lit_ci (u "KF") s) as [s1|]; [|discriminate].
    intros H. apply re_opt_ci_some in H as (s2 & H).
    destruct (re_lit_ci (u "-") s2) as [s3|]; [|discriminate].
    apply re_plus_group in H as (g' & rest & Hg & Hk). now injection Hk as <-.
Qed.

(** The power specification extracted from a model consists of digits
    only (it is empty when no pattern matches). *)
Theorem extract_power_spec_digits (model : pystr) :
  forallb re_digit (extract_power_spec model) = true.
Proof.
  unfold extract_power_spec.
  assert (G : forall patterns,
             (forall p, In p patterns ->
                In p [ power_pattern_kfr_gw; power_pattern_gw; power_pattern_kfr ]) ->
             forallb re_digit (first_power_match patterns model) = true).
  { induction patterns as [|p patterns IH]; intros Hp; [reflexivity|].
    cbn [first_power_match].
    destruct (re_search p model) as [g|] eqn:E.
    - apply re_search_some in E as (s' & E).
      eapply power_pattern_digits; [apply Hp; now left|exact E].
    - apply IH. intros q Hq. apply Hp. now right. }
  apply G. auto.
Qed.

End PowerSpecFacts.

(** ** The best candidate *)

Lemma Qlt_bool_true (a b : Q) : Qlt_bool a b = true <-> (a < b)%Q.
Proof.
  unfold Qlt_bool. rewrite negb_true_iff. split.
  - intros H. apply Qnot_le_lt. intros Hle. apply Qle_bool_iff in Hle. congruence.
  - intros H. destruct (Qle_bool b a) eqn:E; [|reflexivity].
    apply Qle_bool_iff in E. exfalso. eapply Qlt_not_le; eauto.
Qed.

Lemma Qlt_bool_false (a b : Q) : Qlt_bool a b = false <-> (b <= a)%Q.
Proof.
  unfold Qlt_bool. rewrite negb_false_iff. apply Qle_bool_iff.
Qed.

Section BestMatchMoreFacts.
Context {L : PyLib}.

(** The head of the list sorted by score: the first of the elements
    with the greatest score. *)
Lemma sort_by_score_head_aux (l processed : list (Q * candidate))
      (h : Q * candidate) (t before after : list (Q * candidate)) :
  processed = before ++ h :: after ->
  (forall y, In y before -> (fst y < fst h)%Q) ->
  (forall y, In y after -> (fst y <= fst h)%Q) ->
  exists h' t' before' after',
    fold_left (fun sorted x => insert_by_score x sorted) l (h :: t) = h' :: t'
    /\ processed ++ l = before' ++ h' :: after'
    /\ (forall y, In y before' -> (fst y < fst h')%Q)
    /\ (forall y, In y after' -> (fst y <= fst h')%Q).
Proof.
  revert processed h t before after.
  induction l as [|x l IH]; intros processed h t before after Hp Hb Ha.
  - exists h, t, before, after. rewrite app_nil_r. auto.
  - cbn [fold_left insert_by_score].
    destruct (Qlt_bool (fst h) (fst x)) eqn:E.
    + apply Qlt_bool_true in E.
      destruct (IH (processed ++ [x]) x (h :: t) processed [])
        as (h' & t' & b' & a' & H1 & H2 & H3 & H4).
      * reflexivity.
      * intros y Hy. rewrite Hp in Hy. apply in_app_or in Hy as [Hy|[Hy|Hy]].
        -- eapply Qlt_trans; [apply Hb, Hy|exact E].
        -- now subst.
        -- eapply Qle_lt_trans; [apply Ha, Hy|exact E].
      * intros y [].
      * exists h', t', b', a'. rewrite <- app_assoc in H2. auto.
    + apply Qlt_bool_false in E.
      destruct (IH (processed ++ [x]) h (insert_by_score x t) before (after ++ [x]))
        as (h' & t' & b' & a' & H1 & H2 & H3 & H4).
      * rewrite Hp, <- app_assoc. reflexivity.
      * exact Hb.
      * intros y Hy. apply in_app_or in Hy as [Hy|[Hy|[]]]; [now apply Ha|now subst].
      * exists h', t', b', a'. rewrite <- app_assoc in H2. auto.
Qed.

Lemma sort_by_score_head (x : Q * candidate) (l : list (Q * candidate)) :
  exists h t before after,
    sort_by_score (x :: l) = h :: t
    /\ x :: l = before ++ h :: after
    /\ (forall y, In y before -> (fst y < fst h)%Q)
    /\ (forall y, In y after -> (fst y <= fst h)%Q).
Proof.
  unfold sort_by_score. cbn [fold_left insert_by_score].
  destruct (sort_by_score_head_aux l [x] x [] [] []) as (h & t & b & a & H);
    [reflexivity|intros y []..|].
  exists h, t, b, a. exact H.
Qed.

Lemma map_eq_app_cons {A B : Type} (f : A -> B) (l : list A) (b1 : list B) (y : B)
      (b2 : list B) :
  map f l = b1 ++ y :: b2 ->
  exists l1 x l2, l = l1 ++ x :: l2 /\ map f l1 = b1 /\ f x = y /\ map f l2 = b2.
Proof.
  revert l; induction b1 as [|z b1 IH]; intros [|a l] H; try discriminate.
  - cbn in H. injection H as H1 H2. exists [], a, l. auto.
  - cbn in H. injection H as H1 H2. destruct (IH l H2) as (l1 & x & l2 & -> & E1 & E2 & E3).
    exists (a :: l1), x, l2. cbn. rewrite E1, H1. auto.
Qed.

(** For a successful search result with candidates, [find_best_match]
    returns one of the candidates: none scores higher, and those listed
    before it score strictly lower (of equal best scores the first
    listed wins).  Without success or without candidates it returns
    none. *)
Theorem find_best_match_maximal (sr : search_result) (original_model : pystr) :
  let extracted_model :=
    match sr_extracted_model sr with Some m => m | None => original_model end in
  let score := score_match original_model extracted_model in
  (sr_search_success sr = true -> sr_energy_levels sr <> [] ->
   exists best before after,
     fst (find_best_match sr original_model) = Some best
     /\ sr_energy_levels sr = before ++ best :: after
     /\ (forall c, In c before -> (score c < score best)%Q)
     /\ (forall c, In c after -> (score c <= score best)%Q))
  /\ (sr_search_success sr = false \/ sr_energy_levels sr = [] ->
      fst (find_best_match sr original_model) = None).
Proof.
  cbv zeta. split.
  - intros Hs Hne. unfold find_best_match. rewrite Hs. cbn [negb orb].
    destruct (sr_energy_levels sr) as [|c0 [|c1 l]] eqn:El; [contradiction|..].
    + exists c0, [], []. cbn [fst app]. split; [reflexivity|]. split; [reflexivity|].
      split; intros c [].
    + set (cs := c0 :: c1 :: l).
      set (f := fun candidate =>
                  (score_match original_model
                     match sr_extracted_model sr with
                     | Some m => m
                     | None => original_model
                     end candidate, candidate)).
      destruct (sort_by_score_head (f c0) (map f (c1 :: l)))
        as (h & t & b & a & Hsort & Hsplit & Hb & Ha).
      change (f c0 :: map f (c1 :: l)) with (map f cs) in Hsort, Hsplit.
      rewrite Hsort. destruct h as [best_score best_match]. cbn [fst].
      apply map_eq_app_cons in Hsplit as (l1 & x & l2 & Hcs & E1 & E2 & E3).
      unfold f in E2. injection E2 as E2 E2'. subst x.
      exists best_match, l1, l2. split; [reflexivity|]. split; [exact Hcs|].
      cbn [fst] in Hb, Ha. rewrite <- E2 in Hb, Ha. split.
      * intros c Hc. apply (Hb (f c)). rewrite <- E1. now apply in_map.
      * intros c Hc. apply (Ha (f c)). rewrite <- E3. now apply in_map.
  - intros [Hs|Hl]; unfold find_best_match.
    + now rewrite Hs.
    + rewrite Hl. now destruct (sr_search_success sr).
Qed.

End BestMatchMoreFacts.

Lemma find_best_match_maximal_witness :
  let c (m p : string) :=
    {| c_model := u m; c_energy_level := u "一级"; c_producer := u p;
       c_record_number := []; c_product_type := []; c_announcement_time := [] |} in
  let sr := {| sr_search_success := true;
               sr_energy_levels := [ c "KFR-26GW/A"%string "美的"%string;
                                     c "KFR-35GW/B"%string "格力"%string ];
               sr_extracted_model := Some (u "KFR-35GW") |} in
  exists best before after,
    fst (find_best_match sr (u "格力KFR-35GW")) = Some best
    /\ sr_energy_levels sr = before ++ best :: after
    /\ c_model best = u "KFR-35GW/B".
Proof.
  intros c sr.
  destruct (proj1 (find_best_match_maximal sr (u "格力KFR-35GW")))
    as (best & before & after & Hbest & Hsplit & _).
  - reflexivity.
  - discriminate.
  - exists best, before, after. split; [exact Hbest|]. split; [exact Hsplit|].
    assert (E : fst (find_best_match sr (u "格力KFR-35GW"))
                = Some (c "KFR-35GW/B"%string "格力"%string))
      by (vm_compute; reflexivity).
    rewrite E in Hbest. now injection Hbest as <-.
Defined.

(** ** Brand names *)

Section BrandFacts.
Context {L : PyLib}.

Lemma alias_equivalent_refl (b : pystr) : alias_equivalent b b = true.
Proof. unfold alias_equivalent. now rewrite str_eqb_refl. Qed.

Lemma alias_equivalent_sym (a b : pystr) : alias_equivalent a b = alias_equivalent b a.
Proof.
  unfold alias_equivalent. rewrite (str_eqb_sym (str_lower a)). f_equal.
  apply existsb_eq_on, Forall_forall. intros family _. apply andb_comm.
Qed.

(** [brands_similar] accepts a brand and itself, rejects an empty brand,
    and its reading of the alias table does not depend on the order of
    the two brands. *)
Theorem brands_similar_alias_table (a b : pystr) :
  (truthy a = true -> brands_similar a a = true)
  /\ brands_similar [] b = false
  /\ brands_similar a [] = false
  /\ alias_equivalent a b = alias_equivalent b a
  /\ (truthy a = true -> truthy b = true -> alias_equivalent a b = true ->
      brands_similar a b = true /\ brands_similar b a = true).
Proof.
  split; [|split; [|split; [|split]]].
  - intros Ha. unfold brands_similar. rewrite Ha. cbn [negb orb].
    now rewrite alias_equivalent_refl.
  - reflexivity.
  - unfold brands_similar. cbn [truthy negb]. now rewrite orb_true_r.
  - apply alias_equivalent_sym.
  - intros Ha Hb H. unfold brands_similar. rewrite Ha, Hb. cbn [negb orb].
    now rewrite <- (alias_equivalent_sym a b), H.
Qed.

Lemma brand_normalization_values (brand v : pystr) :
  dict_get brand brand_normalization = Some v ->
  In v [ u "格力"; u "美的"; u "海尔"; u "奥克斯"; u "志高"; u "海信"; u "三星"; u "松下" ].
Proof.
  unfold brand_normalization. cbn [dict_get In].
  repeat match goal with
         | |- context [if str_eqb brand ?x then _ else _] => destruct (str_eqb brand x)
         end;
    intro H; inversion H; subst; auto 10.
Qed.

Lemma dict_get_in {V : Type} (key : pystr) (d : list (pystr * V)) (v : V) :
  dict_get key d = Some v -> In (key, v) d.
Proof.
  induction d as [|[k w] d IH]; cbn [dict_get]; intros Hd; [discriminate|].
  destruct (str_eqb key k) eqn:E.
  - apply str_eqb_eq in E. injection Hd as <-. subst. now left.
  - right. now apply IH.
Qed.

Lemma brand_normalization_aliases (brand v : pystr) :
  dict_get brand brand_normalization = Some v ->
  plain brand = true /\ plain v = true
  /\ alias_equivalent (L := ascii_lib) brand v = true.
Proof.
  intros H.
  assert (T : forallb (fun kv => plain (fst kv) && plain (snd kv)
                                 && alias_equivalent (L := ascii_lib) (fst kv) (snd kv))
                      brand_normalization = true) by (vm_compute; reflexivity).
  pose proof (dict_get_in _ _ _ H) as Hin.
  rewrite forallb_forall in T. specialize (T _ Hin). cbn [fst snd] in T.
  apply andb_true_iff in T as [T T3]. apply andb_true_iff in T as [T1 T2]. auto.
Qed.

(** [normalize_brand_name] is idempotent, keeps the empty name empty,
    and maps every non-empty name to a name that [brands_similar] takes
    for the same brand. *)
Theorem normalize_brand_name_canonical (brand : pystr) :
  normalize_brand_name (normalize_brand_name brand) = normalize_brand_name brand
  /\ normalize_brand_name [] = []
  /\ (truthy brand = true ->
      truthy (normalize_brand_name brand) = true
      /\ brands_similar brand (normalize_brand_name brand) = true).
Proof.
  split; [|split; [reflexivity|]].
  - destruct (truthy brand) eqn:Ht.
    + destruct (dict_get brand brand_normalization) as [v|] eqn:E.
      * assert (EN : normalize_brand_name brand = v)
          by (unfold normalize_brand_name; now rewrite Ht, E).
        rewrite EN. pose proof (brand_normalization_values _ _ E) as Hv.
        cbn [In] in Hv. repeat (destruct Hv as [<-|Hv]; [reflexivity|]). destruct Hv.
      * assert (EN : normalize_brand_name brand = brand)
          by (unfold normalize_brand_name; now rewrite Ht, E).
        now rewrite !EN.
    + assert (EN : normalize_brand_name brand = [])
        by (unfold normalize_brand_name; now rewrite Ht).
      now rewrite EN.
  - intros Ht. destruct (dict_get brand brand_normalization) as [v|] eqn:E.
    + assert (EN : normalize_brand_name brand = v)
        by (unfold normalize_brand_name; now rewrite Ht, E).
      rewrite EN. pose proof (brand_normalization_values _ _ E) as Hv.
      destruct (brand_normalization_aliases _ _ E) as (Hpb & Hpv & Ha).
      assert (Htv : truthy v = true).
      { cbn [In] in Hv. repeat (destruct Hv as [<-|Hv]; [reflexivity|]). destruct Hv. }
      split; [exact Htv|].
      unfold brands_similar. rewrite Ht, Htv. cbn [negb orb].
      now rewrite (alias_equivalent_plain _ _ Hpb Hpv), Ha.
    + assert (EN : normalize_brand_name brand = brand)
        by (unfold normalize_brand_name; now rewrite Ht, E).
      rewrite EN. split; [exact Ht|].
      unfold brands_similar. rewrite Ht. cbn [negb orb].
      now rewrite alias_equivalent_refl.
Qed.

End BrandFacts.

Lemma brands_similar_alias_table_witness :
  truthy (u "GREE") = true /\ truthy (u "格力") = true
  /\ alias_equivalent (u "GREE") (u "格力") = true
  /\ brands_similar (u "GREE") (u "格力") = true
  /\ brands_similar (u "格力") (u "GREE") = true.
Proof.
  split; [reflexivity|]. split; [reflexivity|]. split; [reflexivity|].
  apply (proj2 (proj2 (proj2 (proj2 (brands_similar_alias_table (u "GREE") (u "格力"))))));
    reflexivity.
Defined.

Lemma normalize_brand_name_canonical_witness :
  truthy (u "HAIER") = true
  /\ normalize_brand_name (u "HAIER") = u "海尔"
  /\ brands_similar (u "HAIER") (normalize_brand_name (u "HAIER")) = true.
Proof.
  split; [reflexivity|]. split; [reflexivity|].
  apply (proj2 (proj2 (normalize_brand_name_canonical (u "HAIER")))). reflexivity.
Defined.

(** ** Validation of single products and of batches *)

Section ValidationFacts.
Context {L : PyLib}.

(** [validate_single_product] answers '搜不到' for a failed search and
    for a search without candidates; otherwise the verdict is the
    comparison of the declared level with the level of the best match,
    which is recorded with the number of candidates found. *)
Theorem validate_single_product_verdict (original_model excel_energy_level : pystr)
        (input : validation_input) :
  let v := validate_single_product original_model excel_energy_level input in
  let sr := vi_search_result input in
  v_found_records v = length (sr_energy_levels sr)
  /\ v_search_success v = sr_search_success sr
  /\ v_matched_record v = fst (find_best_match sr original_model)
  /\ v_search_energy_level v = option_map c_energy_level (v_matched_record v)
  /\ v_validation_result v
     = match v_matched_record v with
       | Some best => compare_energy_levels (PyStr excel_energy_level)
                                            (PyStr (c_energy_level best))
       | None => NotFound
       end
  /\ v_details v <> [].
Proof.
  cbv zeta. unfold validate_single_product.
  destruct (sr_search_success (vi_search_result input)) eqn:Es; cbn [negb].
  - destruct (sr_energy_levels (vi_search_result input)) as [|c l] eqn:El.
    + assert (E : fst (find_best_match (vi_search_result input) original_model) = None)
        by (unfold find_best_match; now rewrite Es, El).
      cbn [v_found_records v_search_success v_matched_record v_search_energy_level
           v_validation_result v_details]. rewrite E.
      repeat split; try reflexivity. intro H; vm_compute in H; discriminate H.
    + destruct (fst (find_best_match (vi_search_result input) original_model))
        as [best|] eqn:E;
        cbn [v_found_records v_search_success v_matched_record v_search_energy_level
             v_validation_result v_details option_map].
      * repeat split; try reflexivity.
        destruct (compare_energy_levels _ _); apply details_prefix_nonempty; reflexivity.
      * repeat split; try reflexivity. apply details_prefix_nonempty. reflexivity.
  - assert (E : fst (find_best_match (vi_search_result input) original_model) = None)
      by (unfold find_best_match; now rewrite Es).
    cbn [v_found_records v_search_success v_matched_record v_search_energy_level
         v_validation_result v_details]. rewrite E.
    repeat split; try reflexivity. apply details_prefix_nonempty. reflexivity.
Qed.

Lemma validate_single_product_model (original_model excel_energy_level : pystr)
      (input : validation_input) :
  v_original_model (validate_single_product original_model excel_energy_level input)
  = original_model.
Proof.
  unfold validate_single_product.
  destruct (sr_search_success _); cbn [negb]; [|reflexivity].
  destruct (sr_energy_levels _); [reflexivity|].
  destruct (fst (find_best_match _ _)); reflexivity.
Qed.

(** [batch_validate] raises when the two lists differ in length;
    otherwise it returns one validation per product, in order, each with
    the row index and the model of its product. *)
Theorem batch_validate_rows (products_data : list query)
        (search_results : list validation_input) :
  (length products_data <> length search_results ->
   batch_validate products_data search_results
   = Raised (u "产品数据和搜索结果数量不匹配"))
  /\ (length products_data = length search_results ->
      exists results,
        batch_validate products_data search_results = Returned results
        /\ length results = length products_data
        /\ map v_row_index results = map (fun q => Some (q_row_index q)) products_data
        /\ map v_original_model results = map q_model products_data).
Proof.
  unfold batch_validate. split; intros H.
  - apply Nat.eqb_neq in H. now rewrite H.
  - rewrite (proj2 (Nat.eqb_eq _ _) H). cbn [negb]. eexists. split; [reflexivity|].
    revert search_results H.
    induction products_data as [|q pd IH]; intros [|sr srs] H; try discriminate H.
    + split; [reflexivity|]. split; reflexivity.
    + cbn [length] in H. injection H as H. destruct (IH srs H) as (H1 & H2 & H3).
      cbn [combine map length]. rewrite H1, H2, H3.
      split; [reflexivity|]. split; [reflexivity|]. f_equal.
      apply validate_single_product_model.
Qed.

Lemma count_validations_spec (results : list validation) (st : validation_statistics) :
  (Exists (fun r => v_validation_result r = DeclaredMissing) results ->
   count_validations st results = Raised (u "'Excel缺失'"))
  /\ (Forall (fun r => v_validation_result r <> DeclaredMissing) results ->
      exists st',
        count_validations st results = Returned st'
        /\ vs_total st' = vs_total st
        /\ vs_correct st' + vs_incorrect st' + vs_not_found st'
           = vs_correct st + vs_incorrect st + vs_not_found st
             + Z.of_nat (length results)
        /\ vs_search_succeeded st' + vs_search_failed st'
           = vs_search_succeeded st + vs_search_failed st + Z.of_nat (length results)
        /\ vs_records_found st' - vs_records_found st
           <= vs_search_succeeded st' - vs_search_succeeded st
        /\ vs_records_found st <= vs_records_found st'
        /\ vs_correct st <= vs_correct st'
        /\ vs_incorrect st <= vs_incorrect st'
        /\ vs_not_found st <= vs_not_found st'
        /\ vs_search_failed st <= vs_search_failed st').
Proof.
  revert st; induction results as [|r results IH]; intros st.
  - split; [intros H; inversion H|]. intros _. exists st. cbn. repeat split; lia.
  - cbn [count_validations]. split.
    + intros H. unfold count_validation.
      destruct (v_validation_result r) eqn:Ev; try reflexivity;
        (inversion H as [? ? Hr|? ? Hrest]; subst; [congruence|]);
        now apply IH.
    + intros H. inversion H as [|? ? Hr Hrest]; subst. unfold count_validation.
      destruct (v_validation_result r) eqn:Ev; [| | |contradiction];
        match goal with
        | |- context [count_validations ?s results] =>
          destruct (proj2 (IH s) Hrest) as (st' & E & H1 & H2 & H3 & H4 & H5 & H6 & H7 & H8 & H9)
        end;
        exists st'; cbn [vs_total vs_correct vs_incorrect vs_not_found
                         vs_search_succeeded vs_search_failed vs_records_found] in *;
        (split; [exact E|]); cbn [length];
        destruct (v_search_success r); cbn [andb] in *;
        try destruct (0 <? v_found_records r)%nat;
        repeat split; lia.
Qed.

(** [get_validation_statistics] raises a KeyError as soon as a result
    carries 'Excel缺失', for which it has no counter; otherwise the
    counters 正确, 错误 and 搜不到 add up to 总数, as do 搜索成功 and
    搜索失败, and 找到记录 does not exceed 搜索成功. *)
Theorem get_validation_statistics_counters (results : list validation) :
  (Exists (fun r => v_validation_result r = DeclaredMissing) results ->
   get_validation_statistics results = Raised (u "'Excel缺失'"))
  /\ (Forall (fun r => v_validation_result r <> DeclaredMissing) results ->
      exists st,
        get_validation_statistics results = Returned st
        /\ vs_total st = Z.of_nat (length results)
        /\ vs_correct st + vs_incorrect st + vs_not_found st = vs_total st
        /\ vs_search_succeeded st + vs_search_failed st = vs_total st
        /\ 0 <= vs_records_found st <= vs_search_succeeded st
        /\ 0 <= vs_correct st /\ 0 <= vs_incorrect st /\ 0 <= vs_not_found st
        /\ 0 <= vs_search_failed st).
Proof.
  unfold get_validation_statistics. split.
  - apply count_validations_spec.
  - intros H.
    match goal with
    | |- context [count_validations ?s results] =>
      destruct (proj2 (count_validations_spec results s) H)
        as (st & E & H1 & H2 & H3 & H4 & H5 & H6 & H7 & H8 & H9)
    end.
    exists st. cbn [vs_total vs_correct vs_incorrect vs_not_found
                    vs_search_succeeded vs_search_failed vs_records_found] in *.
    split; [exact E|]. repeat split; lia.
Qed.

End ValidationFacts.

(** ** The worker function, continued *)

Section WorkerMoreFacts.
Context {L : PyLib}.

Ltac worker_paths env :=
  unfold task_result, _search_single_product, search_body, bind, call, update, ret;
  cbn [q_row_index q_model q_excel_energy_level];
  repeat match goal with
         | |- context [te_raises env ?s] =>
           let E := fresh "E" in destruct (te_raises env s) eqn:E
         end;
  try match goal with
      | |- context [te_search_product env ?m] =>
        let E := fresh "Es" in
        destruct (te_search_product env m) as [[[[|? ?]|]]|] eqn:E
      end;
  cbn [sd_list];
  try match goal with
      | |- context [extract_energy_levels ?x] =>
        let E := fresh "El" in destruct (extract_energy_levels x) as [|? ?] eqn:E
      end;
  try match goal with
      | |- context [find_best_match ?x ?y] =>
        let E := fresh "Eb" in destruct (fst (find_best_match x y)) as [?|] eqn:E
      end;
  try match goal with
      | |- context [compare_energy_levels ?x ?y] =>
        let E := fresh "Ec" in destruct (compare_energy_levels x y) eqn:E
      end;
  cbn [fst snd set_details set_validation_result set_match set_search_success
       r_row_index r_original_model r_excel_energy_level r_search_success
       r_validation_result r_details r_thread_id r_search_energy_level
       r_matched_model r_producer].

(** A result of the worker function with a verdict other than '搜不到'
    comes from a task none of whose calls raised, is flagged as a
    successful search, and carries the matched model and the level the
    verdict was decided on; a result not flagged successful has the
    verdict '搜不到' and no match. *)
Theorem task_result_decided (env : task_env) (q : query) :
  let r := task_result env q in
  (r_validation_result r <> NotFound ->
   r_search_success r = true
   /\ (forall s, te_raises env s = None)
   /\ exists level model producer,
        r_search_energy_level r = Some level
        /\ r_matched_model r = Some model
        /\ r_producer r = Some producer
        /\ r_validation_result r
           = compare_energy_levels (PyStr (q_excel_energy_level q)) (PyStr level))
  /\ (r_search_success r = false ->
      r_validation_result r = NotFound /\ r_matched_model r = None
      /\ r_search_energy_level r = None).
Proof.
  cbv zeta. destruct q as [row model level].
  worker_paths env; (split; [intros Hv|intros Hs]);
    try (exfalso; apply Hv; reflexivity); try discriminate Hs;
    try (split; [reflexivity|split; reflexivity]).
  all: split; [reflexivity|]; (split; [intros s; destruct s; assumption|]);
    do 3 eexists; repeat (split; [reflexivity|]); symmetry; eassumption.
Qed.

(** When no call raises and the registry returns records, the worker
    function decides as [validate_single_product] does on the
    candidates extracted from those records. *)
Theorem task_result_agrees_with_validate (env : task_env) (q : query) (d : search_data)
        (record : raw_record) (records : list raw_record) :
  (forall s, te_raises env s = None) ->
  te_search_product env (extract_model (q_model q)) = Some d ->
  sd_list d = Some (record :: records) ->
  let input :=
    {| vi_search_result :=
         {| sr_search_success := true;
            sr_energy_levels := extract_energy_levels (Some d);
            sr_extracted_model := Some (extract_model (q_model q)) |};
       vi_error_message := None |} in
  let v := validate_single_product (q_model q) (q_excel_energy_level q) input in
  let r := task_result env q in
  r_validation_result r = v_validation_result v
  /\ r_search_energy_level r = v_search_energy_level v
  /\ r_matched_model r = option_map c_model (v_matched_record v)
  /\ r_search_success r = true.
Proof.
  intros Hno Hs Hl. cbv zeta. destruct q as [row model level].
  cbn [q_model q_excel_energy_level] in *.
  unfold task_result, _search_single_product, search_body, bind, call, update, ret.
  cbn [q_row_index q_model q_excel_energy_level].
  rewrite !Hno, Hs, Hl. unfold validate_single_product.
  cbn [vi_search_result sr_search_success sr_energy_levels negb].
  destruct (extract_energy_levels (Some d)) as [|c cs] eqn:El.
  - cbn. repeat split.
  - match goal with
    | |- context [find_best_match ?x ?y] =>
      destruct (fst (find_best_match x y)) as [best|] eqn:Eb
    end.
    + destruct (compare_energy_levels (PyStr level) (PyStr (c_energy_level best)));
        cbn; repeat split.
    + cbn. repeat split.
Qed.

Lemma update_stats_balance (success : bool) (st : stats) :
  total_processed (_update_stats success st) = total_processed st + 1
  /\ successful (_update_stats success st) + failed (_update_stats success st)
     = successful st + failed st + 1
  /\ rate_limited (_update_stats success st) = rate_limited st
  /\ successful st <= successful (_update_stats success st)
  /\ failed st <= failed (_update_stats success st).
Proof. destruct success; cbn; repeat split; lia. Qed.

Lemma search_single_product_balance (env : task_env) (q : query) (st : stats) :
  let st' := snd (_search_single_product env q st) in
  total_processed st' = total_processed st + 1
  /\ successful st' + failed st' = successful st + failed st + 1
  /\ rate_limited st' = rate_limited st
  /\ successful st <= successful st'
  /\ failed st <= failed st'.
Proof.
  cbv zeta. unfold _search_single_product.
  destruct (search_body env (q_model q) (q_excel_energy_level q) _) as [r [[]|e]];
    cbn [snd]; apply update_stats_balance.
Qed.

(** The counters of the processor stay balanced over the collection
    loop: every task collected adds one to the total and one to either
    the successes or the failures, and the counter of rate-limited
    requests is never touched. *)
Theorem collect_results_counters (envs : nat -> task_env) (products_data : list query)
        (completed : list nat) (results : list result) (st : stats) :
  let out := collect_results envs products_data completed results st in
  let n := Z.of_nat (length (fst out)) - Z.of_nat (length results) in
  total_processed (snd out) = total_processed st + n
  /\ successful (snd out) + failed (snd out) = successful st + failed st + n
  /\ rate_limited (snd out) = rate_limited st
  /\ successful st <= successful (snd out)
  /\ failed st <= failed (snd out).
Proof.
  cbv zeta. revert results st.
  induction completed as [|i rest IH]; intros results st; cbn [collect_results].
  - cbn [fst snd]. repeat split; lia.
  - destruct (nth_error products_data i) as [q|]; [|apply IH].
    unfold future_result.
    pose proof (search_single_product_balance (envs i) q st) as Hb. cbv zeta in Hb.
    destruct (_search_single_product (envs i) q st) as [r st']. cbn [snd] in Hb.
    specialize (IH (results ++ [r]) st').
    destruct (collect_results_spec envs products_data rest (results ++ [r]) st')
      as [Hres _].
    destruct (collect_results envs products_data rest (results ++ [r]) st')
      as [out st'']. cbn [fst snd] in *.
    assert (Hlen : Z.of_nat (length out) - Z.of_nat (length (results ++ [r]))
                   = Z.of_nat (length out) - Z.of_nat (length results) - 1)
      by (rewrite length_app; cbn [length]; lia).
    rewrite Hlen in IH. repeat split; lia.
Qed.

End WorkerMoreFacts.

(** ** The relevance pass, continued *)

Section RelevanceMoreFacts.
Context {L : PyLib}.

Lemma recheck_result_fixed (r : result) :
  r_validation_result r <> Incorrect -> recheck_result r = r.
Proof.
  intros H. unfold recheck_result.
  destruct (verdict_eqb (r_validation_result r) Incorrect) eqn:E; [|reflexivity].
  apply verdict_eqb_eq in E. contradiction.
Qed.

Lemma perform_relevance_check_map (results : list result) :
  _perform_relevance_check results = map recheck_result results.
Proof.
  unfold _perform_relevance_check.
  destruct (length _ =? 0)%nat eqn:E; [|reflexivity].
  apply Nat.eqb_eq, length_zero_iff_nil in E.
  symmetry. rewrite <- (map_id results) at 2. apply map_ext_in.
  intros r Hr. apply recheck_result_fixed. intros Hv.
  assert (Hin : In r (filter (fun r => verdict_eqb (r_validation_result r) Incorrect)
                             results))
    by (apply filter_In; split; [exact Hr|now apply verdict_eqb_eq]).
  rewrite E in Hin. destruct Hin.
Qed.

Lemma recheck_result_idem (r : result) :
  recheck_result (recheck_result r) = recheck_result r.
Proof.
  destruct (verdict_eqb (r_validation_result r) Incorrect) eqn:E.
  - destruct (negb (is_relevant_match (r_original_model r)
                      match r_matched_model r with Some m => m | None => [] end
                      [] [])) eqn:Er.
    + apply recheck_result_fixed. unfold recheck_result. rewrite E, Er.
      cbn. discriminate.
    + assert (Hr : recheck_result r = r)
        by (unfold recheck_result; now rewrite E, Er).
      now rewrite !Hr.
  - assert (Hr : recheck_result r = r)
      by (unfold recheck_result; now rewrite E).
    now rewrite !Hr.
Qed.

Lemma recheck_result_counts (r : result) (v : verdict) :
  (v = Correct \/ v = DeclaredMissing ->
   verdict_eqb (r_validation_result (recheck_result r)) v
   = verdict_eqb (r_validation_result r) v)
  /\ (verdict_eqb (r_validation_result (recheck_result r)) Incorrect = true ->
      verdict_eqb (r_validation_result r) Incorrect = true)
  /\ (verdict_eqb (r_validation_result (recheck_result r)) Incorrect
      || verdict_eqb (r_validation_result (recheck_result r)) NotFound
      = verdict_eqb (r_validation_result r) Incorrect
        || verdict_eqb (r_validation_result r) NotFound).
Proof.
  unfold recheck_result.
  destruct (r_validation_result r) eqn:Ev; cbn [verdict_eqb];
    try (rewrite Ev; cbn; repeat split; auto; fail).
  destruct (negb (is_relevant_match _ _ _ _)); cbn; rewrite ?Ev; cbn;
    repeat split; auto; intros [->| ->]; reflexivity.
Qed.

Lemma count_verdict_cons (v : verdict) (r : result) (l : list result) :
  count_verdict v (r :: l)
  = ((if verdict_eqb (r_validation_result r) v then 1 else 0) + count_verdict v l)%nat.
Proof. unfold count_verdict. cbn [filter]. now destruct (verdict_eqb _ v). Qed.

(** The relevance pass changes nothing when run a second time, keeps
    the number of results and the numbers of '正确' and of 'Excel缺失',
    and moves results from '错误' to '搜不到' only: the two numbers
    together stay the same, and the number of '错误' does not grow. *)
Theorem relevance_check_counts (results : list result) :
  let checked := _perform_relevance_check results in
  _perform_relevance_check checked = checked
  /\ length checked = length results
  /\ count_verdict Correct checked = count_verdict Correct results
  /\ count_verdict DeclaredMissing checked = count_verdict DeclaredMissing results
  /\ (count_verdict Incorrect checked <= count_verdict Incorrect results)%nat
  /\ (count_verdict Incorrect checked + count_verdict NotFound checked
      = count_verdict Incorrect results + count_verdict NotFound results)%nat.
Proof.
  cbv zeta. rewrite !perform_relevance_check_map. split.
  { rewrite map_map. apply map_ext. apply recheck_result_idem. }
  split; [apply length_map|].
  induction results as [|r results (H1 & H2 & H3 & H4)];
    [repeat split; reflexivity|].
  cbn [map]. rewrite !count_verdict_cons.
  destruct (recheck_result_counts r Correct) as (Hc & _ & _).
  destruct (recheck_result_counts r DeclaredMissing) as (Hd & Hi & Hs).
  rewrite (Hc (or_introl eq_refl)), (Hd (or_intror eq_refl)), H1, H2.
  split; [reflexivity|]. split; [reflexivity|].
  destruct (verdict_eqb (r_validation_result (recheck_result r)) Incorrect) eqn:E1;
    destruct (verdict_eqb (r_validation_result (recheck_result r)) NotFound) eqn:E2;
    destruct (verdict_eqb (r_validation_result r) Incorrect) eqn:E3;
    destruct (verdict_eqb (r_validation_result r) NotFound) eqn:E4;
    cbn [orb] in Hs; try discriminate Hs;
    try (specialize (Hi eq_refl); discriminate Hi);
    try (apply verdict_eqb_eq in E1, E2; congruence);
    try (apply verdict_eqb_eq in E3, E4; congruence);
    split; lia.
Qed.

(** For an identifier that is mostly Chinese and carries a digit, a
    match without any Chinese character is never relevant, whatever the
    producers are. *)
Theorem chinese_model_needs_chinese_match
        (original_model matched_model original_producer matched_producer : pystr) :
  is_chinese_with_number original_model = true ->
  extract_chinese_part matched_model = [] ->
  is_relevant_match original_model matched_model original_producer matched_producer
  = false.
Proof.
  intros Hc Hm. unfold is_relevant_match.
  assert (Hcat : category_check original_model matched_model = Some false
                 \/ category_check original_model matched_model = None)
    by (unfold category_check; destruct (_ && _); auto).
  destruct Hcat as [-> | ->]; [reflexivity|]. cbn [or_else].
  unfold chinese_model_check. rewrite Hc. cbn [or_else].
  unfold check_chinese_model_relevance, calculate_text_similarity. rewrite Hm.
  cbn [truthy negb]. rewrite orb_true_r. reflexivity.
Qed.

End RelevanceMoreFacts.

Lemma chinese_model_needs_chinese_match_witness :
  is_chinese_with_number (u "米家无线吸尘器2") = true
  /\ extract_chinese_part (u "MJXCQ-2") = []
  /\ is_relevant_match (u "米家无线吸尘器2") (u "MJXCQ-2") [] [] = false.
Proof.
  split; [reflexivity|]. split; [reflexivity|].
  apply (chinese_model_needs_chinese_match (u "米家无线吸尘器2") (u "MJXCQ-2") [] []);
    reflexivity.
Defined.

(** ** What is saved into the sheet *)

Lemma verdict_text_length (v : verdict) : (2 <= length (verdict_text v) <= 7)%nat.
Proof. destruct v; vm_compute; lia. Qed.

Lemma separator_length : length (u " - ") = 3%nat /\ length (u "...") = 3%nat.
Proof. split; reflexivity. Qed.

Lemma final_result_length (res : result) :
  r_details res <> [] -> (6 <= length (final_result res))%nat.
Proof.
  intros Hd. unfold final_result.
  pose proof (verdict_text_length (r_validation_result res)) as Hv.
  destruct separator_length as [Hs Hp].
  destruct (r_details res) as [|c details] eqn:Ed; [contradiction|].
  cbn [truthy andb].
  destruct (length (c :: details) <? 80)%nat;
    rewrite !length_app, Hs; cbn [length]; lia.
Qed.

(** The text written for a result starts with the verdict and is at most
    83 characters longer; without a detail text it is the verdict, and
    with one it is none of the texts [get_statistics] counts. *)
Theorem final_result_text (res : result) :
  let verdict := verdict_text (r_validation_result res) in
  startswith (final_result res) verdict = true
  /\ (length (final_result res) <= length verdict + 83)%nat
  /\ (r_details res = [] -> final_result res = verdict)
  /\ (r_details res <> [] ->
      forall counted, In counted [u "正确"; u "错误"; u "搜不到"; []] ->
                      final_result res <> counted).
Proof.
  cbv zeta. split; [|split; [|split]].
  - unfold final_result.
    destruct (truthy (r_details res) && _); [apply startswith_app|].
    destruct (truthy (r_details res)); [apply startswith_app|].
    rewrite <- (app_nil_r (verdict_text _)) at 1. apply startswith_app.
  - unfold final_result.
    destruct (truthy (r_details res)) eqn:Et; cbn [andb].
    + destruct separator_length as [Hs Hp].
      destruct (Nat.ltb_spec (length (r_details res)) 80);
        rewrite !length_app, Hs; [lia|].
      pose proof (firstn_le_length 77 (r_details res)). rewrite Hp. lia.
    + lia.
  - intros Hd. unfold final_result. now rewrite Hd.
  - intros Hd counted Hin Heq.
    pose proof (final_result_length res Hd) as Hlen. rewrite Heq in Hlen.
    cbn [In] in Hin.
    destruct Hin as [<-|[<-|[<-|[<-|[]]]]]; vm_compute in Hlen; lia.
Qed.

Lemma written_row_cells (results : list result) (label : Z) (row : sheet_row) :
  cell_model (written_row results label row) = cell_model row
  /\ cell_energy_level (written_row results label row) = cell_energy_level row.
Proof. unfold written_row. now destruct (find _ _). Qed.

Lemma written_row_snoc (results : list result) (res : result) (label : Z)
      (row : sheet_row) :
  written_row (results ++ [res]) label row
  = if label =? r_row_index res
    then {| cell_model := cell_model row;
            cell_energy_level := cell_energy_level row;
            cell_result := final_result res |}
    else written_row results label row.
Proof.
  unfold written_row. rewrite rev_app_distr. cbn [rev app find].
  rewrite (Z.eqb_sym (r_row_index res) label).
  now destruct (label =? r_row_index res).
Qed.

Lemma has_label_app (label : Z) (a b : sheet) :
  has_label label (a ++ b) = has_label label a || has_label label b.
Proof. apply existsb_app. Qed.

Lemma has_label_map (label : Z) (f : Z -> sheet_row -> sheet_row) (rows : sheet) :
  has_label label (map (fun x => (fst x, f (fst x) (snd x))) rows) = has_label label rows.
Proof.
  unfold has_label. induction rows as [|x rows IH]; [reflexivity|].
  cbn [map existsb fst]. now rewrite IH.
Qed.

Lemma has_label_in (label : Z) (rows : sheet) :
  has_label label rows = true <-> In label (map fst rows).
Proof.
  unfold has_label. rewrite existsb_exists, in_map_iff. split.
  - intros (x & Hin & Hx). exists x. split; [|exact Hin]. now apply Z.eqb_eq.
  - intros (x & Hx & Hin). exists x. split; [exact Hin|]. now apply Z.eqb_eq.
Qed.

Lemma has_label_labels (label : Z) (labels : list Z) (f : Z -> sheet_row) :
  has_label label (map (fun l => (l, f l)) labels) = true <-> In label labels.
Proof.
  rewrite has_label_in, map_map. cbn [fst]. now rewrite map_id.
Qed.

Lemma find_row_index (results : list result) (label : Z) :
  In label (map r_row_index results) ->
  exists res, find (fun res => r_row_index res =? label) (rev results) = Some res
              /\ In res results /\ r_row_index res = label.
Proof.
  intros Hin. apply in_map_iff in Hin as (res0 & Hl & Hin).
  destruct (find (fun res => r_row_index res =? label) (rev results)) as [res|] eqn:Ef.
  - exists res. apply find_some in Ef as [Hr Hres].
    split; [reflexivity|]. split; [now apply in_rev|now apply Z.eqb_eq].
  - exfalso. assert (Hrev : In res0 (rev results)) by (apply -> in_rev; exact Hin).
    pose proof (find_none _ _ Ef res0 Hrev) as Hfalse. cbn beta in Hfalse.
    rewrite Hl, Z.eqb_refl in Hfalse. discriminate Hfalse.
Qed.

(** The sheet after [_save_results]: its rows, written into, followed by
    one new row for every row index that is no label of the sheet. *)
Lemma save_results_shape (results : list result) (rows : sheet) :
  exists added : list Z,
    _save_results results rows
    = map (fun x => (fst x, written_row results (fst x) (snd x))) rows
      ++ map (fun l => (l, written_row results l (new_row []))) added
    /\ NoDup added
    /\ (forall l, In l added ->
          has_label l rows = false /\ In l (map r_row_index results))
    /\ (forall res, In res results ->
          has_label (r_row_index res) rows = true \/ In (r_row_index res) added).
Proof.
  induction results as [|res results IH] using rev_ind.
  - exists []. split; [|split; [constructor|split; [intros l []|intros res []]]].
    cbn. rewrite app_nil_r. rewrite <- (map_id rows) at 1.
    apply map_ext. now intros [label row].
  - destruct IH as (added & Hsaved & Hnd & Hadded & Hall).
    unfold _save_results in *. rewrite fold_left_app. cbn [fold_left].
    rewrite Hsaved. unfold update_result.
    rewrite has_label_app, (has_label_map _ (written_row results)).
    set (l0 := r_row_index res).
    assert (Hrow : forall (label : Z) (row : sheet_row),
               (let '(label, row) := (label, written_row results label row) in
                if label =? l0
                then (label, {| cell_model := cell_model row;
                                cell_energy_level := cell_energy_level row;
                                cell_result := final_result res |})
                else (label, row))
               = (label, written_row (results ++ [res]) label row)).
    { intros label row. destruct (written_row_cells results label row) as [Hm He].
      rewrite written_row_snoc. fold l0.
      destruct (label =? l0); [|reflexivity]. now rewrite Hm, He. }
    destruct (has_label l0 rows
              || has_label l0 (map (fun l => (l, written_row results l (new_row [])))
                                   added)) eqn:Ehas.
    + exists added. split; [|split; [exact Hnd|split]].
      * rewrite map_app, !map_map. f_equal; apply map_ext.
        -- intros [label row]. cbn [fst snd]. apply Hrow.
        -- intros l. apply Hrow.
      * intros l Hl. destruct (Hadded l Hl) as [H1 H2]. split; [exact H1|].
        rewrite map_app. apply in_or_app. now left.
      * intros r Hr. apply in_app_or in Hr as [Hr|[<-|[]]]; [now apply Hall|].
        fold l0. apply orb_true_iff in Ehas as [H|H]; [now left|right].
        now apply has_label_labels in H.
    + apply orb_false_iff in Ehas as [Hrows Hnew].
      assert (Hnot : ~ In l0 added).
      { intros Hin. apply (has_label_labels l0 added
                             (fun l => written_row results l (new_row []))) in Hin.
        rewrite Hin in Hnew. discriminate Hnew. }
      exists (added ++ [l0]). split; [|split; [|split]].
      * rewrite map_app, <- app_assoc. cbn [map app]. f_equal; [|f_equal].
        -- apply map_ext_in. intros [label row] Hin. cbn [fst snd]. f_equal.
           rewrite written_row_snoc. fold l0.
           destruct (Z.eqb_spec label l0) as [->|_]; [|reflexivity].
           exfalso. assert (H : has_label l0 rows = true)
             by (apply has_label_in, in_map_iff; exists (l0, row); auto).
           rewrite H in Hrows. discriminate Hrows.
        -- apply map_ext_in. intros l Hin. f_equal.
           rewrite written_row_snoc. fold l0.
           destruct (Z.eqb_spec l l0) as [->|_]; [contradiction|reflexivity].
        -- f_equal. rewrite written_row_snoc. fold l0. now rewrite Z.eqb_refl.
      * apply NoDup_app; [exact Hnd|repeat constructor; intros []|].
        intros l Hl [<-|[]]. contradiction.
      * intros l Hl. rewrite map_app. apply in_app_or in Hl as [Hl|[<-|[]]].
        -- destruct (Hadded l Hl) as [H1 H2]. split; [exact H1|].
           apply in_or_app. now left.
        -- split; [exact Hrows|]. apply in_or_app. right. now left.
      * intros r Hr. apply in_app_or in Hr as [Hr|[<-|[]]].
        -- destruct (Hall r Hr) as [H|H]; [now left|right].
           apply in_or_app. now left.
        -- right. apply in_or_app. right. now left.
Qed.

(** When every row index is a label of the sheet, no row is added. *)
Lemma save_results_map (results : list result) (rows : sheet) :
  (forall res, In res results -> has_label (r_row_index res) rows = true) ->
  _save_results results rows
  = map (fun x => (fst x, written_row results (fst x) (snd x))) rows.
Proof.
  intros Hlabels.
  destruct (save_results_shape results rows) as (added & Hsaved & _ & Hadded & _).
  destruct added as [|l added]; [now rewrite Hsaved, app_nil_r|].
  exfalso. destruct (Hadded l (or_introl eq_refl)) as [Hno Hin].
  apply in_map_iff in Hin as (res & <- & Hres).
  rewrite (Hlabels res Hres) in Hno. discriminate Hno.
Qed.

(** [_save_results] leaves the rows of the sheet in place, with their
    labels and their model and level cells; the result cell of a row
    holds the text of the last result that carries the label of the row,
    and is left alone when there is none.  A row index that is no label
    of the sheet gets a row of its own behind them, with empty model and
    level cells and the text of the last result with that row index; so
    every result has a row afterwards, and no row is added when every
    row index is a label. *)
Theorem save_results_last_write (results : list result) (rows : sheet) :
  let saved := _save_results results rows in
  (forall (i : nat) (label : Z) (row : sheet_row),
      nth_error rows i = Some (label, row) ->
      exists row',
        nth_error saved i = Some (label, row')
        /\ cell_model row' = cell_model row
        /\ cell_energy_level row' = cell_energy_level row
        /\ cell_result row'
           = match find (fun res => r_row_index res =? label) (rev results) with
             | Some res => final_result res
             | None => cell_result row
             end)
  /\ (forall (i : nat) (label : Z) (row' : sheet_row),
        nth_error saved i = Some (label, row') ->
        (length rows <= i)%nat ->
        has_label label rows = false
        /\ cell_model row' = PyNone
        /\ cell_energy_level row' = PyNone
        /\ exists res,
             find (fun res => r_row_index res =? label) (rev results) = Some res
             /\ cell_result row' = final_result res)
  /\ NoDup (skipn (length rows) (map fst saved))
  /\ (forall res, In res results -> has_label (r_row_index res) saved = true)
  /\ ((forall res, In res results -> has_label (r_row_index res) rows = true) ->
      map fst saved = map fst rows).
Proof.
  cbv zeta.
  destruct (save_results_shape results rows) as (added & Hsaved & Hnd & Hadded & Hall).
  split; [|split; [|split; [|split]]].
  - intros i label row Hi. exists (written_row results label row).
    destruct (written_row_cells results label row) as [Hm He].
    split; [|split; [exact Hm|split; [exact He|]]].
    + rewrite Hsaved, nth_error_app1
        by (rewrite length_map; apply nth_error_Some; now rewrite Hi).
      now rewrite nth_error_map, Hi.
    + unfold written_row. now destruct (find _ _).
  - intros i label row' Hi Hlen. rewrite Hsaved in Hi.
    rewrite nth_error_app2 in Hi by (now rewrite length_map).
    apply nth_error_In, in_map_iff in Hi as (l & Hl & Hin).
    injection Hl as <- <-. destruct (Hadded l Hin) as [Hno Hres].
    split; [exact Hno|].
    destruct (find_row_index results l Hres) as (res & Hfind & _).
    unfold written_row. rewrite Hfind. cbn.
    split; [reflexivity|]. split; [reflexivity|]. now exists res.
  - rewrite Hsaved, map_app, !map_map. cbn [fst]. rewrite map_id.
    rewrite skipn_app, length_map, Nat.sub_diag, skipn_all2 by (now rewrite length_map).
    exact Hnd.
  - intros res Hres. rewrite Hsaved, has_label_app, (has_label_map _ (written_row results)).
    destruct (Hall res Hres) as [H|H]; [now rewrite H|].
    apply orb_true_iff. right. now apply has_label_labels.
  - intros Hlabels. rewrite (save_results_map results rows Hlabels), map_map.
    reflexivity.
Qed.

Lemma existsb_find_rev {A : Type} (p : A -> bool) (l : list A) :
  existsb p l = match find p (rev l) with Some _ => true | None => false end.
Proof.
  destruct (find p (rev l)) as [a|] eqn:Ef.
  - apply find_some in Ef as [Hin Hp]. apply existsb_exists.
    exists a. split; [now apply in_rev|exact Hp].
  - destruct (existsb p l) eqn:Ee; [|reflexivity].
    apply existsb_exists in Ee as (a & Hin & Hp).
    rewrite (find_none _ _ Ef a) in Hp; [discriminate|].
    apply -> in_rev. exact Hin.
Qed.

Lemma count_cells_app (text : pystr) (a b : sheet) :
  count_cells text (a ++ b) = (count_cells text a + count_cells text b)%nat.
Proof. unfold count_cells. now rewrite filter_app, length_app. Qed.

Lemma count_cells_saved (results : list result) (rows : sheet) (text : pystr) :
  (forall res, In res results -> final_result res <> text) ->
  count_cells text (map (fun x => (fst x, written_row results (fst x) (snd x))) rows)
  = count_cells text
      (filter (fun x => negb (existsb (fun res => r_row_index res =? fst x) results))
              rows).
Proof.
  intros Hres. unfold count_cells.
  induction rows as [|[label row] rows IH]; [reflexivity|].
  cbn [map filter fst snd]. rewrite existsb_find_rev. unfold written_row at 1.
  destruct (find _ (rev results)) as [res|] eqn:Ef; cbn [negb cell_result].
  - apply find_some in Ef as [Hin _]. apply in_rev in Hin.
    destruct (str_eqb (final_result res) text) eqn:Eq; [|exact IH].
    apply str_eqb_eq in Eq. now apply Hres in Eq.
  - cbn [filter snd]. destruct (str_eqb (cell_result row) text);
      cbn [length]; now rewrite IH.
Qed.

Lemma count_cells_added (results : list result) (added : list Z) (text : pystr) :
  (forall res, In res results -> final_result res <> text) ->
  (forall l, In l added -> In l (map r_row_index results)) ->
  count_cells text (map (fun l => (l, written_row results l (new_row []))) added) = O.
Proof.
  intros Hres Hadded. unfold count_cells.
  induction added as [|l added IH]; [reflexivity|].
  cbn [map filter snd].
  destruct (find_row_index results l (Hadded l (or_introl eq_refl)))
    as (res & Hfind & Hin & _).
  unfold written_row at 1. rewrite Hfind. cbn [cell_result].
  destruct (str_eqb (final_result res) text) eqn:Eq.
  - apply str_eqb_eq in Eq. now apply Hres in Eq.
  - apply IH. intros l' Hl'. apply Hadded. now right.
Qed.

(** After results with a detail text have been saved, [get_statistics]
    counts none of their rows, whatever their verdicts: its four
    counters are those of the rows of the sheet no result was written
    into.  The total is the number of rows of the sheet when every row
    index is a label, and greater otherwise. *)
Theorem saved_sheet_statistics (results : list result) (rows : sheet) :
  (forall res, In res results -> r_details res <> []) ->
  let untouched :=
    filter (fun x => negb (existsb (fun res => r_row_index res =? fst x) results))
           rows in
  exists total : nat,
    get_statistics (Some (_save_results results rows))
    = Some {| ss_total := total;
              ss_correct := count_cells (u "正确") untouched;
              ss_incorrect := count_cells (u "错误") untouched;
              ss_not_found := count_cells (u "搜不到") untouched;
              ss_unprocessed := count_cells (u "") untouched |}
    /\ (length rows <= total)%nat
    /\ ((forall res, In res results -> has_label (r_row_index res) rows = true) ->
        total = length rows)
    /\ ((exists res, In res results /\ has_label (r_row_index res) rows = false) ->
        (length rows < total)%nat).
Proof.
  intros Hd. cbv zeta. unfold get_statistics.
  assert (Hne : forall text, (length text <= 3)%nat ->
                  forall res, In res results -> final_result res <> text).
  { intros text Hlen res Hin Heq.
    pose proof (final_result_length res (Hd res Hin)) as H6.
    rewrite Heq in H6. lia. }
  destruct (save_results_shape results rows) as (added & Hsaved & _ & Hadded & Hall).
  exists (length rows + length added)%nat. rewrite Hsaved.
  rewrite !count_cells_app, !count_cells_saved, !count_cells_added, !Nat.add_0_r,
    length_app, !length_map;
    try (intros l Hl; now apply Hadded);
    try (apply Hne; vm_compute; lia).
  split; [reflexivity|]. split; [lia|]. split.
  - intros Hlabels. destruct added as [|l added]; [cbn; lia|].
    exfalso. destruct (Hadded l (or_introl eq_refl)) as [Hno Hin].
    apply in_map_iff in Hin as (res & <- & Hres).
    rewrite (Hlabels res Hres) in Hno. discriminate Hno.
  - intros (res & Hres & Hno). destruct (Hall res Hres) as [H|H].
    + rewrite H in Hno. discriminate Hno.
    + destruct added; [destruct H|cbn; lia].
Qed.

Lemma saved_sheet_statistics_witness :
  let results := [ task_result no_network (query_of 0 "格力KFR-35GW" "一级");
                   task_result no_network (query_of 5 "美的KFR-26GW" "二级") ] in
  let rows := [ (0, {| cell_model := PyStr (u "格力KFR-35GW");
                       cell_energy_level := PyStr (u "一级");
                       cell_result := [] |});
                (1, {| cell_model := PyNone;
                       cell_energy_level := PyNone;
                       cell_result := [] |}) ] in
  exists total : nat,
    get_statistics (Some (_save_results results rows))
    = Some {| ss_total := total; ss_correct := 0; ss_incorrect := 0;
              ss_not_found := 0; ss_unprocessed := 1 |}
    /\ (2 < total)%nat.
Proof.
  intros results rows.
  destruct (saved_sheet_statistics results rows) as (total & Hstats & _ & _ & Hmore).
  - intros res [<-|[<-|[]]]; vm_compute; discriminate.
  - exists total. split; [exact Hstats|]. apply Hmore.
    exists (task_result no_network (query_of 5 "美的KFR-26GW" "二级")).
    split; [right; left; reflexivity|reflexivity].
Defined.

(** ** The products read from the sheet *)

Lemma cell_text_strip (cell : pyval) : strip (cell_text cell) = cell_text cell.
Proof. destruct cell; cbn [cell_text]; [reflexivity|apply strip_idem ..]. Qed.

Lemma get_product_data_in (rows : sheet) (q : query) :
  In q (get_product_data (Some rows)) <->
  exists row, In (q_row_index q, row) rows
              /\ q_model q = cell_text (cell_model row)
              /\ q_excel_energy_level q = cell_text (cell_energy_level row)
              /\ q_model q <> [].
Proof.
  unfold get_product_data. rewrite in_flat_map. split.
  - intros ([label row] & Hin & Hq).
    destruct (cell_text (cell_model row)) as [|c model] eqn:Em; [destruct Hq|].
    cbn [truthy In] in Hq. destruct Hq as [<-|[]]. cbn.
    exists row. rewrite Em. repeat split; [exact Hin|discriminate].
  - intros (row & Hin & Hm & He & Hne). exists (q_row_index q, row).
    split; [exact Hin|]. rewrite <- Hm, <- He.
    destruct q as [index [|c model] level]; [now contradiction Hne|].
    left. reflexivity.
Qed.

Lemma get_product_data_row_indices (rows : sheet) :
  map q_row_index (get_product_data (Some rows))
  = map fst (filter (fun x => truthy (cell_text (cell_model (snd x)))) rows).
Proof.
  unfold get_product_data.
  induction rows as [|[label row] rows IH]; [reflexivity|].
  cbn [flat_map filter snd]. rewrite map_app, IH.
  now destruct (truthy (cell_text (cell_model row))).
Qed.

Lemma filter_strongly_sorted {A : Type} (R : Z -> Z -> Prop) (key : A -> Z)
      (f : A -> bool) (l : list A) :
  StronglySorted R (map key l) -> StronglySorted R (map key (filter f l)).
Proof.
  induction l as [|x l IH]; cbn [map filter]; intros H; [constructor|].
  apply StronglySorted_inv in H as [Hs Hall]. specialize (IH Hs).
  destruct (f x); [|exact IH]. cbn [map]. constructor; [exact IH|].
  rewrite Forall_forall in *. intros y Hy. apply Hall.
  apply in_map_iff in Hy as (a & <- & Ha). apply in_map.
  now apply filter_In in Ha.
Qed.

(** The products read from the sheet: every one comes from a row of the
    sheet, with its label as row index, and has a model that is not
    empty; model and level carry no surrounding white space.  The rows
    without a model are left out, the others keep their order, so
    strictly increasing labels give strictly increasing row indices. *)
Theorem get_product_data_rows (rows : sheet) :
  let products_data := get_product_data (Some rows) in
  (forall q, In q products_data ->
     q_model q <> []
     /\ strip (q_model q) = q_model q
     /\ strip (q_excel_energy_level q) = q_excel_energy_level q
     /\ exists row, In (q_row_index q, row) rows
                    /\ q_model q = cell_text (cell_model row)
                    /\ q_excel_energy_level q = cell_text (cell_energy_level row))
  /\ map q_row_index products_data
     = map fst (filter (fun x => truthy (cell_text (cell_model (snd x)))) rows)
  /\ (StronglySorted Z.lt (map fst rows) ->
      StronglySorted Z.lt (map q_row_index products_data)).
Proof.
  cbv zeta. split; [|split].
  - intros q Hq. apply get_product_data_in in Hq as (row & Hin & Hm & He & Hne).
    split; [exact Hne|]. rewrite Hm, He, !cell_text_strip.
    split; [reflexivity|]. split; [reflexivity|]. now exists row.
  - apply get_product_data_row_indices.
  - intros Hs. rewrite get_product_data_row_indices.
    now apply filter_strongly_sorted.
Qed.

(** ** The run *)

Lemma firstn_strongly_sorted {A : Type} (R : A -> A -> Prop) (n : nat) (l : list A) :
  StronglySorted R l -> StronglySorted R (firstn n l).
Proof.
  revert n; induction l as [|x l IH]; intros [|n] H; cbn [firstn];
    try constructor.
  - apply IH. now apply StronglySorted_inv in H.
  - apply StronglySorted_inv in H as [_ Hall]. rewrite Forall_forall in *.
    intros y Hy. apply Hall.
    rewrite <- (firstn_skipn n l). apply in_or_app. now left.
Qed.

Lemma py_prefix_firstn {A : Type} (n : Z) (l : list A) :
  exists k, py_prefix n l = firstn k l.
Proof. unfold py_prefix. destruct (n <? 0); eauto. Qed.

Lemma selected_products_firstn (rows : sheet) (max_count : option Z) :
  exists k, selected_products rows max_count
            = firstn k (get_product_data (Some rows)).
Proof.
  unfold selected_products.
  destruct max_count as [n|]; [destruct (n =? 0)|];
    try apply py_prefix_firstn;
    exists (length (get_product_data (Some rows))); now rewrite firstn_all.
Qed.

Lemma selected_products_in (rows : sheet) (max_count : option Z) (q : query) :
  In q (selected_products rows max_count) -> In q (get_product_data (Some rows)).
Proof.
  destruct (selected_products_firstn rows max_count) as [k ->]. intros H.
  rewrite <- (firstn_skipn k (get_product_data (Some rows))).
  apply in_or_app. now left.
Qed.

Lemma selected_products_sorted (rows : sheet) (max_count : option Z) :
  StronglySorted Z.lt (map fst rows) ->
  StronglySorted Z.lt (map q_row_index (selected_products rows max_count)).
Proof.
  intros Hs. destruct (selected_products_firstn rows max_count) as [k ->].
  rewrite <- firstn_map. apply firstn_strongly_sorted.
  rewrite get_product_data_row_indices. now apply filter_strongly_sorted.
Qed.

Lemma strongly_sorted_lt_nodup (l : list Z) : StronglySorted Z.lt l -> NoDup l.
Proof.
  induction l as [|x l IH]; intros H; constructor;
    apply StronglySorted_inv in H as [Hs Hall]; [|now apply IH].
  intros Hin. rewrite Forall_forall in Hall. specialize (Hall _ Hin). lia.
Qed.

Lemma find_unique_row (l : list result) (res : result) :
  NoDup (map r_row_index l) -> In res l ->
  find (fun x => r_row_index x =? r_row_index res) l = Some res.
Proof.
  induction l as [|x l IH]; intros Hnd Hin; [destruct Hin|].
  cbn [map] in Hnd. apply NoDup_cons_iff in Hnd as [Hx Hnd]. cbn [find].
  destruct Hin as [->|Hin]; [now rewrite Z.eqb_refl|].
  destruct (Z.eqb_spec (r_row_index x) (r_row_index res)) as [E|_];
    [|now apply IH].
  exfalso. apply Hx. rewrite E. now apply in_map.
Qed.

Lemma find_no_row (l : list result) (label : Z) :
  ~ In label (map r_row_index l) ->
  find (fun x => r_row_index x =? label) l = None.
Proof.
  induction l as [|x l IH]; intros H; [reflexivity|]. cbn [find].
  destruct (Z.eqb_spec (r_row_index x) label) as [E|_].
  - exfalso. apply H. left. exact E.
  - apply IH. intros Hin. apply H. now right.
Qed.

Lemma collect_results_nil {L : PyLib} (envs : nat -> task_env) (completed : list nat)
      (results : list result) (st : stats) :
  collect_results envs [] completed results st = (results, st).
Proof.
  induction completed as [|i rest IH]; [reflexivity|].
  cbn [collect_results]. now destruct i.
Qed.

Section RunFacts.
Context {L : PyLib}.

Lemma recheck_result_row (r : result) :
  r_row_index (recheck_result r) = r_row_index r.
Proof.
  unfold recheck_result. destruct (verdict_eqb _ _); [|reflexivity].
  now destruct (negb _).
Qed.

Lemma process_batch_sorted_input (max_workers : Z) (envs : nat -> task_env)
      (completed : list nat) (elapsed : Q) (products_data : list query) :
  1 <= max_workers ->
  Permutation completed (seq 0 (length products_data)) ->
  products_data <> [] ->
  ~ Qeq elapsed 0 ->
  StronglySorted Z.lt (map q_row_index products_data) ->
  process_batch max_workers initial_stats envs completed elapsed products_data
  = Returned (results_in_order envs products_data).
Proof.
  intros Hw Hperm Hne Hel Hs.
  rewrite process_batch_returns by (auto; cbn; lia). f_equal.
  destruct (sort_by_row_index_spec (collected envs products_data completed)) as [Hp Hso].
  apply sorted_permutation_unique; [exact Hso| |].
  - apply map_strongly_sorted. now rewrite results_in_order_rows.
  - rewrite Hp. now apply collected_permutation.
Qed.

(** A run over a sheet with strictly increasing labels, at least one
    selected product, a worker at least, and a batch that took time:
    whatever the order in which the tasks complete, the run ends
    normally, with the value that says whether the file was written;
    the sheet keeps its labels, the row of the [i]-th selected product
    holds the text of the result of its task after the relevance check,
    and the rows of no selected product are as before. *)
Theorem run_fast_validation_saves (rows : sheet) (max_count : option Z)
        (max_workers : Z) (envs : nat -> task_env) (completed : list nat)
        (elapsed : Q) (saved : bool) :
  let products_data := selected_products rows max_count in
  StronglySorted Z.lt (map fst rows) ->
  1 <= max_workers ->
  products_data <> [] ->
  Permutation completed (seq 0 (length products_data)) ->
  ~ Qeq elapsed 0 ->
  exists rows',
    run_fast_validation rows max_count max_workers envs completed elapsed saved
    = (Returned saved, rows')
    /\ map fst rows' = map fst rows
    /\ (forall i q, nth_error products_data i = Some q ->
          exists row, In (q_row_index q, row) rows'
                      /\ cell_result row
                         = final_result (recheck_result (task_result (envs i) q)))
    /\ (forall label row, In (label, row) rows ->
          (forall q, In q products_data -> q_row_index q <> label) ->
          In (label, row) rows').
Proof.
  intros products_data Hrows Hw Hne Hperm Hel.
  pose proof (selected_products_sorted rows max_count Hrows) as Hsorted.
  fold products_data in Hsorted.
  set (results := map recheck_result (results_in_order envs products_data)).
  assert (Hidx : map r_row_index results = map q_row_index products_data).
  { unfold results. rewrite map_map. rewrite <- results_in_order_rows with (envs := envs).
    apply map_ext. apply recheck_result_row. }
  assert (Hlabels : forall res, In res results ->
                                has_label (r_row_index res) rows = true).
  { intros res Hres. apply has_label_in.
    assert (Hin : In (r_row_index res) (map q_row_index products_data))
      by (rewrite <- Hidx; now apply in_map).
    apply in_map_iff in Hin as (q & Hq & Hin).
    apply selected_products_in, get_product_data_in in Hin as (row & Hrow & _).
    rewrite <- Hq. apply in_map_iff. now exists (q_row_index q, row). }
  exists (_save_results results rows). split; [|split; [|split]].
  - unfold run_fast_validation. fold products_data.
    rewrite process_batch_sorted_input by assumption.
    rewrite perform_relevance_check_map. fold results.
    unfold _print_validation_report.
    assert (Hlen : length results = length products_data)
      by (unfold results; now rewrite length_map, results_in_order_length).
    rewrite Hlen. destruct products_data; [contradiction|].
    cbn [length Nat.eqb]. now destruct saved.
  - rewrite (save_results_map results rows Hlabels), map_map. reflexivity.
  - intros i q Hq.
    assert (Hin : In q (get_product_data (Some rows)))
      by (eapply selected_products_in, nth_error_In, Hq).
    apply get_product_data_in in Hin as (row & Hrow & _).
    set (res := recheck_result (task_result (envs i) q)).
    assert (Hres : r_row_index res = q_row_index q).
    { unfold res. rewrite recheck_result_row. apply task_result_query. }
    exists (written_row results (q_row_index q) row). split.
    + rewrite (save_results_map results rows Hlabels). apply in_map_iff.
      exists (q_row_index q, row). split; [reflexivity|exact Hrow].
    + unfold written_row. rewrite <- Hres.
      rewrite (find_unique_row (rev results) res); [reflexivity| |].
      * rewrite map_rev, Hidx. apply NoDup_rev.
        now apply strongly_sorted_lt_nodup.
      * apply -> in_rev. unfold results, res. apply in_map.
        now apply results_in_order_in.
  - intros label row Hrow Hnone. rewrite (save_results_map results rows Hlabels).
    apply in_map_iff.
    exists (label, row). split; [|exact Hrow]. cbn [fst snd]. f_equal.
    unfold written_row. rewrite find_no_row; [reflexivity|].
    rewrite map_rev, Hidx. intros Hin. apply in_rev in Hin.
    apply in_map_iff in Hin as (q & Hq & Hin). now apply (Hnone q).
Qed.

(** A run with no product to process, be it that no row of the sheet
    has a model, ends with the value [False] and leaves the sheet as it
    was: the batch raises (the closing report divides by the number of
    processed products) and the run catches it. *)
Theorem run_fast_validation_no_products (rows : sheet) (max_count : option Z)
        (max_workers : Z) (envs : nat -> task_env) (completed : list nat)
        (elapsed : Q) (saved : bool) :
  selected_products rows max_count = [] ->
  run_fast_validation rows max_count max_workers envs completed elapsed saved
  = (Returned false, rows).
Proof.
  intros H. unfold run_fast_validation, process_batch. rewrite H.
  destruct (max_workers <=? 0); [reflexivity|].
  now rewrite collect_results_nil.
Qed.

End RunFacts.

Lemma run_fast_validation_saves_witness :
  let rows := [ (0, {| cell_model := PyStr (u "格力KFR-35GW");
                       cell_energy_level := PyStr (u "一级");
                       cell_result := [] |});
                (1, {| cell_model := PyNone;
                       cell_energy_level := PyNone;
                       cell_result := [] |}) ] in
  exists rows',
    run_fast_validation rows None 3 (fun _ => no_network) [0%nat] 1 true
    = (Returned true, rows')
    /\ map fst rows' = [0; 1].
Proof.
  intros rows.
  destruct (run_fast_validation_saves rows None 3 (fun _ => no_network) [0%nat] 1 true)
    as (rows' & Hrun & Hlabels & _).
  - vm_compute. repeat constructor.
  - lia.
  - vm_compute. discriminate.
  - vm_compute. reflexivity.
  - vm_compute. discriminate.
  - exists rows'. split; [exact Hrun|exact Hlabels].
Defined.

Lemma run_fast_validation_no_products_witness :
  let rows := [ (0, {| cell_model := PyNone;
                       cell_energy_level := PyStr (u "一级");
                       cell_result := [] |}) ] in
  run_fast_validation rows None 3 (fun _ => no_network) [] 1 true
  = (Returned false, rows).
Proof.
  intros rows.
  apply (run_fast_validation_no_products rows None 3 (fun _ => no_network) [] 1 true).
  reflexivity.
Defined.

(** ** Runs of the further properties *)

Lemma task_result_agrees_with_validate_witness :
  let env := registry [registry_record "KFR-35GW" 1 "格力" "2023-01-01"] in
  let q := query_of 0 "格力KFR-35GW" "一级" in
  r_search_success (task_result env q) = true
  /\ r_validation_result (task_result env q) = Correct.
Proof.
  intros env q.
  destruct (task_result_agrees_with_validate
              env q {| sd_list := Some [registry_record "KFR-35GW" 1 "格力" "2023-01-01"] |}
              (registry_record "KFR-35GW" 1 "格力" "2023-01-01") [])
    as (Hv & _ & _ & Hs).
  - intros s. reflexivity.
  - reflexivity.
  - reflexivity.
  - split; [exact Hs|]. rewrite Hv. vm_compute. reflexivity.
Defined.

Lemma task_result_decided_witness :
  let env := registry [registry_record "KFR-35GW" 2 "格力" "2023-01-01"] in
  let q := query_of 0 "格力KFR-35GW" "一级" in
  r_search_success (task_result env q) = true
  /\ exists level model producer,
       r_search_energy_level (task_result env q) = Some level
       /\ r_matched_model (task_result env q) = Some model
       /\ r_producer (task_result env q) = Some producer
       /\ r_validation_result (task_result env q)
          = compare_energy_levels (PyStr (q_excel_energy_level q)) (PyStr level).
Proof.
  intros env q.
  destruct (proj1 (task_result_decided env q)) as (Hs & _ & Hm).
  - vm_compute. discriminate.
  - split; [exact Hs|exact Hm].
Defined.

Lemma batch_validate_rows_witness :
  let products_data := [ query_of 3 "格力KFR-35GW" "一级" ] in
  let search_results :=
    [ {| vi_search_result := {| sr_search_success := false; sr_energy_levels := [];
                                sr_extracted_model := None |};
         vi_error_message := None |} ] in
  batch_validate products_data [] = Raised (u "产品数据和搜索结果数量不匹配")
  /\ exists results,
       batch_validate products_data search_results = Returned results
       /\ map v_row_index results = [Some 3].
Proof.
  intros products_data search_results. split.
  - apply (proj1 (batch_validate_rows products_data [])). discriminate.
  - destruct (proj2 (batch_validate_rows products_data search_results))
      as (results & Hret & _ & Hrows & _); [reflexivity|].
    exists results. split; [exact Hret|exact Hrows].
Defined.

Lemma get_validation_statistics_counters_witness :
  let missing :=
    validate_single_product (u "格力KFR-35GW") []
      {| vi_search_result :=
           {| sr_search_success := true;
              sr_energy_levels := [to_candidate (registry_record "KFR-35GW" 1 "格力" "")];
              sr_extracted_model := Some (u "KFR-35GW") |};
         vi_error_message := None |} in
  let failed :=
    validate_single_product (u "格力KFR-35GW") (u "一级")
      {| vi_search_result := {| sr_search_success := false; sr_energy_levels := [];
                                sr_extracted_model := None |};
         vi_error_message := None |} in
  get_validation_statistics [failed; missing] = Raised (u "'Excel缺失'")
  /\ exists st, get_validation_statistics [failed] = Returned st
                /\ vs_total st = 1.
Proof.
  intros missing failed. split.
  - apply (proj1 (get_validation_statistics_counters [failed; missing])).
    apply Exists_cons_tl, Exists_cons_hd. vm_compute. reflexivity.
  - destruct (proj2 (get_validation_statistics_counters [failed]))
      as (st & Hret & Htotal & _).
    + constructor; [|constructor]. vm_compute. discriminate.
    + exists st. split; [exact Hret|exact Htotal].
Defined.

Lemma extract_energy_levels_candidates_witness :
  let records := [ registry_record "KFR-35GW" 1 "格力" "2023-01-01";
                   registry_record "KFR-26GW" 0 "格力" "2023-01-01" ] in
  truthy (c_energy_level (to_candidate (registry_record "KFR-35GW" 1 "格力" "2023-01-01")))
  = true.
Proof.
  intros records.
  destruct extract_energy_levels_candidates as (_ & _ & H).
  apply (H records (to_candidate (registry_record "KFR-35GW" 1 "格力" "2023-01-01"))).
  vm_compute. left. reflexivity.
Defined.

Lemma search_product_attempts_witness :
  let d := {| sd_list := Some [registry_record "KFR-35GW" 1 "格力" "2023-01-01"] |} in
  let responses := fun i : nat =>
    match i with
    | O => RespTimeout
    | S _ => RespData d
    end in
  exists k, snd (search_product responses 3) = S k /\ responses k = RespData d.
Proof.
  intros d responses.
  destruct (search_product_attempts responses 3) as (_ & H & _).
  apply (H d). reflexivity.
Defined.

Lemma get_product_data_rows_witness :
  let rows := [ (0, {| cell_model := PyStr (u " 格力KFR-35GW ");
                       cell_energy_level := PyStr (u "一级");
                       cell_result := [] |});
                (1, {| cell_model := PyNone;
                       cell_energy_level := PyStr (u "二级");
                       cell_result := [] |});
                (2, {| cell_model := PyInt 2017;
                       cell_energy_level := PyNone;
                       cell_result := [] |}) ] in
  StronglySorted Z.lt (map q_row_index (get_product_data (Some rows)))
  /\ map q_row_index (get_product_data (Some rows)) = [0; 2].
Proof.
  intros rows.
  destruct (get_product_data_rows rows) as (_ & Hidx & Hsorted).
  split; [|exact Hidx].
  apply Hsorted. vm_compute. repeat constructor.
Defined.

Lemma final_result_text_witness :
  let res := task_result no_network (query_of 0 "格力KFR-35GW" "一级") in
  final_result res <> u "搜不到".
Proof.
  intros res.
  destruct (final_result_text res) as (_ & _ & _ & H).
  apply H; [vm_compute; discriminate|].
  right. right. left. reflexivity.
Defined.

Lemma save_results_last_write_witness :
  let first := task_result no_network (query_of 0 "格力KFR-35GW" "一级") in
  let second := task_result search_raises (query_of 0 "格力KFR-35GW" "一级") in
  let other := task_result no_network (query_of 9 "美的KFR-26GW" "二级") in
  let row := {| cell_model := PyStr (u "格力KFR-35GW");
                cell_energy_level := PyStr (u "一级");
                cell_result := [] |} in
  (exists row',
      nth_error (_save_results [first; other; second] [(0, row)]) 0 = Some (0, row')
      /\ cell_result row' = final_result second)
  /\ has_label 9 (_save_results [first; other; second] [(0, row)]) = true
  /\ map fst (_save_results [first; second] [(0, row)]) = [0].
Proof.
  intros first second other row.
  destruct (save_results_last_write [first; other; second] [(0, row)])
    as (Hrows & _ & _ & Hall & _).
  destruct (save_results_last_write [first; second] [(0, row)])
    as (_ & _ & _ & _ & Hsame).
  split; [|split].
  - destruct (Hrows 0%nat 0 row eq_refl) as (row' & Hnth & _ & _ & Hcell).
    exists row'. split; [exact Hnth|exact Hcell].
  - apply (Hall other). right. left. reflexivity.
  - apply Hsame. intros res [<-|[<-|[]]]; reflexivity.
Defined.

Lemma process_batch_empty_witness :
  process_batch 3 initial_stats (fun _ => no_network) [] 1 []
  = Raised (u "division by zero").
Proof.
  apply (process_batch_empty 3 (fun _ => no_network) [] 1). lia.
Defined.
